(** * Plot-level trait extraction: a shallow embedding of [extractor_base.py]

    The development follows the module
    [docker/extractor_plot_base_cyverse/extractor_base.py]: the retry
    back-off, the durable CSV append, the BETYdb upload, the trait schema,
    the image and metadata loaders and the per-image loop of
    [process_files].

    Modelling conventions.
    - Python [str] is [string]: an ASCII text character by character,
      any other text by the bytes of its UTF-8 encoding. [None]-able
      arguments are [option]. What depends on the class of a character
      ([strip], [lstrip], [lower]) is defined for ASCII text ([is_ascii]),
      and the statements that rely on it say so.
    - A Python [dict] keyed by strings is a [gmap string _]; where the
      iteration order of a dict is observable (the loaded image files) an
      association list in insertion order is used instead.
    - A Python [float] is an IEEE 754 binary64 number, a [spec_float] of
      the Standard Library with its correctly rounded operations; an
      [int] is a [Z]. The delays of the retry back-off are computed with
      them, as the source computes them.
    - Image coordinates are rationals extended with a NaN, compared the way
      IEEE 754 compares them; no arithmetic is done on them.
    - Effects (the file system, open file objects, module globals, the
      random generators, sleeping) live in an explicit [world] that every
      effectful function takes and returns; what the environment decides
      (whether an [open] or a [write] succeeds, what the random source
      draws) is read from an [oracle].
    - A function that can raise returns an [outcome]. Logging is not
      modelled. *)

From Stdlib Require Import Ascii String DecimalString ZArith QArith Lia Lqa.
From Stdlib Require Import SpecFloat.
From stdpp Require Import gmap strings list.

Set Default Proof Using "Type".
Local Open Scope string_scope.

(** ** Python values, exceptions and outcomes *)

Inductive exn :=
| RuntimeError (msg : string)
| UnboundLocalError (name : string)
| HTTPError (status : Z)
| KeyError (key : string)
| OtherException (msg : string).

Inductive outcome (A : Type) :=
| Return (a : A)
| Raise (e : exn).
Arguments Return {A} a.
Arguments Raise {A} e.

(** [not s] for a string-or-None argument: [None] and [""] are falsy. *)
Definition str_truthy (s : option string) : bool :=
  match s with
  | None => false
  | Some s => negb (String.eqb s "")
  end.

(** The line feed, ["\n"]. *)
Definition newline : string := String (Ascii.ascii_of_nat 10) EmptyString.

(** ** Module constants *)

(** Number of tries to open a CSV file before we give up *)
Definition MAX_CSV_FILE_OPEN_TRIES : nat := 10.

(** Maximum number of seconds a single wait for file open can take *)
Definition MAX_FILE_OPEN_SLEEP_SEC : Z := 30.

(** ** Numbers *)

(** The two parameters of binary64: the digits of the mantissa and the
    exponent of the infinities ([sys.float_info.mant_dig] and
    [sys.float_info.max_exp]). *)
Definition mant_dig : Z := 53.
Definition max_exp : Z := 1024.

(** [x * y] and [x / y] on floats. *)
Definition fmul : spec_float -> spec_float -> spec_float :=
  SFmul mant_dig max_exp.
Definition fdiv : spec_float -> spec_float -> spec_float :=
  SFdiv mant_dig max_exp.

(** The float nearest to an integer (ties to even): what the conversion
    of an [int] to a [float] gives when it does not overflow. *)
Definition float_of_Z (n : Z) : spec_float :=
  binary_normalize mant_dig max_exp n 0 false.

(** A Python number: an [int] or a [float]. *)
Inductive number :=
| PyInt (n : Z)
| PyFloat (x : spec_float).

(** [float(n)] *)
Definition py_float (n : number) : outcome spec_float :=
  match n with
  | PyFloat x => Return x
  | PyInt k =>
      match float_of_Z k with
      | S754_infinity _ => Raise (OtherException "OverflowError")
      | x => Return x
      end
  end.

(** [math.trunc(x)] for a float: the integer part, rounding toward zero.
    An infinity raises [OverflowError], a NaN [ValueError]. *)
Definition math_trunc (x : spec_float) : outcome Z :=
  match x with
  | S754_zero _ => Return 0%Z
  | S754_finite s m e => Return (cond_Zopp s (Z.shiftl (Zpos m) e))
  | S754_infinity _ => Raise (OtherException "OverflowError")
  | S754_nan => Raise (OtherException "ValueError")
  end.

(** An integer as the exact operand of a division. *)
Definition exact_int (n : Z) : spec_float :=
  match n with
  | Z0 => S754_zero false
  | Zpos p => S754_finite false p 0
  | Zneg p => S754_finite true p 0
  end.

Definition is_zero (x : spec_float) : bool :=
  match x with
  | S754_zero _ => true
  | _ => false
  end.

(** [a / b], true division. Two [int]s give the float nearest to the
    exact quotient; with a [float] on one side the other side is
    converted first. *)
Definition py_truediv (a b : number) : outcome spec_float :=
  match a, b with
  | PyInt a, PyInt b =>
      if (b =? 0)%Z then Raise (OtherException "ZeroDivisionError")
      else match fdiv (exact_int a) (exact_int b) with
           | S754_infinity _ => Raise (OtherException "OverflowError")
           | q => Return q
           end
  | _, _ =>
      match py_float a with
      | Raise e => Raise e
      | Return x =>
          match py_float b with
          | Raise e => Raise e
          | Return y =>
              if is_zero y then Raise (OtherException "ZeroDivisionError")
              else Return (fdiv x y)
          end
      end
  end.

(** The float literal [0.1]: the float nearest to one tenth. *)
Definition one_tenth : spec_float := S754_finite false 7205759403792794 (-56).

(** Python's two-argument [max]: the second argument only when it is
    strictly greater. *)
Definition py_max (a b : spec_float) : spec_float := if SFltb a b then b else a.

(** What [random()] returns: a float [x] with [0.0 <= x < 1.0]. *)
Definition in_unit_interval (x : spec_float) : bool :=
  valid_binary mant_dig max_exp x && SFleb (S754_zero false) x
  && SFltb x (float_of_Z 1).

Record unit_float := UnitFloat {
  unit_value : spec_float;
  unit_range : in_unit_interval unit_value = true
}.

(** ** The world *)

(** [RANDOM_GENERATOR]: [None], a [random.SystemRandom] instance, or [0]. *)
Inductive generator := GenNone | GenSystemRandom | GenZero.

Definition generator_truthy (g : generator) : bool :=
  match g with
  | GenSystemRandom => true
  | GenNone | GenZero => false
  end.

Inductive event :=
| EvOpen (path : string) (ok : bool)
| EvSleep (secs : number)
| EvWrite (path : string) (text : string) (ok : bool)
| EvClose (path : string)
| EvPost (payload : string).

Record world := World {
  files : gmap string string;     (* path -> contents *)
  handles : list string;          (* paths of the file objects now open *)
  RANDOM_GENERATOR : generator;   (* the module global *)
  opens : nat;                    (* calls to open() so far *)
  writes : nat;                   (* calls to file.write() so far *)
  draws : nat;                    (* calls to random.random() so far *)
  sys_draws : nat;                (* calls to SystemRandom.random() so far *)
  trace : list event              (* what happened, oldest first *)
}.

(** JSON documents, as [json.load] and [resp.json()] return them. *)
#[warnings="-register-all"]
Inductive json :=
| JNull
| JBool (b : bool)
| JNum (q : Q)
| JStr (s : string)
| JArr (items : list json)
| JObj (members : list (string * json)).

(** An HTTP response: its status code and its body, when that is JSON. *)
Record response := Response {
  status_code : Z;
  body : option json
}.

(** The four numbers [image_get_geobounds] returns, in its order:
    min Y, max Y, min X, max X. Each is a float, possibly NaN. *)
Inductive coord := NaN | Num (q : Q).

Record geobounds := Geobounds {
  min_y : coord;   (* bounds[0] *)
  max_y : coord;   (* bounds[1] *)
  min_x : coord;   (* bounds[2] *)
  max_x : coord    (* bounds[3] *)
}.

(** What [calculate] returns. Every element is kept as the text [str()]
    gives for it, the only thing the pipeline does with an element. *)
Inductive calc_value :=
| CalcSet (items : list string)
| CalcDict (items : gmap string string)
| CalcList (items : list string)
| CalcTuple (items : list string)
| CalcScalar (value : string).

(** What the environment decides. *)
Record oracle := Oracle {
  open_ok : nat -> bool;          (* does the i-th open(.., 'a+') succeed *)
  write_ok : nat -> bool;         (* does the i-th write() succeed *)
  random_random : nat -> unit_float;
                                  (* the i-th draw of random.random() *)
  system_random : nat -> unit_float;
                                  (* the i-th draw of SystemRandom().random() *)
  http_post : string -> outcome response;
                                  (* requests.post of a payload *)
  image_get_geobounds : string -> geobounds;
                                  (* terrautils: bounds of an image file *)
  get_epsg : string -> option Z;  (* terrautils: EPSG code, None or empty
                                     when the file has none *)
  import_from_epsg : Z -> bool;   (* ImportFromEPSG(code) == OGRERR_NONE *)
  json_load : string -> option (gmap string json);
                                  (* open + json.load of a metadata file:
                                     the mapping it holds, or None when
                                     the body of the inner try raises *)
  read_pixels : string -> bool;   (* gdal.Open(f).ReadAsArray() succeeds *)
  calculate : string -> outcome calc_value;
                                  (* the algorithm on the pixels of a file *)
  sidecar_text : string -> option string
                                  (* the JSON sidecar written for an image:
                                     its text, or None when the try around
                                     building and writing it raises *)
}.

Definition emit (e : event) (w : world) : world :=
  World (files w) (handles w) (RANDOM_GENERATOR w) (opens w) (writes w)
        (draws w) (sys_draws w) (trace w ++ [e])%list.

Definition set_generator (g : generator) (w : world) : world :=
  World (files w) (handles w) g (opens w) (writes w)
        (draws w) (sys_draws w) (trace w).

(** [time.sleep(secs)] *)
Definition time_sleep (secs : number) (w : world) : world :=
  emit (EvSleep secs) w.

(** [random.random()] *)
Definition py_random (o : oracle) (w : world) : spec_float * world :=
  (unit_value (random_random o (draws w)),
   World (files w) (handles w) (RANDOM_GENERATOR w) (opens w) (writes w)
         (S (draws w)) (sys_draws w) (trace w)).

(** [RANDOM_GENERATOR.random()] on a [SystemRandom] instance *)
Definition py_system_random (o : oracle) (w : world) : spec_float * world :=
  (unit_value (system_random o (sys_draws w)),
   World (files w) (handles w) (RANDOM_GENERATOR w) (opens w) (writes w)
         (draws w) (S (sys_draws w)) (trace w)).

(** ** [_get_open_backoff] *)

(** The generator the call draws from, after the lazy initialisation:
    [try: RANDOM_GENERATOR = random.SystemRandom()] is followed by
    [finally: RANDOM_GENERATOR = 0], so an unset generator always ends
    as [0]. *)
Definition init_generator (w : world) : world :=
  match RANDOM_GENERATOR w with
  | GenNone => set_generator GenZero (set_generator GenSystemRandom w)
  | _ => w
  end.

Definition draw_multiplier (o : oracle) (w : world) : spec_float * world :=
  if generator_truthy (RANDOM_GENERATOR w)
  then py_system_random o w
  else py_random o w.

(** [sleep > MAX_FILE_OPEN_SLEEP_SEC] compares a float with the int 30,
    which converts to a float exactly. *)
Definition _get_open_backoff (o : oracle) (prev : option number) (w : world)
  : outcome number * world :=
  match prev with
  | None => (Return (PyInt 1), w)
  | Some prev =>
      let w := init_generator w in
      let '(multiplier, w) := draw_multiplier o w in
      (match py_float prev with
       | Raise e => Raise e
       | Return prev =>
           match math_trunc (fmul (fmul prev multiplier) (float_of_Z 100)) with
           | Raise e => Raise e
           | Return scaled =>
               match py_truediv (PyInt scaled) (PyFloat (float_of_Z 10)) with
               | Raise e => Raise e
               | Return sleep =>
                   if SFltb (float_of_Z MAX_FILE_OPEN_SLEEP_SEC) sleep
                   then
                     match math_trunc (fmul multiplier (float_of_Z 100)) with
                     | Raise e => Raise e
                     | Return scaled =>
                         match py_truediv (PyInt scaled) (PyInt 10) with
                         | Raise e => Raise e
                         | Return fresh => Return (PyFloat (py_max one_tenth fresh))
                         end
                     end
                   else Return (PyFloat sleep)
               end
           end
       end, w)
  end.

(** ** [write_csv_file] *)

(** [open(filename, 'a+')]: on success the file exists afterwards (it is
    created empty when absent) and a file object is open on it. *)
Definition touch (filename : string) (fs : gmap string string)
  : gmap string string :=
  match fs !! filename with
  | Some _ => fs
  | None => <[filename := ""]> fs
  end.

Definition py_open_append (o : oracle) (filename : string) (w : world)
  : option string * world :=
  let ok := open_ok o (opens w) in
  let fs := if ok then touch filename (files w) else files w in
  let hs := if ok then filename :: handles w else handles w in
  (if ok then Some filename else None,
   World fs hs (RANDOM_GENERATOR w) (S (opens w)) (writes w)
         (draws w) (sys_draws w) (trace w ++ [EvOpen filename ok])).

(** [os.fstat(csv_file.fileno()).st_size] *)
Definition st_size (csv_file : string) (w : world) : nat :=
  match files w !! csv_file with
  | Some content => String.length content
  | None => 0
  end.

(** [csv_file.write(text)] in append mode: the text goes to the end of
    the file, or the call raises and the file is left as it was. *)
Definition file_write (o : oracle) (csv_file : string) (text : string)
  (w : world) : outcome unit * world :=
  let ok := write_ok o (writes w) in
  let fs := if ok
            then <[csv_file := default "" (files w !! csv_file) +:+ text]> (files w)
            else files w in
  (if ok then Return tt else Raise (OtherException "write failed"),
   World fs (handles w) (RANDOM_GENERATOR w) (opens w) (S (writes w))
         (draws w) (sys_draws w) (trace w ++ [EvWrite csv_file text ok])).

(** Removes the first occurrence of a handle. *)
Fixpoint remove_handle (h : string) (hs : list string) : list string :=
  match hs with
  | [] => []
  | h' :: hs => if String.eqb h h' then hs else h' :: remove_handle h hs
  end.

(** [csv_file.close()] *)
Definition file_close (csv_file : string) (w : world) : world :=
  World (files w) (remove_handle csv_file (handles w)) (RANDOM_GENERATOR w)
        (opens w) (writes w) (draws w) (sys_draws w)
        (trace w ++ [EvClose csv_file]).

(** The [for tries in range(0, MAX_CSV_FILE_OPEN_TRIES)] loop, by recursion
    on the remaining values of [tries]. An exception of
    [_get_open_backoff] is not caught. *)
Fixpoint open_loop (o : oracle) (filename : string) (range : list nat)
  (backoff_secs : option number) (w : world)
  : outcome (option string) * world :=
  match range with
  | [] => (Return None, w)
  | tries :: range =>
      let '(csv_file, w) := py_open_append o filename w in
      match csv_file with
      | Some f => (Return (Some f), w)
      | None =>
          if (tries <? MAX_CSV_FILE_OPEN_TRIES - 1)%nat
          then
            match _get_open_backoff o backoff_secs w with
            | (Raise e, w) => (Raise e, w)
            | (Return secs, w) =>
                open_loop o filename range (Some secs) (time_sleep secs w)
            end
          else open_loop o filename range backoff_secs w
      end
  end.

(** The body of the [try] of the write phase. *)
Definition write_body (o : oracle) (csv_file : string)
  (header : option string) (data : string) (w : world)
  : outcome unit * world :=
  let '(r, w) :=
    if (st_size csv_file w <=? 0)%nat
    then if str_truthy header
         then file_write o csv_file (default "" header +:+ newline) w
         else (Return tt, w)
    else (Return tt, w) in
  match r with
  | Raise e => (Raise e, w)
  | Return _ => file_write o csv_file (data +:+ newline) w
  end.

Definition write_csv_file (o : oracle) (filename header data : option string)
  (w : world) : outcome bool * world :=
  if negb (str_truthy filename) || negb (str_truthy data)
  then (Raise (RuntimeError "Empty parameter passed to write_geo_csv"), w)
  else
    let filename := default "" filename in
    let data := default "" data in
    match open_loop o filename (seq 0 MAX_CSV_FILE_OPEN_TRIES) None w with
    | (Raise e, w) => (Raise e, w)
    | (Return None, w) => (Return false, w)
    | (Return (Some csv_file), w) =>
        let '(r, w) := write_body o csv_file header data w in
        let wrote_file := match r with Return _ => true | Raise _ => false end in
        (Return wrote_file, file_close csv_file w)
    end.

(** ** [update_betydb] *)

(** [value[key]] on a JSON document. *)
Fixpoint assoc_last (key : string) (members : list (string * json))
  : option json :=
  match members with
  | [] => None
  | (k, v) :: members =>
      match assoc_last key members with
      | Some v' => Some v'
      | None => if String.eqb k key then Some v else None
      end
  end.

Definition json_subscript (j : json) (key : string) : outcome json :=
  match j with
  | JObj members =>
      match assoc_last key members with
      | Some v => Return v
      | None => Raise (KeyError key)
      end
  | _ => Raise (OtherException "TypeError")
  end.

(** [resp.json()] *)
Definition resp_json (resp : response) : outcome json :=
  match body resp with
  | Some j => Return j
  | None => Raise (OtherException "ValueError")
  end.

(** [resp.raise_for_status()] of the requests library: an [HTTPError] for
    the client and server error classes, nothing otherwise. *)
Definition raise_for_status (resp : response) : outcome unit :=
  if ((400 <=? status_code resp) && (status_code resp <? 600))%Z
  then Raise (HTTPError (status_code resp))
  else Return tt.

(** [os.linesep.join(data)] *)
Definition linesep_join (data : list string) : string :=
  String.concat newline data.

Definition update_betydb (o : oracle) (bety_csv_header : string)
  (bety_rows : list string) (w : world) : outcome (option json) * world :=
  let data := bety_csv_header :: bety_rows in
  let payload := linesep_join data in
  let w := emit (EvPost payload) w in
  match http_post o payload with
  | Raise e => (Raise e, w)
  | Return resp =>
      if ((status_code resp =? 200) || (status_code resp =? 201))%Z
      then
        match resp_json resp with
        | Raise e => (Raise e, w)
        | Return j =>
            match json_subscript j "data" with
            | Raise e => (Raise e, w)
            | Return d =>
                match json_subscript d "ids_of_new_traits" with
                | Raise e => (Raise e, w)
                | Return ids => (Return (Some ids), w)
                end
            end
        end
      else
        match raise_for_status resp with
        | Raise e => (Raise e, w)
        | Return _ => (Return None, w)
        end
  end.

(** ** Strings the way Python handles them *)

Definition chars (s : string) : list ascii := list_ascii_of_string s.
Definition text (cs : list ascii) : string := string_of_list_ascii cs.

(** [s.replace(old, new)] for one-character [old] and [new]. *)
Definition replace_char (old new : ascii) (s : string) : string :=
  text (map (fun c => if Ascii.eqb c old then new else c) (chars s)).

(** The text is ASCII: every character is below 128. *)
Definition is_ascii (s : string) : bool :=
  forallb (fun c => (nat_of_ascii c <? 128)%nat) (chars s).

(** White space as [str.strip()] sees it, within ASCII. *)
Definition is_space (c : ascii) : bool :=
  let n := nat_of_ascii c in
  ((9 <=? n) && (n <=? 13) || (28 <=? n) && (n <=? 32))%nat.

Fixpoint lstrip_chars (cs : list ascii) : list ascii :=
  match cs with
  | c :: cs' => if is_space c then lstrip_chars cs' else cs
  | [] => []
  end.

(** [s.strip()] of an ASCII text. *)
Definition strip (s : string) : string :=
  text (rev (lstrip_chars (rev (lstrip_chars (chars s))))).

(** [s.lower()] of an ASCII text. *)
Definition lower_char (c : ascii) : ascii :=
  let n := nat_of_ascii c in
  if ((65 <=? n) && (n <=? 90))%nat then ascii_of_nat (n + 32) else c.

Definition lower (s : string) : string := text (map lower_char (chars s)).

(** [c in s] for a one-character [c]. *)
Definition contains_char (c : ascii) (s : string) : bool :=
  existsb (Ascii.eqb c) (chars s).

(** [s.split(sep)] for a one-character separator. *)
Fixpoint split_chars (sep : ascii) (cur : list ascii) (cs : list ascii)
  : list string :=
  match cs with
  | [] => [text (rev cur)]
  | c :: cs =>
      if Ascii.eqb c sep
      then text (rev cur) :: split_chars sep [] cs
      else split_chars sep (c :: cur) cs
  end.

Definition split (sep : ascii) (s : string) : list string :=
  split_chars sep [] (chars s).

(** [s.find(c)]: the first index of [c], or -1. *)
Fixpoint find_from (c : ascii) (i : Z) (cs : list ascii) : Z :=
  match cs with
  | [] => (-1)%Z
  | c' :: cs => if Ascii.eqb c' c then i else find_from c (i + 1)%Z cs
  end.

Definition find (c : ascii) (s : string) : Z := find_from c 0%Z (chars s).

(** [s.rfind(c)]: the last index of [c], or -1. *)
Fixpoint rfind_from (c : ascii) (i : Z) (cs : list ascii) (best : Z) : Z :=
  match cs with
  | [] => best
  | c' :: cs =>
      rfind_from c (i + 1)%Z cs (if Ascii.eqb c' c then i else best)
  end.

Definition rfind (c : ascii) (s : string) : Z :=
  rfind_from c 0%Z (chars s) (-1)%Z.

(** [s[0:stop]] for a non-negative [stop]. *)
Definition slice_to (stop : Z) (s : string) : string :=
  text (take (Z.to_nat stop) (chars s)).

(** [sep.join(items)] *)
Definition join (sep : string) (items : list string) : string :=
  String.concat sep items.

(** ** Configuration and module globals *)

(** The attributes of the [configuration] module the code reads. An
    attribute that need not be there is an [option]: the template of
    the module defines [EXTRACTOR_NAME] and none of the others. *)
Record configuration := Configuration {
  cfg_EXTRACTOR_NAME : string;
  CITATION_AUTHOR : option string;
  CITATION_TITLE : option string;
  CITATION_YEAR : option string;
  VARIABLE_NAMES : option string;
  METHOD_NAME : option string;
  NEVER_WRITE_BETYDB : option bool;
  NEVER_WRITE_CSV : option bool
}.

Record globals := Globals {
  EXTRACTOR_NAME : option string;
  SENSOR_NAME : option string;
  TRAIT_NAME_ARRAY_VALUE : list string;
  TRAIT_NAME_MAP : gmap string string;
  FIELD_NAME_LIST : option (list string)
}.

(** The module as it is right after import. *)
Definition initial_globals : globals :=
  Globals None None
    ["site"]
    (<["access_level" := "2"]>
     (<["species" := "Unknown"]>
      (<["citation_author" := "Unknown"]>
       (<["citation_year" := "Unknown"]>
        (<["citation_title" := "Unknown"]>
         (<["method" := ""]> ∅))))))
    None.

(** ** [init_extraction] *)

(** [name.strip().replace(' ', '_').replace('\t', '_').replace('\n', '_')
    .replace('\r', '_').lower()], for an ASCII [name]. *)
Definition sensor_name_of (name : string) : string :=
  lower (replace_char "013"%char "_"%char
          (replace_char "010"%char "_"%char
            (replace_char "009"%char "_"%char
              (replace_char " "%char "_"%char (strip name))))).

(** The globals are assigned one after the other: an exception leaves
    the assignments made before it. Reading an attribute the
    [configuration] module does not define raises [AttributeError]. *)
Definition init_extraction (cfg : configuration) (name method_name : option string)
  (g : globals) : outcome unit * globals :=
  if negb (str_truthy name)
  then (Raise (RuntimeError "Invalid name parameter passed to init_extraction"), g)
  else
    let name := default "" name in
    let sensor := sensor_name_of name in
    match TRAIT_NAME_ARRAY_VALUE g with
    | [] =>
        (Raise (OtherException "IndexError"),
         Globals (Some name) (Some sensor) [] (TRAIT_NAME_MAP g)
                 (FIELD_NAME_LIST g))
    | _ :: _ =>
        let array_value := <[0%nat := sensor]> (TRAIT_NAME_ARRAY_VALUE g) in
        let missing (m : gmap string string) :=
          (Raise (OtherException "AttributeError"),
           Globals (Some name) (Some sensor) array_value m (FIELD_NAME_LIST g)) in
        let m := TRAIT_NAME_MAP g in
        match CITATION_AUTHOR cfg with
        | None => missing m
        | Some author =>
            let m := <["citation_author" := author]> m in
            match CITATION_TITLE cfg with
            | None => missing m
            | Some title =>
                let m := <["citation_title" := title]> m in
                match CITATION_YEAR cfg with
                | None => missing m
                | Some year =>
                    let m := <["citation_year" := year]> m in
                    let m := if str_truthy method_name
                             then <["method_name" := default "" method_name]> m
                             else m in
                    match VARIABLE_NAMES cfg with
                    | None => missing m
                    | Some variable_names =>
                        let field_names :=
                          if contains_char ","%char variable_names
                          then split ","%char variable_names
                          else [variable_names] in
                        (Return tt,
                         Globals (Some name) (Some sensor) array_value m
                                 (Some field_names))
                    end
                end
            end
        end
    end.

(** ** The trait schema *)

(** A trait value: the empty list [get_default_trait] gives to an
    array-valued trait, or a string. *)
Inductive trait_value :=
| TraitEmptyList
| TraitStr (s : string).

(** [str(v)] *)
Definition trait_str (v : trait_value) : string :=
  match v with
  | TraitEmptyList => "[]"
  | TraitStr s => s
  end.

Definition get_bety_fields (g : globals) : outcome (list string) :=
  match FIELD_NAME_LIST g with
  | None => Raise (OtherException "TypeError")
  | Some field_names =>
      Return (["local_datetime"; "access_level"; "species"; "site";
               "citation_author"; "citation_year"; "citation_title";
               "method"] ++ field_names)%list
  end.

Definition get_default_trait (g : globals) (trait_name : string)
  : trait_value :=
  if existsb (String.eqb trait_name) (TRAIT_NAME_ARRAY_VALUE g)
  then TraitEmptyList
  else match TRAIT_NAME_MAP g !! trait_name with
       | Some v => TraitStr v
       | None => TraitStr ""
       end.

Definition get_bety_traits_table (g : globals)
  : outcome (list string * gmap string trait_value) :=
  match get_bety_fields g with
  | Raise e => Raise e
  | Return fields =>
      Return (fields,
              fold_left (fun traits field_name =>
                           <[field_name := get_default_trait g field_name]> traits)
                        fields ∅)
  end.

Definition generate_traits_list (g : globals) (fields : list string)
  (traits : gmap string trait_value) : list trait_value :=
  map (fun field_name =>
         match traits !! field_name with
         | Some v => v
         | None => get_default_trait g field_name
         end) fields.

(** ** [load_image_files] *)

(** [a != b] on floats: true as soon as one side is NaN. *)
Definition float_ne (a b : coord) : bool :=
  match a, b with
  | Num x, Num y => negb (Qeq_bool x y)
  | _, _ => true
  end.

(** [np.nan] *)
Definition np_nan : coord := NaN.

(** An OGR polygon: its linear rings, each a list of (x, y) points in the
    order they were added, and the spatial reference assigned to it. *)
Record polygon := Polygon {
  rings : list (list (coord * coord));
  spatial_reference : option Z
}.

(** A dict in insertion order: assigning to a key that is there keeps its
    place. *)
Fixpoint dict_set {V : Type} (key : string) (v : V) (d : list (string * V))
  : list (string * V) :=
  match d with
  | [] => [(key, v)]
  | (k, v') :: d =>
      if String.eqb k key then (k, v) :: d else (k, v') :: dict_set key v d
  end.

(** [str(n)] for an integer. *)
Definition str_of_Z (n : Z) : string := NilZero.string_of_int (Z.to_int n).

(** The ring built from the bounds of one file. *)
Definition bounds_ring (b : geobounds) : list (coord * coord) :=
  [ (min_x b, max_y b);     (* Upper left *)
    (max_x b, max_y b);     (* Upper right *)
    (max_x b, min_y b);     (* lower right *)
    (min_x b, min_y b);     (* lower left *)
    (min_x b, max_y b) ].   (* Closing the polygon *)

(** The [for onefile in files] loop over what is left of [files]; the
    value stored under a file name is the polygon of its ['bounds'] entry. *)
Fixpoint load_image_loop (o : oracle) (files : list string)
  (imagefiles : list (string * polygon)) : outcome (list (string * polygon)) :=
  match files with
  | [] => Return imagefiles
  | onefile :: files =>
      let bounds := image_get_geobounds o onefile in
      let epsg := get_epsg o onefile in
      if float_ne (min_y bounds) np_nan
      then
        let ring := bounds_ring bounds in
        match epsg with
        | Some code =>
            if import_from_epsg o code
            then load_image_loop o files
                   (dict_set onefile (Polygon [ring] (Some code)) imagefiles)
            else Raise (RuntimeError ("Failed to import EPSG " +:+ str_of_Z code
                                      +:+ " for image file " +:+ onefile))
        | None =>
            Raise (RuntimeError ("File is missing an EPSG code: " +:+ onefile))
        end
      else load_image_loop o files imagefiles
  end.

Definition load_image_files (o : oracle) (files : list string)
  : outcome (list (string * polygon)) :=
  load_image_loop o files [].

(** ** [load_metadata] *)

(** One turn of the [for one_file in files] loop: a file that raises is
    skipped, an empty mapping is not merged, any other mapping overwrites
    the keys it defines ([dict.update]). *)
Definition load_one_metadata (o : oracle) (new_metadata : gmap string json)
  (one_file : string) : gmap string json :=
  match json_load o one_file with
  | None => new_metadata
  | Some file_md =>
      if decide (file_md = ∅) then new_metadata else file_md ∪ new_metadata
  end.

Definition load_metadata (o : oracle) (files : list string)
  : gmap string json :=
  fold_left (load_one_metadata o) files ∅.

(** ** Paths *)

Fixpoint drop_leading (c : ascii) (cs : list ascii) : list ascii :=
  match cs with
  | c' :: cs' => if Ascii.eqb c' c then drop_leading c cs' else cs
  | [] => []
  end.

(** [s.rstrip('/')] *)
Definition rstrip_slash (s : string) : string :=
  text (rev (drop_leading "/"%char (rev (chars s)))).

(** [os.path.dirname(p)] (posixpath) *)
Definition dirname (p : string) : string :=
  let head := slice_to (rfind "/"%char p + 1) p in
  if negb (String.eqb head "") && negb (forallb (Ascii.eqb "/"%char) (chars head))
  then rstrip_slash head
  else head.

(** [os.path.join(a, b)] (posixpath) *)
Definition path_join (a b : string) : string :=
  match chars b with
  | "/"%char :: _ => b
  | _ =>
      if String.eqb a "" then b
      else match rev (chars a) with
           | "/"%char :: _ => a +:+ b
           | _ => a +:+ "/" +:+ b
           end
  end.

(** [os.path.splitext(p)[0]]: the part before the last dot of the last
    path component, unless that component has nothing but dots before it. *)
Definition splitext_root (p : string) : string :=
  let sep_index := rfind "/"%char p in
  let dot_index := rfind "."%char p in
  if (sep_index <? dot_index)%Z
  then
    let between :=
      take (Z.to_nat (dot_index - (sep_index + 1)))
           (drop (Z.to_nat (sep_index + 1)) (chars p)) in
    if existsb (fun c => negb (Ascii.eqb c "."%char)) between
    then slice_to dot_index p
    else p
  else p.

(** [__str_to_path]: spaces, colons, semi-colons, periods, commas,
    forward and backward slashes, single and double quotes, parentheses
    and curly braces become underscores. *)
Definition path_unsafe_chars : list ascii :=
  [" "; ":"; ";"; "."; ","; "/"; "\"; "'"; ascii_of_nat 34;
   "("; ")"; "{"; "}"]%char.

Definition __str_to_path (target : string) : string :=
  fold_left (fun return_str c => replace_char c "_"%char return_str)
            path_unsafe_chars target.

(** ** [process_files] *)

(** The local variables of [process_files] that change inside the loop over
    the loaded files. [values] is [None] as long as no statement has
    assigned it. *)
Record loop_state := LoopState {
  values : option (list string);
  bety_traits : gmap string trait_value;
  bety_rows : list string;
  calc_calls : list string;       (* the files [calculate] was called on *)
  loop_world : world
}.

(** "Convert to something iterable that's in the correct order": what
    [values] is bound to after the [if]/[elif] chain. A list or a tuple
    matches no branch, so [values] stays as it was. *)
Definition reconcile_shape (field_names : list string)
  (values : option (list string)) (calc_value : calc_value)
  : outcome (option (list string)) :=
  match calc_value with
  | CalcSet _ =>
      Raise (RuntimeError ("A 'set' type of data was returned and isn't supported. "
                           +:+ "Please use a list or a tuple instead"))
  | CalcDict items =>
      Return (Some (omap (fun key => items !! key) field_names))
  | CalcList _ | CalcTuple _ => Return values
  | CalcScalar v => Return (Some [v])
  end.

(** The body of the inner [try] for one file. *)
Definition image_try (o : oracle) (g : globals) (field_names bety_fields : list string)
  (plot_name localtime : string) (create_csv_files store_in_betydb : bool)
  (filename : string) (st : loop_state) : outcome unit * loop_state :=
  if negb (read_pixels o filename)
  then (Raise (OtherException "gdal"), st)
  else
    let st := LoopState (values st) (bety_traits st) (bety_rows st)
                        (calc_calls st ++ [filename])%list (loop_world st) in
    match calculate o filename with
    | Raise e => (Raise e, st)
    | Return calc_value =>
        match reconcile_shape field_names (values st) calc_value with
        | Raise e => (Raise e, st)
        | Return new_values =>
            let st := LoopState new_values (bety_traits st) (bety_rows st)
                                (calc_calls st) (loop_world st) in
            match new_values with
            | None => (Raise (UnboundLocalError "values"), st)
            | Some vs =>
                let len_field_value := length field_names in
                let len_calc_value := length vs in
                if negb (len_calc_value =? len_field_value)%nat
                then (Raise (RuntimeError
                               ("Incorrect number of values returned. Expected "
                                +:+ str_of_Z (Z.of_nat len_field_value)
                                +:+ " and received "
                                +:+ str_of_Z (Z.of_nat len_calc_value))), st)
                else
                  let traits :=
                    fold_left (fun traits kv => <[kv.1 := TraitStr kv.2]> traits)
                              (zip field_names vs) (bety_traits st) in
                  let traits := <["site" := TraitStr plot_name]> traits in
                  let traits := <["local_datetime" := TraitStr localtime]> traits in
                  let trait_list := generate_traits_list g bety_fields traits in
                  let csv_data := join "," (map trait_str trait_list) in
                  let rows := if create_csv_files || store_in_betydb
                              then (bety_rows st ++ [csv_data])%list
                              else bety_rows st in
                  (Return tt,
                   LoopState new_values traits rows (calc_calls st) (loop_world st))
            end
        end
    end.

(** [for one_row in bety_rows: write_csv_file(out_csv, bety_csv_header, one_row)] *)
Fixpoint write_rows (o : oracle) (out_csv bety_csv_header : string)
  (rows : list string) (w : world) : outcome unit * world :=
  match rows with
  | [] => (Return tt, w)
  | one_row :: rows =>
      match write_csv_file o (Some out_csv) (Some bety_csv_header) (Some one_row) w with
      | (Raise e, w) => (Raise e, w)
      | (Return _, w) => write_rows o out_csv bety_csv_header rows w
      end
  end.

(** The sidecar [try]: the file is rewritten with the text, or, when the
    [try] raises, taken to be left as it was. *)
Definition write_sidecar (o : oracle) (metadata_file filename : string)
  (w : world) : world :=
  match sidecar_text o filename with
  | None => w
  | Some content =>
      World (<[metadata_file := content]> (files w)) (handles w)
            (RANDOM_GENERATOR w) (opens w) (writes w) (draws w) (sys_draws w)
            (trace w)
  end.

(** What follows the inner [try] when it did not raise, up to the
    "Only process the first file that's valid" test. *)
Definition image_output (o : oracle) (g : globals) (experiment_name : string)
  (bety_csv_header : string) (create_csv_files : bool) (filename : string)
  (st : loop_state) : outcome unit * loop_state :=
  if create_csv_files
  then
    match SENSOR_NAME g with
    | None => (Raise (OtherException "TypeError"), st)
    | Some sensor =>
        let out_csv := path_join (dirname filename)
                         (__str_to_path experiment_name +:+ "_" +:+ sensor +:+ ".csv") in
        let metadata_file := splitext_root out_csv +:+ ".json" in
        match write_rows o out_csv bety_csv_header (bety_rows st) (loop_world st) with
        | (Raise e, w) =>
            (Raise e, LoopState (values st) (bety_traits st) (bety_rows st)
                                (calc_calls st) w)
        | (Return _, w) =>
            (Return tt,
             LoopState (values st) (bety_traits st) (bety_rows st)
                       (calc_calls st) (write_sidecar o metadata_file filename w))
        end
    end
  else (Return tt, st).

(** The [for filename in loaded_files] loop over what is left of the file
    names. An exception in the inner [try] is caught and the loop goes on
    with the next file; after a file that went through, the loop stops
    when more than one file was loaded. *)
Fixpoint image_loop (o : oracle) (g : globals) (field_names bety_fields : list string)
  (experiment_name plot_name localtime bety_csv_header : string)
  (create_csv_files store_in_betydb : bool) (num_loaded_files : nat)
  (filenames : list string) (st : loop_state) : outcome unit * loop_state :=
  match filenames with
  | [] => (Return tt, st)
  | filename :: filenames =>
      match image_try o g field_names bety_fields plot_name localtime
                      create_csv_files store_in_betydb filename st with
      | (Raise _, st) =>
          image_loop o g field_names bety_fields experiment_name plot_name
                     localtime bety_csv_header create_csv_files store_in_betydb
                     num_loaded_files filenames st
      | (Return _, st) =>
          match image_output o g experiment_name bety_csv_header
                             create_csv_files filename st with
          | (Raise e, st) => (Raise e, st)
          | (Return _, st) =>
              if (1 <? num_loaded_files)%nat
              then (Return tt, st)
              else image_loop o g field_names bety_fields experiment_name
                              plot_name localtime bety_csv_header
                              create_csv_files store_in_betydb
                              num_loaded_files filenames st
          end
      end
  end.

(** "Get the best timestamp" *)
Definition local_time (timestamp : string) : string :=
  let timestamp := if negb (contains_char "T"%char timestamp)
                   then timestamp +:+ "T12:00:00" else timestamp in
  if ((0 <? find "T"%char timestamp) && (0 <? rfind "-"%char timestamp)
      && (find "T"%char timestamp <? rfind "-"%char timestamp))%Z
  then slice_to (rfind "-"%char timestamp) timestamp
  else timestamp.

(** What a run of [process_files] leaves behind. *)
Record run := Run {
  run_result : outcome unit;
  run_calls : list string;                (* the files [calculate] was called on *)
  run_rows : list string;                 (* [bety_rows] *)
  run_traits : gmap string trait_value;   (* [bety_traits] *)
  run_world : world
}.

(** "Intialize data writing overrides": [True] when the configuration has
    no such attribute, its negation otherwise. *)
Definition store_in_betydb_of (cfg : configuration) : bool :=
  match NEVER_WRITE_BETYDB cfg with None => true | Some b => negb b end.

Definition create_csv_files_of (cfg : configuration) : bool :=
  match NEVER_WRITE_CSV cfg with None => true | Some b => negb b end.

Definition process_files (o : oracle) (cfg : configuration) (g : globals)
  (germplasm_name experiment_name timestamp plot_name : string)
  (images_list metadata_list : list string) (w : world) : run :=
  let store_in_betydb := store_in_betydb_of cfg in
  let create_csv_files := create_csv_files_of cfg in
  match load_image_files o images_list with
  | Raise e => Run (Raise e) [] [] ∅ w
  | Return loaded_files =>
      let num_loaded_files := length loaded_files in
      if (num_loaded_files <=? 0)%nat
      then Run (Return tt) [] [] ∅ w
      else
        let metadata := load_metadata o metadata_list in
        let localtime := local_time timestamp in
        match get_bety_traits_table g, FIELD_NAME_LIST g with
        | Raise e, _ => Run (Raise e) [] [] ∅ w
        | _, None => Run (Raise (OtherException "TypeError")) [] [] ∅ w
        | Return (bety_fields, default_traits), Some field_names =>
            let seeded_traits :=
              <["species" := TraitStr germplasm_name]> default_traits in
            let bety_csv_header := join "," bety_fields in
            let '(r, st) :=
              image_loop o g field_names bety_fields experiment_name plot_name
                         localtime bety_csv_header create_csv_files
                         store_in_betydb num_loaded_files
                         (map fst loaded_files)
                         (LoopState None seeded_traits [] [] w) in
            match r with
            | Raise e =>
                Run (Raise e) (calc_calls st) (bety_rows st) (bety_traits st)
                    (loop_world st)
            | Return _ =>
                if store_in_betydb
                then
                  match bety_rows st with
                  | [] => Run (Return tt) (calc_calls st) (bety_rows st)
                              (bety_traits st) (loop_world st)
                  | _ :: _ =>
                      let '(u, w) := update_betydb o bety_csv_header
                                       (bety_rows st) (loop_world st) in
                      Run (match u with Raise e => Raise e | Return _ => Return tt end)
                          (calc_calls st) (bety_rows st) (bety_traits st) w
                  end
                else Run (Return tt) (calc_calls st) (bety_rows st)
                         (bety_traits st) (loop_world st)
            end
        end
  end.

(** ** Vocabulary of the statements *)

(** [values] holds nothing the sanity check of [process_files] accepts: it
    is unassigned, or its length is not the number of variable fields. *)
Definition stale (n : nat) (values : option (list string)) : Prop :=
  match values with
  | None => True
  | Some vs => length vs <> n
  end.

(** The result of the algorithm is a dict or a single value. *)
Definition dict_or_scalar (r : outcome calc_value) : Prop :=
  match r with
  | Return (CalcDict _) | Return (CalcScalar _) => True
  | _ => False
  end.

(** The files the inner [try] of [process_files] lets through while no
    earlier file went through: a readable image for which the algorithm
    returns a dict with every variable field, or a single value when
    there is one variable field. *)
Definition usable_result (field_names : list string) (r : outcome calc_value)
  : bool :=
  match r with
  | Return (CalcDict items) =>
      forallb (fun key => bool_decide (is_Some (items !! key))) field_names
  | Return (CalcScalar _) => (length field_names =? 1)%nat
  | _ => false
  end.

Definition goes_through (o : oracle) (field_names : list string)
  (filename : string) : bool :=
  read_pixels o filename && usable_result field_names (calculate o filename).

(** [a == b] on floats: false as soon as one side is NaN. *)
Definition float_eq (a b : coord) : bool := negb (float_ne a b).

(** The first point of a ring equals its last point, compared the way
    floats compare. *)
Definition ring_closed (ring : list (coord * coord)) : bool :=
  match head ring, last ring with
  | Some (x0, y0), Some (x1, y1) => float_eq x0 x1 && float_eq y0 y1
  | _, _ => false
  end.

(** A delay: a number from 0 to [MAX_FILE_OPEN_SLEEP_SEC]; as a float,
    zero or a positive float with a mantissa of at most [mant_dig]
    digits that is not above the maximum. *)
Definition float_delay (x : spec_float) : bool :=
  match x with
  | S754_zero _ => true
  | S754_finite false m e =>
      (Zdigits2 (Zpos m) <=? mant_dig)%Z
      && SFleb x (float_of_Z MAX_FILE_OPEN_SLEEP_SEC)
  | _ => false
  end.

Definition is_delay (n : number) : bool :=
  match n with
  | PyInt k => (0 <=? k)%Z && (k <=? MAX_FILE_OPEN_SLEEP_SEC)%Z
  | PyFloat x => float_delay x
  end.

(** Zero, or a positive float with at most [mant_dig] digits, an
    exponent of at most [E] and a value of at most [2^C]. *)
Definition bounded_float (E C : Z) (x : spec_float) : Prop :=
  match x with
  | S754_zero _ => True
  | S754_finite false m e =>
      (Zdigits2 (Zpos m) <= 53 /\ e <= E /\ Zpos m <= 2 ^ (C - e))%Z
  | _ => False
  end.

(** The points of a ring as numbers, when none of them is NaN. *)
Fixpoint numeric_ring (ring : list (coord * coord)) : option (list (Q * Q)) :=
  match ring with
  | [] => Some []
  | (Num x, Num y) :: ring =>
      match numeric_ring ring with
      | Some pts => Some ((x, y) :: pts)
      | None => None
      end
  | _ => None
  end.

(** Twice the signed area of a closed ring (the shoelace sum): negative
    for a clockwise ring when Y grows upwards. *)
Fixpoint signed_area2 (pts : list (Q * Q)) : Q :=
  match pts with
  | (x1, y1) :: (((x2, y2) :: _) as rest) =>
      (x1 * y2 - x2 * y1) + signed_area2 rest
  | _ => 0
  end.

(** The value the last mapping that defines [key] gives it. *)
Fixpoint last_defining_value (key : string) (mds : list (gmap string json))
  : option json :=
  match mds with
  | [] => None
  | md :: mds =>
      match last_defining_value key mds with
      | Some v => Some v
      | None => md !! key
      end
  end.

(** ** Example environments *)

Definition example_geobounds : geobounds :=
  Geobounds (Num 10) (Num 20) (Num 1) (Num 5).

Definition nan_geobounds : geobounds := Geobounds NaN NaN NaN NaN.

Definition ids_body : json :=
  JObj [("data", JObj [("ids_of_new_traits", JArr [JNum 1; JNum 2])])].

Definition a_json : gmap string json := {["k" := JNum 1; "a" := JStr "x"]}.
Definition b_json : gmap string json := {["k" := JNum 2]}.

(** The floats 0.5 and 0.25, as draws. *)
Definition half : unit_float :=
  UnitFloat (S754_finite false 4503599627370496 (-53)) eq_refl.

Definition quarter : unit_float :=
  UnitFloat (S754_finite false 4503599627370496 (-54)) eq_refl.

(** Every open and write succeeds, every draw is 0.5, BETYdb answers 201,
    every image is georeferenced and readable, the algorithm returns the
    scalar 0.42. *)
Definition example_oracle : oracle :=
  Oracle (fun _ => true) (fun _ => true) (fun _ => half) (fun _ => quarter)
    (fun _ => Return (Response 201 (Some ids_body)))
    (fun _ => example_geobounds) (fun _ => Some 4326%Z) (fun _ => true)
    (fun f => if String.eqb f "a.json" then Some a_json
              else if String.eqb f "b.json" then Some b_json
              else None)
    (fun _ => true) (fun _ => Return (CalcScalar "0.42")) (fun _ => Some "{}").

Definition with_post (o : oracle) (post : string -> outcome response) : oracle :=
  Oracle (open_ok o) (write_ok o) (random_random o) (system_random o) post
    (image_get_geobounds o) (get_epsg o) (import_from_epsg o) (json_load o)
    (read_pixels o) (calculate o) (sidecar_text o).

Definition with_geobounds (o : oracle) (b : string -> geobounds) : oracle :=
  Oracle (open_ok o) (write_ok o) (random_random o) (system_random o)
    (http_post o) b (get_epsg o) (import_from_epsg o) (json_load o)
    (read_pixels o) (calculate o) (sidecar_text o).

Definition with_get_epsg (o : oracle) (e : string -> option Z) : oracle :=
  Oracle (open_ok o) (write_ok o) (random_random o) (system_random o)
    (http_post o) (image_get_geobounds o) e (import_from_epsg o) (json_load o)
    (read_pixels o) (calculate o) (sidecar_text o).

Definition with_calculate (o : oracle) (c : string -> outcome calc_value) : oracle :=
  Oracle (open_ok o) (write_ok o) (random_random o) (system_random o)
    (http_post o) (image_get_geobounds o) (get_epsg o) (import_from_epsg o)
    (json_load o) (read_pixels o) c (sidecar_text o).

Definition empty_world : world := World ∅ [] GenNone 0 0 0 0 [].

(** BETYdb answers 202 Accepted. *)
Definition accepted_oracle : oracle :=
  with_post example_oracle (fun _ => Return (Response 202 None)).

(** The algorithm returns the one-element list [[0.42]]. *)
Definition list_oracle : oracle :=
  with_calculate example_oracle (fun _ => Return (CalcList ["0.42"])).

(** Every image has all-NaN bounds and an EPSG code. *)
Definition nan_oracle : oracle :=
  with_geobounds example_oracle (fun _ => nan_geobounds).

(** [plain.jpg] is not georeferenced: its bounds are NaN and it has no
    EPSG code. Every other image is georeferenced. *)
Definition plain_image_oracle : oracle :=
  with_get_epsg
    (with_geobounds example_oracle
       (fun f => if String.eqb f "plain.jpg" then nan_geobounds
                 else example_geobounds))
    (fun f => if String.eqb f "plain.jpg" then None else Some 4326%Z).

Definition example_configuration : configuration :=
  Configuration "canopycover" (Some "Doe, J.") (Some "Plot level traits")
    (Some "2020") (Some "canopy_cover") None None None.

(** The configuration as the template gives it, with a name filled in:
    no citation and no variable names. *)
Definition template_configuration : configuration :=
  Configuration "canopycover" None None None None None None None.

(** The module globals after [init_extraction("canopycover", None)]. *)
Definition example_globals : globals :=
  (init_extraction example_configuration (Some "canopycover") None
                   initial_globals).2.

Definition two_images : list string := ["d/a.tif"; "d/b.tif"].


(** ** Reading a trace *)

(** What a run of failed opens leaves in the trace: an open that fails
    and a sleep for each of [secs], then a last open that fails. *)
Definition failed_attempts (f : string) (secs : list number) : list event :=
  (flat_map (fun s => [EvOpen f false; EvSleep s]) secs ++ [EvOpen f false])%list.

(** The fields [get_bety_fields] puts before the variable fields. *)
Definition bety_fixed_fields : list string :=
  ["local_datetime"; "access_level"; "species"; "site"; "citation_author";
   "citation_year"; "citation_title"; "method"].

(** The text of a trait in a row: its value in [traits], or its default. *)
Definition trait_text (g : globals) (traits : gmap string trait_value)
  (field_name : string) : string :=
  trait_str (match traits !! field_name with
             | Some v => v
             | None => get_default_trait g field_name
             end).

(** ** [_get_plot_name] *)

(** [s.startswith(prefix)] on lists of characters. *)
Fixpoint starts_with (prefix cs : list ascii) : bool :=
  match prefix, cs with
  | [], _ => true
  | p :: prefix, c :: cs => Ascii.eqb p c && starts_with prefix cs
  | _ :: _, [] => false
  end.

(** [sub in s] *)
Fixpoint contains_chars (sub cs : list ascii) : bool :=
  starts_with sub cs ||
  match cs with
  | [] => false
  | _ :: cs' => contains_chars sub cs'
  end.

Definition contains (sub s : string) : bool :=
  contains_chars (chars sub) (chars s).

(** What is before the first occurrence of a non-empty [sep], and what is
    after it. *)
Fixpoint partition_chars (sep cs : list ascii)
  : option (list ascii * list ascii) :=
  match cs with
  | [] => None
  | c :: cs' =>
      if starts_with sep cs
      then Some ([], drop (length sep) cs)
      else match partition_chars sep cs' with
           | Some (before, after) => Some (c :: before, after)
           | None => None
           end
  end.

(** [s.split(sep)] for a non-empty [sep]: the text is cut at each
    occurrence of [sep], from the left. [fuel] bounds the number of cuts;
    the length of the text is enough. *)
Fixpoint split_chars_on (fuel : nat) (sep cs : list ascii) : list string :=
  match fuel with
  | O => [text cs]
  | S fuel =>
      match partition_chars sep cs with
      | None => [text cs]
      | Some (before, after) => text before :: split_chars_on fuel sep after
      end
  end.

Definition split_on (sep s : string) : list string :=
  split_chars_on (String.length s) (chars sep) (chars s).

(** [s[start:stop]] for [0 <= start <= stop]. *)
Definition slice (start stop : nat) (s : string) : string :=
  text (take (stop - start) (drop start (chars s))).

Definition plot_signature : string := "by plot".
Definition plot_separator : string := " - ".

(** [_get_plot_name(name)] for a list of names; a single string is the
    list of that one name. The offsets are taken in the lower-cased name
    and used in the name itself: for ASCII names, where [lower] keeps the
    length. *)
Fixpoint _get_plot_name (name : list string) : string :=
  match name with
  | [] => ""
  | one_name :: name =>
      let low_name := lower one_name in
      if contains plot_signature low_name
      then
        let parts := split_on plot_separator low_name in
        let parts_len := length parts in
        if (1 <? parts_len)%nat
        then
          let start_pos := (String.length (nth 0 parts "")
                            + String.length plot_separator)%nat in
          let end_pos := (start_pos + String.length (nth 1 parts ""))%nat in
          slice start_pos end_pos one_name
        else _get_plot_name name
      else _get_plot_name name
  end.

(** ** Finding the input files *)

(** What the code asks the file system, by path. *)
Record filesystem := Filesystem {
  path_exists : string -> bool;              (* os.path.exists *)
  path_isdir : string -> bool;               (* os.path.isdir *)
  path_isfile : string -> bool;              (* os.path.isfile *)
  listdir : string -> outcome (list string)  (* os.listdir *)
}.

(** The filename extensions of supported image types; must include
    leading period '.' *)
Definition KNOWN_IMAGE_EXTENSIONS : list string := [".tif"; ".tiif"; ".jpg"].

Definition startswith (prefix s : string) : bool :=
  starts_with (chars prefix) (chars s).

(** [s.endswith(suffix)] *)
Definition endswith (suffix s : string) : bool :=
  starts_with (rev (chars suffix)) (rev (chars s)).

(** [os.path.splitext(p)[1]]: from the last dot of the last path component
    on, unless that component has nothing but dots before it. *)
Definition splitext_ext (p : string) : string :=
  let sep_index := rfind "/"%char p in
  let dot_index := rfind "."%char p in
  if (sep_index <? dot_index)%Z
  then
    let between :=
      take (Z.to_nat (dot_index - (sep_index + 1)))
           (drop (Z.to_nat (sep_index + 1)) (chars p)) in
    if existsb (fun c => negb (Ascii.eqb c "."%char)) between
    then text (drop (Z.to_nat dot_index) (chars p))
    else ""
  else "".

(** [ext and ext in KNOWN_IMAGE_EXTENSIONS] *)
Definition known_image_extension (one_path : string) : bool :=
  let ext := splitext_ext one_path in
  negb (String.eqb ext "") && existsb (String.eqb ext) KNOWN_IMAGE_EXTENSIONS.

(** The three lists [__find_json_and_image_files] builds: image paths,
    metadata paths, unavailable files. *)
Definition found : Type := list string * list string * list string.

(** The loop of [__find_json_and_image_files] over what is left of
    [paths]; [recurse] is the function itself, for the folders. *)
Fixpoint find_loop (fs : filesystem) (recurse : list string -> outcome found)
  (paths : list string) (acc : found) : outcome found :=
  match paths with
  | [] => Return acc
  | one_path :: paths =>
      let '(image_paths, metadata_paths, unavailable_files) := acc in
      if endswith ".json" one_path
      then
        if path_exists fs one_path
        then find_loop fs recurse paths
               (image_paths, metadata_paths ++ [one_path], unavailable_files)%list
        else find_loop fs recurse paths
               (image_paths, metadata_paths, unavailable_files ++ [one_path])%list
      else
        if known_image_extension one_path
        then
          if path_exists fs one_path
          then find_loop fs recurse paths
                 (image_paths ++ [one_path], metadata_paths, unavailable_files)%list
          else find_loop fs recurse paths
                 (image_paths, metadata_paths, unavailable_files ++ [one_path])%list
        else if path_isdir fs one_path
        then
          match listdir fs one_path with
          | Raise e => Raise e
          | Return names =>
              match recurse (map (path_join one_path) names) with
              | Raise e => Raise e
              | Return (new_images, new_metadata, new_missing) =>
                  find_loop fs recurse paths
                    (image_paths ++ new_images, metadata_paths ++ new_metadata,
                     unavailable_files ++ new_missing)%list
              end
          end
        else find_loop fs recurse paths acc
  end.

(** [__find_json_and_image_files(paths)], with the number of calls the
    interpreter still allows on the stack: a call made when none is left
    raises [RecursionError]. A [paths] that is [None] behaves as the empty
    list. *)
Fixpoint __find_json_and_image_files (fs : filesystem) (depth : nat)
  (paths : list string) : outcome found :=
  match depth with
  | O => Raise (OtherException "RecursionError")
  | S depth =>
      find_loop fs (__find_json_and_image_files fs depth) paths ([], [], [])
  end.

(** [__do_initialization(argv)]: the tuple it returns and the module
    globals it leaves. *)
Definition __do_initialization (fs : filesystem) (depth : nat)
  (cfg : configuration) (argv : list string) (g : globals)
  : outcome (string * string * string * string * list string * list string)
    * globals :=
  let argv_len := length argv in
  if (argv_len <? 6)%nat
  then (Raise (RuntimeError
                 ("A germplasm name, experiment name, timestamp, plot name, and an image file "
                  +:+ "or folder must be specified")), g)
  else
    let arg_germplasm_name := nth 1 argv "" in
    let arg_experiment_name := nth 2 argv "" in
    let arg_timestamp := nth 3 argv "" in
    let arg_plotname := nth 4 argv "" in
    match __find_json_and_image_files fs depth (drop 5 argv) with
    | Raise e => (Raise e, g)
    | Return (image_paths, metadata_paths, unavailable_files) =>
        match image_paths with
        | [] => (Raise (RuntimeError "Image files must be specified"), g)
        | _ :: _ =>
            let method_name := METHOD_NAME cfg in
            match init_extraction cfg (Some (cfg_EXTRACTOR_NAME cfg)) method_name g with
            | (Raise e, g) => (Raise e, g)
            | (Return _, g) =>
                (Return (arg_germplasm_name, arg_experiment_name, arg_timestamp,
                         arg_plotname, image_paths, metadata_paths), g)
            end
        end
    end.

(** The folders below [paths] nest at most [n] deep, and each can be
    listed: what [__find_json_and_image_files] needs to return. *)
Fixpoint nesting_within (fs : filesystem) (n : nat) (paths : list string) : Prop :=
  Forall (fun one_path =>
            endswith ".json" one_path = false ->
            known_image_extension one_path = false ->
            path_isdir fs one_path = true ->
            match n with
            | O => False
            | S n =>
                exists names,
                  listdir fs one_path = Return names /\
                  nesting_within fs n (map (path_join one_path) names)
            end) paths.

(** What holds of the three lists: an image path has a known extension,
    is no [.json] path and exists; a metadata path ends in [.json] and
    exists; an unavailable file is a [.json] or image path that does not
    exist. *)
Definition classified (fs : filesystem) (r : found) : Prop :=
  let '(image_paths, metadata_paths, unavailable_files) := r in
  Forall (fun p => endswith ".json" p = false /\
                   known_image_extension p = true /\
                   path_exists fs p = true) image_paths /\
  Forall (fun p => endswith ".json" p = true /\ path_exists fs p = true)
         metadata_paths /\
  Forall (fun p => path_exists fs p = false /\
                   (endswith ".json" p = true \/ known_image_extension p = true))
         unavailable_files.

(** Where a path given to the loop ends up. *)
Definition placed (fs : filesystem) (p : string) (r : found) : Prop :=
  let '(image_paths, metadata_paths, unavailable_files) := r in
  (endswith ".json" p = true -> path_exists fs p = true -> p ∈ metadata_paths) /\
  (endswith ".json" p = false -> known_image_extension p = true ->
   path_exists fs p = true -> p ∈ image_paths) /\
  ((endswith ".json" p = true \/ known_image_extension p = true) ->
   path_exists fs p = false -> p ∈ unavailable_files).

(** A folder [plot] with an image, a metadata file, a text file and a
    [.tiff] image; nothing else exists. *)
Definition example_filesystem : filesystem :=
  Filesystem
    (fun p => existsb (String.eqb p)
                ["plot"; "plot/a.tif"; "plot/md.json"; "plot/notes.txt";
                 "plot/b.tiff"])
    (fun p => String.eqb p "plot")
    (fun p => existsb (String.eqb p)
                ["plot/a.tif"; "plot/md.json"; "plot/notes.txt"; "plot/b.tiff"])
    (fun p => if String.eqb p "plot"
              then Return ["a.tif"; "md.json"; "notes.txt"; "b.tiff"]
              else Raise (OtherException "NotADirectoryError")).

(** ** The geographic trait schema *)

Definition get_geo_fields : list string :=
  ["site"; "trait"; "lat"; "lon"; "dp_time"; "source"; "value"; "timestamp"].

Definition get_geo_traits_table : list string * gmap string trait_value :=
  let fields := get_geo_fields in
  (fields,
   fold_left (fun traits field_name => <[field_name := TraitStr ""]> traits)
             fields ∅).

(** ** The test script: [check_arguments] *)

(** What a script prints: a line on standard output ([print]), or a text
    written to standard error. *)
Inductive output :=
| Stdout (line : string)
| Stderr (message : string).

(** [os.path.basename(p)] (posixpath) *)
Definition basename (p : string) : string :=
  text (drop (Z.to_nat (rfind "/"%char p + 1)) (chars p)).

(** [print_usage()]; [module_file] is [__file__]. *)
Definition print_usage (module_file : string) (argv : list string)
  : list output :=
  let argc := length argv in
  let our_name := if (0 <? argc)%nat
                  then basename (nth 0 argv "")
                  else basename module_file in
  [Stdout (our_name +:+ " <folder>|<filename> ...");
   Stdout "    folder:   path to folder containing images to process";
   Stdout "    filename: path to an image file to process";
   Stdout "";
   Stdout "  One or more folders and/or filenames can be used";
   Stdout "  Only files at the top level of a folder are processed"].

(** [check_arguments()]: what it returns and what it prints. *)
Definition check_arguments (fs : filesystem) (module_file : string)
  (argv : list string) : bool * list output :=
  let argc := length argv in
  if (argc <? 2)%nat
  then
    (false,
     Stderr ("One or more paths to images need to be specified on the command line"
             +:+ newline)
     :: print_usage module_file argv)
  else
    let '(have_errors, printed) :=
      fold_left
        (fun '(have_errors, printed) idx =>
           if negb (path_exists fs (nth idx argv ""))
           then (true,
                 (printed
                  ++ [Stdout ("The following path doesn't exist: "
                              +:+ nth idx argv "")])%list)
           else (have_errors, printed))
        (seq 1 (argc - 1)) (false, []) in
    (negb have_errors,
     if have_errors
     then (printed
           ++ [Stderr ("Please correct any problems and try again" +:+ newline)])%list
     else printed).

(** ** The configuration script: [generate_info], [generate_dockerfile] *)

(** The settings of [configuration.py] that [do_config.py] reads. *)
Record extractor_settings := ExtractorSettings {
  set_EXTRACTOR_NAME : string;
  VERSION : string;
  DESCRIPTION : string;
  AUTHOR_NAME : string;
  AUTHOR_EMAIL : string;
  REPOSITORY : string
}.

(** The extractor information template to use *)
Definition BASE_CONFIG : list (string * json) :=
  [("@context", JStr "http://clowder.ncsa.illinois.edu/contexts/extractors.jsonld");
   ("name", JNull);
   ("version", JNull);
   ("description", JNull);
   ("author", JNull);
   ("contributors", JArr []);
   ("contexts", JArr []);
   ("repository", JObj [("repType", JStr "git"); ("repUrl", JNull)]);
   ("process", JObj [("dataset", JArr [JStr "file.added"])]);
   ("external_services", JArr []);
   ("dependencies", JArr []);
   ("bibtex", JArr [])].

(** The template file name for Dockerfile *)
Definition DOCKERFILE_TEMPLATE_FILE_NAME : string := "Dockerfile.template".

(** [if not value: missing.append(label)] *)
Definition note_missing (value label : string) (missing : list string)
  : list string :=
  if negb (str_truthy (Some value)) then (missing ++ [label])%list else missing.

Definition missing_message (missing : list string) : string :=
  "One or more configuration fields aren't defined in configuration.py: "
  +:+ join ", " missing.

(** [config['repository']['repUrl'] = url], when the value under
    ['repository'] is a dict. *)
Definition set_rep_url (url : string) (config : list (string * json))
  : outcome (list (string * json)) :=
  match assoc_last "repository" config with
  | None => Return config
  | Some (JObj repository) =>
      Return (dict_set "repository" (JObj (dict_set "repUrl" (JStr url) repository))
                       config)
  | Some _ => Raise (OtherException "TypeError")
  end.

(** [generate_info()]. [dumps] is [json.dumps(_, indent=4)]; the files
    are the ones of the current folder. *)
Definition generate_info (dumps : json -> string) (c : extractor_settings)
  (fs : gmap string string) : outcome unit * gmap string string :=
  let missing := [] in
  let missing := note_missing (set_EXTRACTOR_NAME c) "Extractor name" missing in
  let missing := note_missing (VERSION c) "Extractor version" missing in
  let missing := note_missing (DESCRIPTION c) "Extractor description" missing in
  let missing := note_missing (AUTHOR_NAME c) "Author name" missing in
  let missing := note_missing (AUTHOR_EMAIL c) "Author email" missing in
  let missing := note_missing (REPOSITORY c) "Repository" missing in
  match missing with
  | _ :: _ => (Raise (RuntimeError (missing_message missing)), fs)
  | [] =>
      let config := BASE_CONFIG in
      let config := dict_set "name" (JStr (set_EXTRACTOR_NAME c)) config in
      let config := dict_set "version" (JStr (VERSION c)) config in
      let config := dict_set "description" (JStr (DESCRIPTION c)) config in
      let config :=
        dict_set "author"
          (JStr (AUTHOR_NAME c +:+ " <" +:+ AUTHOR_EMAIL c +:+ ">")) config in
      match set_rep_url (REPOSITORY c) config with
      | Raise e => (Raise e, fs)
      | Return config =>
          (Return tt,
           <["extractor_info.json" := dumps (JObj config) +:+ newline]> fs)
      end
  end.

(** The lines a text file yields when iterated: each with its line feed,
    the last one without when the file does not end with one. *)
Fixpoint file_lines (cur cs : list ascii) : list string :=
  match cs with
  | [] => match cur with
          | [] => []
          | _ :: _ => [text (rev cur)]
          end
  | c :: cs =>
      if Ascii.eqb c "010"%char
      then text (rev (c :: cur)) :: file_lines [] cs
      else file_lines (c :: cur) cs
  end.

(** [line.rstrip('\n')] *)
Definition rstrip_newline (line : string) : string :=
  text (rev (drop_leading "010"%char (rev (chars line)))).

(** [line.lstrip()] of an ASCII text. *)
Definition lstrip (line : string) : string := text (lstrip_chars (chars line)).

(** [re.match(r"\s*", line).group()]: the white space the line starts
    with. *)
Fixpoint leading_space (cs : list ascii) : list ascii :=
  match cs with
  | c :: cs' => if is_space c then c :: leading_space cs' else []
  | [] => []
  end.

(** The double quote. *)
Definition dquote : string := String (ascii_of_nat 34) EmptyString.

(** The backslash. *)
Definition backslash : string := String (ascii_of_nat 92) EmptyString.

(** What [generate_dockerfile] writes for one line of the template, an
    ASCII text. *)
Definition dockerfile_line (c : extractor_settings) (extractor_name line : string)
  : string :=
  if startswith "MAINTAINER" line
  then "MAINTAINER " +:+ AUTHOR_NAME c +:+ " <" +:+ AUTHOR_EMAIL c +:+ ">"
       +:+ newline
  else if startswith "RABBITMQ_QUEUE" (lstrip line)
  then
    let white_space := text (leading_space (chars line)) in
    white_space +:+ "RABBITMQ_QUEUE=" +:+ dquote +:+ "terra.dronepipeline."
    +:+ extractor_name +:+ dquote +:+ " " +:+ backslash +:+ newline
  else line +:+ newline.

(** [generate_dockerfile()]; the text of each file is what reading it in
    text mode gives. *)
Definition generate_dockerfile (c : extractor_settings)
  (fs : gmap string string) : outcome unit * gmap string string :=
  let missing := [] in
  let missing := note_missing (set_EXTRACTOR_NAME c) "Extractor name" missing in
  let missing := note_missing (AUTHOR_NAME c) "Author name" missing in
  let missing := note_missing (AUTHOR_EMAIL c) "Author email" missing in
  match missing with
  | _ :: _ => (Raise (RuntimeError (missing_message missing)), fs)
  | [] =>
      let extractor_name := sensor_name_of (set_EXTRACTOR_NAME c) in
      match fs !! DOCKERFILE_TEMPLATE_FILE_NAME with
      | None => (Raise (OtherException "FileNotFoundError"), fs)
      | Some content =>
          let template := map rstrip_newline (file_lines [] (chars content)) in
          (Return tt,
           <["Dockerfile" :=
               String.concat "" (map (dockerfile_line c extractor_name) template)]> fs)
      end
  end.

Definition example_settings : extractor_settings :=
  ExtractorSettings "Canopy Cover" "1.0" "Canopy cover by plot" "J. Doe"
    "jdoe@example.org" "https://example.org/repo.git".

(** The CSV file [process_files] writes for an image: in the folder of the
    image, named after the experiment and the sensor. *)
Definition out_csv_path (experiment_name sensor filename : string) : string :=
  path_join (dirname filename)
            (__str_to_path experiment_name +:+ "_" +:+ sensor +:+ ".csv").

(** * Properties *)

(** ** Truthiness and strings *)

Lemma str_truthy_Some (s : string) : s <> "" -> str_truthy (Some s) = true.
Proof.
  intros H. unfold str_truthy. apply negb_true_iff, String.eqb_neq, H.
Qed.

Lemma str_truthy_false (s : option string) :
  str_truthy s = false <-> s = None \/ s = Some "".
Proof.
  destruct s as [s|]; simpl.
  - rewrite negb_false_iff, String.eqb_eq. split.
    + intros ->. now right.
    + intros [H|H]; congruence.
  - split; auto.
Qed.

Lemma append_assoc (a b c : string) : (a +:+ b) +:+ c = a +:+ (b +:+ c).
Proof.
  induction a as [|x a IH]; [reflexivity|].
  change (String x ((a +:+ b) +:+ c) = String x (a +:+ (b +:+ c))).
  now rewrite IH.
Qed.

Lemma length_zero_empty (c : string) : String.length c = 0%nat -> c = "".
Proof. destruct c; [reflexivity | discriminate]. Qed.

(** ** Binary64 arithmetic *)

Section Binary64.
Local Open Scope Z_scope.

Lemma digits2_pos_size (p : positive) : digits2_pos p = Pos.size p.
Proof. induction p as [p IH|p IH|]; cbn; now rewrite ?IH. Qed.

Lemma Zdigits2_log2 (m : Z) : (0 < m) -> Zdigits2 m = Z.succ (Z.log2 m).
Proof.
  destruct m as [|p|p]; try lia. intros _. cbn [Zdigits2].
  rewrite digits2_pos_size. destruct p; cbn; lia.
Qed.

Lemma Zdigits2_nonneg (m : Z) : (0 <= Zdigits2 m).
Proof. destruct m; cbn; lia. Qed.

(** [m] has at most [k] binary digits exactly when it is below [2^k]. *)
Lemma Zdigits2_le (m k : Z) :
  (0 <= m) -> (0 <= k) -> (Zdigits2 m <= k <-> m < 2 ^ k).
Proof.
  intros Hm Hk. destruct (Z.eq_dec m 0) as [->|Hne].
  - cbn. split; [intros _; now apply Z.pow_pos_nonneg | lia].
  - rewrite Zdigits2_log2 by lia. rewrite Z.log2_lt_pow2 by lia. lia.
Qed.

Lemma Zdigits2_lower (m : Z) : (0 < m) -> (2 ^ (Zdigits2 m - 1) <= m).
Proof.
  intros Hm. rewrite Zdigits2_log2 by lia.
  replace (Z.succ (Z.log2 m) - 1) with (Z.log2 m) by lia.
  now apply Z.log2_spec.
Qed.

Lemma shr_1_spec (mrs : shr_record) :
  (0 <= shr_m mrs) ->
  shr_m (shr_1 mrs) = Z.shiftr (shr_m mrs) 1 /\
  shr_r (shr_1 mrs) = Z.testbit (shr_m mrs) 0.
Proof.
  destruct mrs as [m r s]. cbn [shr_m]. intros Hm.
  destruct m as [|[p|p|]|p]; try lia; cbn; auto.
Qed.

Lemma iter_shr_1 (p : positive) : forall mrs : shr_record,
  (0 <= shr_m mrs) ->
  shr_m (SpecFloat.iter_pos shr_1 p mrs) = Z.shiftr (shr_m mrs) (Zpos p) /\
  shr_r (SpecFloat.iter_pos shr_1 p mrs) = Z.testbit (shr_m mrs) (Zpos p - 1).
Proof.
  induction p as [p IH|p IH|]; intros mrs Hm; cbn [SpecFloat.iter_pos].
  - destruct (shr_1_spec mrs Hm) as [H1 H1r].
    assert (H1n : (0 <= shr_m (shr_1 mrs)))
      by (rewrite H1; now apply Z.shiftr_nonneg).
    destruct (IH (shr_1 mrs) H1n) as [H2 _].
    assert (H2n : (0 <= shr_m (SpecFloat.iter_pos shr_1 p (shr_1 mrs))))
      by (rewrite H2; now apply Z.shiftr_nonneg).
    destruct (IH _ H2n) as [H3 H3r]. split.
    + rewrite H3, H2, H1, !Z.shiftr_shiftr by lia. f_equal. lia.
    + rewrite H3r, H2, H1, !Z.shiftr_spec by lia. f_equal. lia.
  - destruct (IH mrs Hm) as [H2 _].
    assert (H2n : (0 <= shr_m (SpecFloat.iter_pos shr_1 p mrs)))
      by (rewrite H2; now apply Z.shiftr_nonneg).
    destruct (IH _ H2n) as [H3 H3r]. split.
    + rewrite H3, H2, !Z.shiftr_shiftr by lia. f_equal. lia.
    + rewrite H3r, H2, !Z.shiftr_spec by lia. f_equal. lia.
  - apply shr_1_spec, Hm.
Qed.

Lemma fexp_unfold (x : Z) :
  fexp mant_dig max_exp x = Z.max (x - 53) (-1074).
Proof. reflexivity. Qed.

Lemma shr_m_of_loc (m : Z) (l : location) : shr_m (shr_record_of_loc m l) = m.
Proof. now destruct l as [|[]]. Qed.

Lemma loc_of_shr_record_of_loc (m : Z) (l : location) :
  loc_of_shr_record (shr_record_of_loc m l) = l.
Proof. now destruct l as [|[]]. Qed.

(** One normalisation step: the digits that do not fit are shifted out. *)
Lemma shr_fexp_spec (m e : Z) (l : location) :
  (0 <= m) ->
  let n := (fexp mant_dig max_exp (Zdigits2 m + e) - e) in
  ((n <= 0) ->
   shr_fexp mant_dig max_exp m e l = (shr_record_of_loc m l, e)) /\
  ((0 < n) ->
   exists mrs, shr_fexp mant_dig max_exp m e l = (mrs, (e + n)) /\
               shr_m mrs = Z.shiftr m n /\ shr_r mrs = Z.testbit m (n - 1)).
Proof.
  intros Hm n. unfold shr_fexp. fold n. split; intros Hn.
  - unfold shr. destruct n; try lia; reflexivity.
  - unfold shr. destruct n as [|p|p]; try lia.
    eexists. split; [reflexivity|].
    rewrite <- (shr_m_of_loc m l) at 2 4.
    apply iter_shr_1. now rewrite shr_m_of_loc.
Qed.

Lemma round_nearest_even_range (m : Z) (l : location) :
  round_nearest_even m l = m \/ round_nearest_even m l = (m + 1).
Proof. destruct l as [|[]]; cbn; auto. destruct (Z.even m); auto. Qed.

Lemma round_nearest_even_down (mrs : shr_record) :
  shr_r mrs = false ->
  round_nearest_even (shr_m mrs) (loc_of_shr_record mrs) = shr_m mrs.
Proof. destruct mrs as [m [] []]; cbn; congruence. Qed.

Lemma pow2_pos (k : Z) : 0 <= k -> 0 < 2 ^ k.
Proof. intros. now apply Z.pow_pos_nonneg. Qed.

(** The second normalisation of [binary_round_aux], after the rounding:
    one more digit is dropped when the rounding carried into a new one. *)
Lemma binary_round_second (s : bool) (m1 e1 M : Z) :
  0 <= m1 -> -1074 <= e1 -> m1 <= 2 ^ (M - e1) -> M - e1 <= 53 ->
  match (let '(mrs, e2) := shr_fexp mant_dig max_exp m1 e1 loc_Exact in
         match shr_m mrs with
         | Z0 => S754_zero s
         | Zpos m2 => if e2 <=? max_exp - mant_dig
                      then S754_finite s m2 e2 else S754_infinity s
         | Zneg _ => S754_nan
         end) with
  | S754_zero s' => s' = s
  | S754_infinity s' => s' = s /\ 971 <= e1
  | S754_nan => False
  | S754_finite s' m2 e2 =>
      s' = s /\ Zdigits2 (Zpos m2) <= 53 /\ e2 <= 971 /\ e1 <= e2 <= e1 + 1 /\
      Zpos m2 <= 2 ^ (M - e2) /\ e2 <= M
  end.
Proof.
  intros Hm He Hcap HM.
  assert (Hd : Zdigits2 m1 <= 54).
  { apply Zdigits2_le; [lia..|].
    destruct (Z_lt_le_dec (M - e1) 0) as [Hneg|Hpos].
    - rewrite Z.pow_neg_r in Hcap by lia. lia.
    - assert (2 ^ (M - e1) <= 2 ^ 53) by (apply Z.pow_le_mono_r; lia). lia. }
  destruct (shr_fexp_spec m1 e1 loc_Exact Hm) as [HA HB].
  rewrite fexp_unfold in HA, HB.
  destruct (Z_le_gt_dec (Z.max (Zdigits2 m1 + e1 - 53) (-1074) - e1) 0) as [Hn|Hn].
  - rewrite (HA Hn). cbn [shr_record_of_loc shr_m].
    destruct m1 as [|p|p]; [reflexivity| |lia].
    assert (HMe : e1 <= M).
    { destruct (Z_lt_le_dec (M - e1) 0) as [Hneg|Hpos]; [|lia].
      rewrite Z.pow_neg_r in Hcap by lia. lia. }
    change (max_exp - mant_dig) with 971.
    destruct (Z.leb_spec e1 971); [|split; [reflexivity|lia]].
    repeat split; try lia.
  - destruct (HB ltac:(lia)) as (mrs & -> & Hs & _).
    assert (Hd54 : Zdigits2 m1 = 54) by lia.
    assert (Hpos : 0 < m1) by (destruct m1; cbn in Hd54; lia).
    pose proof (Zdigits2_lower m1 Hpos) as Hlow. rewrite Hd54 in Hlow.
    assert (HMe : M - e1 = 53).
    { destruct (Z_lt_le_dec (M - e1) 53) as [Hlt|]; [|lia].
      assert (2 ^ (M - e1) < 2 ^ 53).
      { destruct (Z_lt_le_dec (M - e1) 0) as [Hneg|Hnn].
        - rewrite Z.pow_neg_r by lia. reflexivity.
        - apply Z.pow_lt_mono_r; lia. }
      change (54 - 1) with 53 in Hlow. lia. }
    rewrite HMe in Hcap. change (54 - 1) with 53 in Hlow.
    assert (Em : m1 = 2 ^ 53) by lia. subst m1.
    rewrite Hd54 in *. 
    replace (Z.max (54 + e1 - 53) (-1074) - e1) with 1 in * by lia.
    rewrite Hs. change (Z.shiftr (2 ^ 53) 1) with 4503599627370496.
    change (max_exp - mant_dig) with 971.
    destruct (Z.leb_spec (e1 + 1) 971); [|split; [reflexivity|lia]].
    split; [reflexivity|]. split; [cbn; lia|]. split; [lia|]. split; [lia|].
    replace (M - (e1 + 1)) with 52 by lia. split; [cbn; lia|lia].
Qed.

(** What [binary_round_aux] gives for a mantissa that is not negative:
    never a NaN, at most [mant_dig] digits, an exponent within one of the
    exponent the magnitude of the input asks for, and a value that does
    not exceed the power of two above the input. *)
Lemma binary_round_aux_spec (s : bool) (m e : Z) (l : location) :
  0 <= m ->
  let M := Zdigits2 m + e in
  let E := Z.max (Z.max e (M - 53)) (-1074) in
  match binary_round_aux mant_dig max_exp s m e l with
  | S754_zero s' => s' = s
  | S754_infinity s' => s' = s /\ 971 <= E
  | S754_nan => False
  | S754_finite s' m2 e2 =>
      s' = s /\ Zdigits2 (Zpos m2) <= 53 /\ e2 <= 971 /\ E <= e2 <= E + 1 /\
      Zpos m2 <= 2 ^ (M - e2) /\ e2 <= M
  end.
Proof.
  intros Hm M E. unfold binary_round_aux.
  pose proof (Zdigits2_nonneg m) as Hd0.
  assert (Hlt : m < 2 ^ Zdigits2 m) by (apply Zdigits2_le; lia).
  destruct (shr_fexp_spec m e l Hm) as [HA HB].
  rewrite fexp_unfold in HA, HB. fold M in HA, HB.
  destruct (Z_le_gt_dec (Z.max (M - 53) (-1074) - e) 0) as [Hn|Hn].
  - rewrite (HA Hn). rewrite loc_of_shr_record_of_loc, shr_m_of_loc.
    assert (HE : E = e) by (unfold E; lia). rewrite HE.
    apply binary_round_second.
    + destruct (round_nearest_even_range m l) as [-> | ->]; lia.
    + lia.
    + replace (M - e) with (Zdigits2 m) by (unfold M; lia).
      destruct (round_nearest_even_range m l) as [-> | ->]; lia.
    + lia.
  - destruct (HB ltac:(lia)) as (mrs & -> & Hs & Hr).
    set (n := Z.max (M - 53) (-1074) - e) in *.
    assert (HE : E = e + n) by (unfold E, n; lia). rewrite HE.
    assert (Hs0 : 0 <= shr_m mrs) by (rewrite Hs; now apply Z.shiftr_nonneg).
    destruct (Z_lt_le_dec (Zdigits2 m) n) as [Hsmall|Hbig].
    + assert (Hz : shr_m mrs = 0).
      { rewrite Hs, Z.shiftr_div_pow2 by lia. apply Z.div_small. split; [lia|].
        eapply Z.lt_le_trans; [exact Hlt|]. apply Z.pow_le_mono_r; lia. }
      assert (Hrf : shr_r mrs = false).
      { rewrite Hr. destruct (Z.eq_dec m 0) as [->|Hne]; [apply Z.bits_0|].
        apply Z.bits_above_log2; [lia|].
        rewrite Zdigits2_log2 in Hsmall by lia. lia. }
      rewrite (round_nearest_even_down mrs Hrf), Hz.
      apply binary_round_second;
        [lia | unfold n; lia | apply Z.pow_nonneg; lia | unfold n, M; lia].
    + assert (Hm1 : shr_m mrs < 2 ^ (Zdigits2 m - n)).
      { rewrite Hs, Z.shiftr_div_pow2 by lia.
        apply Z.div_lt_upper_bound; [apply pow2_pos; lia|].
        rewrite <- Z.pow_add_r by lia.
        now replace (n + (Zdigits2 m - n)) with (Zdigits2 m) by lia. }
      apply binary_round_second.
      * destruct (round_nearest_even_range (shr_m mrs) (loc_of_shr_record mrs))
          as [-> | ->]; lia.
      * unfold n. lia.
      * replace (M - (e + n)) with (Zdigits2 m - n) by (unfold M; lia).
        destruct (round_nearest_even_range (shr_m mrs) (loc_of_shr_record mrs))
          as [-> | ->]; lia.
      * unfold n, M. lia.
Qed.

Lemma bounded_float_weaken (E C E' C' : Z) (x : spec_float) :
  E <= E' -> C <= C' -> bounded_float E C x -> bounded_float E' C' x.
Proof.
  intros HE HC. destruct x as [| | |[] m e]; cbn; auto.
  intros (Hd & He & Hc). split; [exact Hd|]. split; [lia|].
  assert (0 <= C - e).
  { destruct (Z_lt_le_dec (C - e) 0); [|lia]. rewrite Z.pow_neg_r in Hc; lia. }
  etransitivity; [exact Hc|]. apply Z.pow_le_mono_r; lia.
Qed.

Lemma float_of_one : float_of_Z 1 = S754_finite false 4503599627370496 (-52).
Proof. vm_compute. reflexivity. Qed.

Lemma float_of_max_sleep :
  float_of_Z MAX_FILE_OPEN_SLEEP_SEC = S754_finite false 8444249301319680 (-48).
Proof. vm_compute. reflexivity. Qed.

(** A draw is zero or a positive float below 1. *)
Lemma in_unit_interval_bounds (x : spec_float) :
  in_unit_interval x = true ->
  match x with
  | S754_zero _ => True
  | S754_finite s m e =>
      s = false /\ Zdigits2 (Zpos m) <= 53 /\ e <= -53 /\
      Zdigits2 (Zpos m) + e <= 0
  | _ => False
  end.
Proof.
  intros H. unfold in_unit_interval in H.
  rewrite float_of_one in H. apply andb_prop in H. destruct H as [H Hlt].
  apply andb_prop in H. destruct H as [Hv H0].
  destruct x as [s|s| |s m e]; [exact I|destruct s; discriminate|discriminate|].
  destruct s; [discriminate|]. split; [reflexivity|].
  cbn [valid_binary] in Hv. unfold bounded, canonical_mantissa in Hv.
  apply andb_prop in Hv. destruct Hv as [Hc _].
  apply Z.eqb_eq in Hc. rewrite fexp_unfold in Hc.
  change (Zpos (digits2_pos m)) with (Zdigits2 (Zpos m)) in Hc.
  unfold SFltb, SFcompare in Hlt.
  destruct (Z.compare_spec e (-52)) as [He|He|He]; [|lia|discriminate].
  subst e. exfalso.
  rewrite Pos.compare_cont_spec, Pos2Z.inj_compare in Hlt.
  destruct (Z.compare_spec (Zpos m) 4503599627370496) as [Hm|Hm|Hm];
    try discriminate.
  assert (Hd : Zdigits2 (Zpos m) <= 52).
  { apply Zdigits2_le; [lia..|]. change (2 ^ 52) with 4503599627370496. lia. }
  lia.
Qed.

Lemma bounded_float_cap (E C : Z) (m : positive) (e : Z) :
  bounded_float E C (S754_finite false m e) -> e <= C.
Proof.
  intros (_ & _ & Hc).
  destruct (Z_lt_le_dec (C - e) 0); [|lia]. rewrite Z.pow_neg_r in Hc; lia.
Qed.

(** The product with a positive float of magnitude below [2^My]. *)
Lemma fmul_bounded (Ex Cx Ey My : Z) (x : spec_float) (my : positive) (ey : Z) :
  bounded_float Ex Cx x ->
  Zdigits2 (Zpos my) <= 53 -> ey <= Ey -> Zdigits2 (Zpos my) + ey <= My ->
  Z.max (Z.max (Ex + Ey) (Cx + My - 53)) (-1074) < 971 ->
  bounded_float (Z.max (Z.max (Ex + Ey) (Cx + My - 53)) (-1074) + 1) (Cx + My)
                (fmul x (S754_finite false my ey)).
Proof.
  intros Hx Hdy Hey HMy Hfin.
  destruct x as [s|s| |[] mx ex]; try contradiction; [exact I|].
  pose proof (bounded_float_cap _ _ _ _ Hx) as Hcx.
  destruct Hx as (Hdx & Hex & Hcap).
  unfold fmul, SFmul. cbn [xorb].
  pose proof (binary_round_aux_spec false (Zpos (mx * my)) (ex + ey) loc_Exact
                ltac:(lia)) as H.
  cbv zeta in H.
  assert (Hd : Zdigits2 (Zpos (mx * my)) + (ex + ey) <= Cx + My).
  { assert (Zdigits2 (Zpos (mx * my)) <= Cx - ex + Zdigits2 (Zpos my)); [|lia].
    pose proof (Zdigits2_nonneg (Zpos my)).
    apply Zdigits2_le; [lia..|]. rewrite Z.pow_add_r by lia.
    assert (Zpos my < 2 ^ Zdigits2 (Zpos my)) by (apply Zdigits2_le; lia).
    rewrite Pos2Z.inj_mul. nia. }
  destruct (binary_round_aux mant_dig max_exp false (Zpos (mx * my)) (ex + ey)
              loc_Exact) as [s|s| |s m2 e2]; [exact I|lia|contradiction|].
  destruct H as (-> & Hd2 & _ & He2 & Hc2 & HM).
  split; [exact Hd2|]. split; [lia|].
  etransitivity; [exact Hc2|]. apply Z.pow_le_mono_r; lia.
Qed.

Lemma fmul_bounded_zero (E C E' C' : Z) (x : spec_float) (s : bool) :
  bounded_float E C x -> bounded_float E' C' (fmul x (S754_zero s)).
Proof. destruct x as [| | |[] m e]; cbn; auto. Qed.

(** The integer part of such a float. *)
Lemma math_trunc_bounded (E C : Z) (x : spec_float) :
  0 <= C -> bounded_float E C x ->
  exists k, math_trunc x = Return k /\ 0 <= k <= 2 ^ C.
Proof.
  intros HC Hx. destruct x as [s|s| |[] m e]; try contradiction.
  - exists 0. split; [reflexivity|]. split; [lia|]. apply Z.pow_nonneg. lia.
  - pose proof (bounded_float_cap _ _ _ _ Hx) as Hce.
    destruct Hx as (_ & _ & Hcap).
    eexists. split; [reflexivity|]. cbn [cond_Zopp]. split.
    + apply Z.shiftl_nonneg. lia.
    + destruct (Z_lt_le_dec e 0) as [Hneg|Hpos].
      * rewrite <- (Z.opp_involutive e), Z.shiftl_opp_r, Z.shiftr_div_pow2 by lia.
        apply Z.div_le_upper_bound; [apply pow2_pos; lia|].
        rewrite <- Z.pow_add_r by lia. now replace (- e + C) with (C - e) by lia.
      * rewrite Z.shiftl_mul_pow2 by lia.
        replace C with (C - e + e) at 1 by lia. rewrite Z.pow_add_r by lia.
        apply Z.mul_le_mono_nonneg_r; [apply Z.pow_nonneg; lia|exact Hcap].
Qed.

(** A float delay is at most 30: its exponent is at most that of 30. *)
Lemma float_delay_bounded (x : spec_float) :
  float_delay x = true -> bounded_float (-48) 5 x.
Proof.
  destruct x as [s|s| |[] m e]; try discriminate; [intros _; exact I|].
  cbn [float_delay]. intros H. apply andb_prop in H. destruct H as [Hd Hle].
  apply Z.leb_le in Hd. change mant_dig with 53 in Hd.
  rewrite float_of_max_sleep in Hle.
  unfold SFleb, SFcompare in Hle.
  assert (He : e <= -48)
    by (destruct (Z.compare_spec e (-48)); [lia|lia|discriminate]).
  split; [exact Hd|]. split; [exact He|].
  assert (Zpos m < 2 ^ 53) by (apply Zdigits2_le; lia).
  assert (2 ^ 53 <= 2 ^ (5 - e)) by (apply Z.pow_le_mono_r; lia). lia.
Qed.

Lemma float_of_hundred :
  float_of_Z 100 = S754_finite false 7036874417766400 (-46).
Proof. vm_compute. reflexivity. Qed.

(** A check made on every integer below [n] holds of each of them. *)
Lemma forallb_below (P : Z -> bool) (n : nat) :
  forallb P (map Z.of_nat (seq 0 n)) = true ->
  forall k, 0 <= k < Z.of_nat n -> P k = true.
Proof.
  intros H k Hk. rewrite forallb_forall in H. apply H.
  apply in_map_iff. exists (Z.to_nat k). split; [lia|].
  apply in_seq. lia.
Qed.

(** An integer delay converts to a float delay. *)
Lemma int_delay_float (k : Z) :
  0 <= k <= MAX_FILE_OPEN_SLEEP_SEC ->
  exists x, py_float (PyInt k) = Return x /\ float_delay x = true.
Proof.
  intros Hk.
  assert (H : match py_float (PyInt k) with
              | Return x => float_delay x
              | Raise _ => false
              end = true).
  { apply (forallb_below
             (fun k => match py_float (PyInt k) with
                       | Return x => float_delay x
                       | Raise _ => false
                       end) 31); [vm_compute; reflexivity|].
    unfold MAX_FILE_OPEN_SLEEP_SEC in Hk. lia. }
  destruct (py_float (PyInt k)) as [x|e]; [|discriminate]. now exists x.
Qed.

(** The tenth of an integer up to 4096 is a float that is above 30 or is
    a delay. *)
Lemma tenth_of_product (k : Z) :
  0 <= k <= 4096 ->
  exists sleep,
    py_truediv (PyInt k) (PyFloat (float_of_Z 10)) = Return sleep /\
    (SFltb (float_of_Z MAX_FILE_OPEN_SLEEP_SEC) sleep = false ->
     float_delay sleep = true).
Proof.
  intros Hk.
  assert (H : match py_truediv (PyInt k) (PyFloat (float_of_Z 10)) with
              | Return sleep =>
                  SFltb (float_of_Z MAX_FILE_OPEN_SLEEP_SEC) sleep
                  || float_delay sleep
              | Raise _ => false
              end = true).
  { apply (forallb_below
             (fun k => match py_truediv (PyInt k) (PyFloat (float_of_Z 10)) with
                       | Return sleep =>
                           SFltb (float_of_Z MAX_FILE_OPEN_SLEEP_SEC) sleep
                           || float_delay sleep
                       | Raise _ => false
                       end) 4097); [vm_compute; reflexivity|lia]. }
  destruct (py_truediv _ _) as [sleep|e]; [|discriminate].
  exists sleep. split; [reflexivity|]. intros Hs. now rewrite Hs in H.
Qed.

(** The tenth of an integer up to 128, or 0.1 when that is more, is a
    delay. *)
Lemma tenth_of_draw (j : Z) :
  0 <= j <= 128 ->
  exists x,
    py_truediv (PyInt j) (PyInt 10) = Return x /\
    float_delay (py_max one_tenth x) = true.
Proof.
  intros Hj.
  assert (H : match py_truediv (PyInt j) (PyInt 10) with
              | Return x => float_delay (py_max one_tenth x)
              | Raise _ => false
              end = true).
  { apply (forallb_below
             (fun j => match py_truediv (PyInt j) (PyInt 10) with
                       | Return x => float_delay (py_max one_tenth x)
                       | Raise _ => false
                       end) 129); [vm_compute; reflexivity|lia]. }
  destruct (py_truediv _ _) as [x|e]; [|discriminate]. now exists x.
Qed.

Lemma unit_float_bounded (u : unit_float) : bounded_float (-53) 0 (unit_value u).
Proof.
  pose proof (in_unit_interval_bounds _ (unit_range u)) as H.
  destruct (unit_value u) as [s|s| |s m e]; try contradiction; [exact I|].
  destruct H as (-> & Hd & He & HM). split; [exact Hd|]. split; [exact He|].
  pose proof (Zdigits2_nonneg (Zpos m)).
  apply Z.lt_le_incl.
  apply (Z.lt_le_trans _ (2 ^ Zdigits2 (Zpos m)));
    [apply Zdigits2_le; lia | apply Z.pow_le_mono_r; lia].
Qed.

(** The product of a bounded float and a draw. *)
Lemma fmul_draw (E C : Z) (x : spec_float) (u : unit_float) :
  bounded_float E C x ->
  Z.max (Z.max (E - 53) (C - 53)) (-1074) < 971 ->
  bounded_float (Z.max (Z.max (E - 53) (C - 53)) (-1074) + 1) C
                (fmul x (unit_value u)).
Proof.
  intros Hx Hfin.
  pose proof (in_unit_interval_bounds _ (unit_range u)) as H.
  destruct (unit_value u) as [s|s| |s m e]; try contradiction.
  - now apply (fmul_bounded_zero E C).
  - destruct H as (-> & Hd & He & HM).
    pose proof (fmul_bounded E C (-53) 0 x m e Hx Hd He HM) as Hp.
    replace (E + -53) with (E - 53) in Hp by lia.
    replace (C + 0 - 53) with (C - 53) in Hp by lia.
    replace (C + 0) with C in Hp by lia. now apply Hp.
Qed.

Lemma fmul_hundred (E C : Z) (x : spec_float) :
  bounded_float E C x ->
  Z.max (Z.max (E - 46) (C - 46)) (-1074) < 971 ->
  bounded_float (Z.max (Z.max (E - 46) (C - 46)) (-1074) + 1) (C + 7)
                (fmul x (float_of_Z 100)).
Proof.
  intros Hx Hfin. rewrite float_of_hundred.
  pose proof (fmul_bounded E C (-46) 7 x 7036874417766400 (-46) Hx
                ltac:(vm_compute; discriminate) ltac:(lia)
                ltac:(vm_compute; discriminate)) as Hp.
  replace (E + -46) with (E - 46) in Hp by lia.
  replace (C + 7 - 53) with (C - 46) in Hp by lia. now apply Hp.
Qed.

(** What the arithmetic of [_get_open_backoff] gives for a previous
    delay and a draw: no step raises, the tenth of the scaled product
    is a delay unless it is above the maximum, and the fresh delay that
    replaces it then is a delay. *)
Lemma backoff_arithmetic (prev : number) (u : unit_float) :
  is_delay prev = true ->
  exists x k sleep j fresh,
    py_float prev = Return x /\
    math_trunc (fmul (fmul x (unit_value u)) (float_of_Z 100)) = Return k /\
    py_truediv (PyInt k) (PyFloat (float_of_Z 10)) = Return sleep /\
    (SFltb (float_of_Z MAX_FILE_OPEN_SLEEP_SEC) sleep = false ->
     float_delay sleep = true) /\
    math_trunc (fmul (unit_value u) (float_of_Z 100)) = Return j /\
    py_truediv (PyInt j) (PyInt 10) = Return fresh /\
    float_delay (py_max one_tenth fresh) = true.
Proof.
  intros Hprev.
  assert (Hx : exists x, py_float prev = Return x /\ bounded_float (-48) 5 x).
  { destruct prev as [k|x]; cbn [is_delay] in Hprev.
    - apply andb_prop in Hprev. destruct Hprev as [H0 H30].
      apply Z.leb_le in H0, H30.
      destruct (int_delay_float k (conj H0 H30)) as (x & Hx & Hd).
      exists x. split; [exact Hx|]. now apply float_delay_bounded.
    - exists x. split; [reflexivity|]. now apply float_delay_bounded. }
  destruct Hx as (x & Hpx & Hx).
  assert (Hp1 : bounded_float (-47) 5 (fmul x (unit_value u))).
  { eapply bounded_float_weaken; cycle 2;
      [apply (fmul_draw (-48) 5 x u Hx); lia | lia | lia]. }
  assert (Hp : bounded_float 0 12
                 (fmul (fmul x (unit_value u)) (float_of_Z 100))).
  { eapply bounded_float_weaken; cycle 2;
      [apply (fmul_hundred (-47) 5 _ Hp1); lia | lia | lia]. }
  destruct (math_trunc_bounded 0 12 _ ltac:(lia) Hp) as (k & Hk & Hkr).
  change (2 ^ 12) with 4096 in Hkr.
  destruct (tenth_of_product k Hkr) as (sleep & Hs & Hsleep).
  assert (Hq : bounded_float 0 7 (fmul (unit_value u) (float_of_Z 100))).
  { eapply bounded_float_weaken; cycle 2;
      [apply (fmul_hundred (-53) 0 _ (unit_float_bounded u)); lia | lia | lia]. }
  destruct (math_trunc_bounded 0 7 _ ltac:(lia) Hq) as (j & Hj & Hjr).
  change (2 ^ 7) with 128 in Hjr.
  destruct (tenth_of_draw j Hjr) as (fresh & Hf & Hfresh).
  exists x, k, sleep, j, fresh. auto 10.
Qed.

End Binary64.

(** ** [_get_open_backoff] *)

Lemma draw_multiplier_unit (o : oracle) (w : world) :
  exists u, (draw_multiplier o w).1 = unit_value u.
Proof.
  unfold draw_multiplier, py_system_random, py_random.
  destruct (generator_truthy _); eexists; reflexivity.
Qed.



(** With a previous delay, or none, [_get_open_backoff] raises nothing
    and returns a delay. *)
Lemma get_open_backoff_delay (o : oracle) (prev : option number) (w : world) :
  (forall d, prev = Some d -> is_delay d = true) ->
  exists secs,
    (_get_open_backoff o prev w).1 = Return secs /\ is_delay secs = true.
Proof.
  intros Hprev. unfold _get_open_backoff.
  destruct prev as [d|]; [|now exists (PyInt 1)].
  destruct (draw_multiplier_unit o (init_generator w)) as [u Hu].
  destruct (draw_multiplier o (init_generator w)) as [m w1].
  cbn [fst] in Hu. subst m. cbn [fst].
  destruct (backoff_arithmetic d u (Hprev d eq_refl))
    as (x & k & sleep & j & fresh & -> & -> & -> & Hsleep & -> & -> & Hfresh).
  destruct (SFltb (float_of_Z MAX_FILE_OPEN_SLEEP_SEC) sleep).
  - eexists. split; [reflexivity|exact Hfresh].
  - eexists. split; [reflexivity|]. now apply Hsleep.
Qed.



Lemma get_open_backoff_frame o prev w :
  files (_get_open_backoff o prev w).2 = files w /\
  handles (_get_open_backoff o prev w).2 = handles w /\
  opens (_get_open_backoff o prev w).2 = opens w /\
  writes (_get_open_backoff o prev w).2 = writes w /\
  trace (_get_open_backoff o prev w).2 = trace w.
Proof.
  unfold _get_open_backoff, draw_multiplier, init_generator, py_random,
    py_system_random, set_generator.
  destruct prev as [prev|]; [|auto].
  destruct (RANDOM_GENERATOR w) eqn:E; cbn; rewrite ?E; cbn; auto.
Qed.

(** ** [write_csv_file] *)

Lemma open_loop_frame o f range : forall prev w r w',
  open_loop o f range prev w = (Return r, w') ->
  writes w' = writes w /\
  match r with
  | None =>
      files w' = files w /\ handles w' = handles w /\
      forall i, (i < length range)%nat -> open_ok o (opens w + i) = false
  | Some f' =>
      f' = f /\ files w' = touch f (files w) /\ handles w' = f :: handles w
  end.
Proof.
  induction range as [|tries range IH]; intros prev w r w'; simpl.
  - intros [= <- <-]. repeat split; auto. intros i Hi. lia.
  - unfold py_open_append.
    destruct (open_ok o (opens w)) eqn:Hok.
    + intros [= <- <-]. simpl. auto.
    + match goal with
      | |- context [(tries <? ?n)%nat] => destruct (tries <? n)%nat
      end.
      * match goal with
        | |- context [_get_open_backoff o prev ?w0] =>
            pose proof (get_open_backoff_frame o prev w0) as Hb;
            destruct (_get_open_backoff o prev w0) as [[secs|e] w1];
            [|discriminate]
        end.
        simpl in Hb. destruct Hb as (Hf & Hh & Ho & Hw & _).
        intros Hl. apply IH in Hl. simpl in Hl.
        rewrite Hf, Hh, Ho, Hw in Hl. destruct Hl as [Hw' Hl].
        split; [exact Hw'|]. destruct r; [exact Hl|].
        destruct Hl as (? & ? & Hl). repeat split; auto.
        intros [|i] Hi; [rewrite Nat.add_0_r; exact Hok|].
        replace (opens w + S i)%nat with (S (opens w) + i)%nat by lia.
        apply Hl. simpl in Hi. lia.
      * intros Hl. apply IH in Hl. simpl in Hl. destruct Hl as [Hw' Hl].
        split; [exact Hw'|]. destruct r; [exact Hl|].
        destruct Hl as (? & ? & Hl). repeat split; auto.
        intros [|i] Hi; [rewrite Nat.add_0_r; exact Hok|].
        replace (opens w + S i)%nat with (S (opens w) + i)%nat by lia.
        apply Hl. simpl in Hi. lia.
Qed.

(** The loop of opens raises nothing: every delay it passes to
    [_get_open_backoff] is one that function returned. *)
Lemma open_loop_returns o f range : forall prev w,
  (forall d, prev = Some d -> is_delay d = true) ->
  exists csv_file w', open_loop o f range prev w = (Return csv_file, w').
Proof.
  induction range as [|tries range IH]; intros prev w Hprev; cbn [open_loop].
  - eauto.
  - unfold py_open_append. destruct (open_ok o (opens w)); [eauto|].
    match goal with
    | |- context [(tries <? ?n)%nat] => destruct (tries <? n)%nat
    end; [|now apply IH].
    match goal with
    | |- context [_get_open_backoff o prev ?w0] =>
        destruct (get_open_backoff_delay o prev w0 Hprev) as (secs & Hs & Hd);
        destruct (_get_open_backoff o prev w0) as [r w1]
    end.
    cbn [fst] in Hs. subst r. apply IH. now intros d [= <-].
Qed.

Lemma remove_handle_head (h : string) (hs : list string) :
  remove_handle h (h :: hs) = hs.
Proof. simpl. now rewrite String.eqb_refl. Qed.

(** [write_csv_file] with a file name and data: the loop of opens
    returns, and the rest depends on what it returns. *)
Lemma write_csv_file_unfold o f d header w :
  f <> "" -> d <> "" ->
  exists csv_file w1,
    open_loop o f (seq 0 MAX_CSV_FILE_OPEN_TRIES) None w = (Return csv_file, w1) /\
    write_csv_file o (Some f) header (Some d) w =
      match csv_file with
      | None => (Return false, w1)
      | Some csv_file =>
          let '(r, w) := write_body o csv_file header d w1 in
          (Return match r with Return _ => true | Raise _ => false end,
           file_close csv_file w)
      end.
Proof.
  intros Hf Hd.
  assert (E : write_csv_file o (Some f) header (Some d) w =
              match open_loop o f (seq 0 MAX_CSV_FILE_OPEN_TRIES) None w with
              | (Raise e, w) => (Raise e, w)
              | (Return None, w) => (Return false, w)
              | (Return (Some csv_file), w) =>
                  let '(r, w) := write_body o csv_file header d w in
                  (Return match r with Return _ => true | Raise _ => false end,
                   file_close csv_file w)
              end).
  { unfold write_csv_file.
    rewrite (str_truthy_Some f Hf), (str_truthy_Some d Hd). reflexivity. }
  destruct (open_loop_returns o f (seq 0 MAX_CSV_FILE_OPEN_TRIES) None w)
    as (csv_file & w1 & Hl); [discriminate|].
  exists csv_file, w1. split; [exact Hl|]. rewrite E, Hl. now destruct csv_file.
Qed.

Lemma write_body_handles o f header d w r w' :
  write_body o f header d w = (r, w') -> handles w' = handles w.
Proof.
  unfold write_body, file_write.
  destruct (st_size f w <=? 0)%nat, (str_truthy header); simpl;
    repeat (match goal with |- context [write_ok o ?n] => destruct (write_ok o n) end; simpl);
    intros H; apply (f_equal snd) in H; simpl in H; subst w'; reflexivity.
Qed.

Lemma write_body_first o f h d w :
  h <> "" -> st_size f w = 0%nat ->
  write_ok o (writes w) = true -> write_ok o (S (writes w)) = true ->
  exists w', write_body o f (Some h) d w = (Return tt, w') /\
    files w' !! f
    = Some (default "" (files w !! f) +:+ h +:+ newline +:+ d +:+ newline).
Proof.
  intros Hh Hsz Hw1 Hw2. unfold write_body, file_write.
  rewrite Hsz, (str_truthy_Some h Hh). simpl. rewrite Hw1. simpl. rewrite Hw2.
  eexists. split; [reflexivity|]. simpl.
  rewrite !lookup_insert_eq. simpl. f_equal. now rewrite !append_assoc.
Qed.

Lemma write_body_later o f header d w :
  st_size f w <> 0%nat -> write_ok o (writes w) = true ->
  exists w', write_body o f header d w = (Return tt, w') /\
    files w' !! f = Some (default "" (files w !! f) +:+ d +:+ newline).
Proof.
  intros Hsz Hw1. unfold write_body, file_write.
  destruct (st_size f w <=? 0)%nat eqn:E; [apply Nat.leb_le in E; lia|].
  rewrite Hw1. eexists. split; [reflexivity|]. simpl.
  now rewrite lookup_insert_eq.
Qed.

(** C2. A call of [write_csv_file] with a file name and data returns a
    boolean and leaves open exactly the file objects that were open before
    it, whatever happens to the writes. When one of the ten opens succeeds
    and the writes go through: on a file that is absent or empty, with a
    non-empty header, the file holds the header line followed by the data
    line; on a file that already has content, the data line alone is
    appended. The decision reads the size of the file, nothing else. *)
Theorem write_csv_file_header_once (o : oracle) (f d : string)
  (header : option string) (w : world) :
  f <> "" -> d <> "" ->
  forall r w', write_csv_file o (Some f) header (Some d) w = (r, w') ->
    handles w' = handles w /\ (exists b, r = Return b) /\
    ((exists i, (i < MAX_CSV_FILE_OPEN_TRIES)%nat /\ open_ok o (opens w + i) = true) ->
     (forall h, header = Some h -> h <> "" ->
        files w !! f = None \/ files w !! f = Some "" ->
        write_ok o (writes w) = true -> write_ok o (S (writes w)) = true ->
        r = Return true /\
        files w' !! f = Some (h +:+ newline +:+ d +:+ newline)) /\
     (forall c, files w !! f = Some c -> c <> "" ->
        write_ok o (writes w) = true ->
        r = Return true /\ files w' !! f = Some (c +:+ d +:+ newline))).
Proof.
  intros Hf Hd r w'.
  destruct (write_csv_file_unfold o f d header w Hf Hd)
    as (csv_file & w1 & Hl & ->).
  apply open_loop_frame in Hl. destruct Hl as [Hw Hl].
  destruct csv_file as [f'|].
  - destruct Hl as (-> & Hfs & Hhs).
    destruct (write_body o f header d w1) as [rb w2] eqn:Hb.
    intros H. injection H as <- <-.
    split.
    { simpl. rewrite (write_body_handles _ _ _ _ _ _ _ Hb), Hhs.
      apply remove_handle_head. }
    split; [eauto|].
    intros _. split.
    + intros h -> Hh Hempty Hw1 Hw2.
      assert (Hc : files w1 !! f = Some "").
      { rewrite Hfs. unfold touch.
        destruct Hempty as [E|E]; rewrite E; [apply lookup_insert_eq|exact E]. }
      destruct (write_body_first o f h d w1 Hh) as (w3 & Hb' & Hfile).
      * unfold st_size. now rewrite Hc.
      * now rewrite Hw.
      * now rewrite Hw.
      * rewrite Hb' in Hb. injection Hb as <- <-. split; [reflexivity|].
        simpl. rewrite Hfile, Hc. reflexivity.
    + intros c Hc Hne Hw1.
      assert (Hc1 : files w1 !! f = Some c).
      { rewrite Hfs. unfold touch. now rewrite Hc. }
      destruct (write_body_later o f header d w1) as (w3 & Hb' & Hfile).
      * unfold st_size. rewrite Hc1. intros E. apply Hne, length_zero_empty, E.
      * now rewrite Hw.
      * rewrite Hb' in Hb. injection Hb as <- <-. split; [reflexivity|].
        simpl. rewrite Hfile, Hc1. reflexivity.
  - destruct Hl as (Hfs & Hhs & Hnone).
    intros H. injection H as <- <-.
    split; [exact Hhs|]. split; [eauto|].
    intros (i & Hi & Hok). rewrite length_seq in Hnone.
    rewrite (Hnone i Hi) in Hok. discriminate.
Qed.

Lemma write_csv_file_header_once_witness :
  (write_csv_file example_oracle (Some "out.csv") (Some "a,b") (Some "1,2")
                  empty_world).1 = Return true /\
  files (write_csv_file example_oracle (Some "out.csv") (Some "a,b") (Some "1,2")
                        empty_world).2 !! "out.csv"
  = Some ("a,b" +:+ newline +:+ "1,2" +:+ newline).
Proof.
  destruct (write_csv_file_header_once example_oracle "out.csv" "1,2"
              (Some "a,b") empty_world ltac:(discriminate) ltac:(discriminate)
              _ _ (surjective_pairing _)) as (_ & _ & H).
  destruct H as [H _].
  - exists 0%nat. split; [unfold MAX_CSV_FILE_OPEN_TRIES; lia | reflexivity].
  - apply (H "a,b"); [reflexivity | discriminate | left; reflexivity
                      | reflexivity | reflexivity].
Defined.

(** C10. [write_csv_file] with a file name or data that is [None] or empty
    raises [RuntimeError] at once: the world is untouched, so nothing was
    opened, nothing written and no sleep taken. *)
Theorem write_csv_file_empty_parameter (o : oracle)
  (filename header data : option string) (w : world) :
  filename = None \/ filename = Some "" \/ data = None \/ data = Some "" ->
  write_csv_file o filename header data w
  = (Raise (RuntimeError "Empty parameter passed to write_geo_csv"), w).
Proof.
  intros H. unfold write_csv_file.
  assert (E : negb (str_truthy filename) || negb (str_truthy data) = true).
  { apply orb_true_iff. rewrite !negb_true_iff, !str_truthy_false. tauto. }
  now rewrite E.
Qed.

Lemma write_csv_file_empty_parameter_witness :
  write_csv_file example_oracle (Some "out.csv") (Some "a,b") (Some "") empty_world
  = (Raise (RuntimeError "Empty parameter passed to write_geo_csv"), empty_world).
Proof.
  apply write_csv_file_empty_parameter. right. right. right. reflexivity.
Defined.

(** ** [update_betydb] *)

Lemma update_betydb_files o header rows w r w' :
  update_betydb o header rows w = (r, w') -> files w' = files w.
Proof.
  unfold update_betydb.
  repeat match goal with
         | |- context [match ?x with _ => _ end] => destruct x
         end; intros H; apply (f_equal snd) in H; simpl in H; subst w'; reflexivity.
Qed.

Lemma update_betydb_success o header rows w resp :
  http_post o (linesep_join (header :: rows)) = Return resp ->
  (status_code resp = 200 \/ status_code resp = 201)%Z ->
  forall j d ids, body resp = Some j ->
    json_subscript j "data" = Return d ->
    json_subscript d "ids_of_new_traits" = Return ids ->
    (update_betydb o header rows w).1 = Return (Some ids).
Proof.
  intros Hp Hs j d ids Hb Hd Hi. unfold update_betydb. rewrite Hp.
  assert (E : ((status_code resp =? 200) || (status_code resp =? 201))%Z = true).
  { apply orb_true_iff. rewrite !Z.eqb_eq. exact Hs. }
  rewrite E. unfold resp_json. rewrite Hb, Hd, Hi. reflexivity.
Qed.

Lemma update_betydb_error_status o header rows w resp :
  http_post o (linesep_join (header :: rows)) = Return resp ->
  (400 <= status_code resp < 600)%Z ->
  (update_betydb o header rows w).1 = Raise (HTTPError (status_code resp)).
Proof.
  intros Hp Hs. unfold update_betydb. rewrite Hp.
  destruct (status_code resp =? 200)%Z eqn:E1; [apply Z.eqb_eq in E1; lia|].
  destruct (status_code resp =? 201)%Z eqn:E2; [apply Z.eqb_eq in E2; lia|].
  simpl. unfold raise_for_status.
  assert (E : ((400 <=? status_code resp) && (status_code resp <? 600))%Z = true).
  { apply andb_true_iff. split; [apply Z.leb_le|apply Z.ltb_lt]; lia. }
  now rewrite E.
Qed.

Lemma update_betydb_other_status o header rows w resp :
  http_post o (linesep_join (header :: rows)) = Return resp ->
  (status_code resp <> 200)%Z -> (status_code resp <> 201)%Z ->
  (status_code resp < 400 \/ 600 <= status_code resp)%Z ->
  (update_betydb o header rows w).1 = Return None.
Proof.
  intros Hp H1 H2 Hs. unfold update_betydb. rewrite Hp.
  destruct (status_code resp =? 200)%Z eqn:E1; [apply Z.eqb_eq in E1; lia|].
  destruct (status_code resp =? 201)%Z eqn:E2; [apply Z.eqb_eq in E2; lia|].
  simpl. unfold raise_for_status.
  assert (E : ((400 <=? status_code resp) && (status_code resp <? 600))%Z = false).
  { apply andb_false_iff. rewrite Z.leb_gt, Z.ltb_ge. lia. }
  now rewrite E.
Qed.

(** C5. When BETYdb answers 202 Accepted, a status that is neither 200 nor
    201, [update_betydb] raises nothing: [raise_for_status] only raises
    for the 4xx and 5xx classes, and the function returns [None]. *)
Theorem update_betydb_status_202_returns_none :
  (update_betydb accepted_oracle "h" ["r1"; "r2"] empty_world).1 = Return None.
Proof. reflexivity. Qed.

(** ** The trait schema after [init_extraction] *)

Lemma fold_insert_lookup {V} (f : string -> V) (fields : list string) :
  forall (acc : gmap string V) k,
  fold_left (fun t field_name => <[field_name := f field_name]> t) fields acc !! k
  = if bool_decide (k ∈ fields) then Some (f k) else acc !! k.
Proof.
  induction fields as [|x fields IH]; intros acc k; cbn [fold_left].
  - reflexivity.
  - rewrite IH. destruct (decide (k = x)) as [->|Hne].
    + rewrite lookup_insert_eq.
      rewrite (bool_decide_eq_true_2 (x ∈ x :: fields)) by (apply elem_of_cons; now left).
      now destruct (bool_decide (x ∈ fields)).
    + rewrite lookup_insert_ne by congruence.
      destruct (decide (k ∈ fields)) as [Hin|Hin].
      * rewrite !bool_decide_eq_true_2; [reflexivity| |exact Hin].
        apply elem_of_cons. now right.
      * rewrite !bool_decide_eq_false_2; [reflexivity| |exact Hin].
        intros H. apply elem_of_cons in H. tauto.
Qed.

Lemma traits_table_lookup g fields traits k :
  get_bety_traits_table g = Return (fields, traits) ->
  k ∈ fields -> traits !! k = Some (get_default_trait g k).
Proof.
  unfold get_bety_traits_table. destruct (get_bety_fields g); [|discriminate].
  intros [= <- <-] Hin. rewrite fold_insert_lookup.
  now rewrite bool_decide_eq_true_2.
Qed.

(** [init_extraction] returns only when the name is not empty, the list
    of array-valued traits is not empty and the configuration has the
    citation and the variable names; the globals it leaves are then these. *)
Lemma init_extraction_inv cfg name method_name g0 g :
  init_extraction cfg (Some name) method_name g0 = (Return tt, g) ->
  exists author title year variable_names,
    name <> "" /\ TRAIT_NAME_ARRAY_VALUE g0 <> [] /\
    CITATION_AUTHOR cfg = Some author /\ CITATION_TITLE cfg = Some title /\
    CITATION_YEAR cfg = Some year /\ VARIABLE_NAMES cfg = Some variable_names /\
    g = Globals (Some name) (Some (sensor_name_of name))
          (<[0%nat := sensor_name_of name]> (TRAIT_NAME_ARRAY_VALUE g0))
          (let m := <["citation_year" := year]>
                      (<["citation_title" := title]>
                         (<["citation_author" := author]> (TRAIT_NAME_MAP g0))) in
           if str_truthy method_name
           then <["method_name" := default "" method_name]> m else m)
          (Some (if contains_char ","%char variable_names
                 then split ","%char variable_names
                 else [variable_names])).
Proof.
  unfold init_extraction.
  destruct (String.eqb_spec name "") as [->|Hname]; [discriminate|].
  rewrite (str_truthy_Some name Hname). cbn [negb default].
  destruct (TRAIT_NAME_ARRAY_VALUE g0) as [|a l] eqn:E; [discriminate|].
  destruct (CITATION_AUTHOR cfg) as [author|]; [|discriminate].
  destruct (CITATION_TITLE cfg) as [title|]; [|discriminate].
  destruct (CITATION_YEAR cfg) as [year|]; [|discriminate].
  destruct (VARIABLE_NAMES cfg) as [variable_names|]; [|discriminate].
  intros H. apply (f_equal snd) in H. cbn [snd] in H. subst g.
  exists author, title, year, variable_names.
  repeat (split; [first [reflexivity | assumption | discriminate]|]).
  reflexivity.
Qed.

Lemma init_extraction_array_value cfg name method_name g0 g :
  init_extraction cfg (Some name) method_name g0 = (Return tt, g) ->
  TRAIT_NAME_ARRAY_VALUE g
  = <[0%nat := sensor_name_of name]> (TRAIT_NAME_ARRAY_VALUE g0) /\
  SENSOR_NAME g = Some (sensor_name_of name) /\
  forall k, k <> "citation_author" -> k <> "citation_title" ->
    k <> "citation_year" -> k <> "method_name" ->
    TRAIT_NAME_MAP g !! k = TRAIT_NAME_MAP g0 !! k.
Proof.
  intros H. apply init_extraction_inv in H.
  destruct H as (author & title & year & v & _ & _ & _ & _ & _ & _ & ->).
  cbn [TRAIT_NAME_ARRAY_VALUE SENSOR_NAME TRAIT_NAME_MAP].
  split; [reflexivity|]. split; [reflexivity|].
  intros k H1 H2 H3 H4.
  destruct (str_truthy method_name);
    rewrite ?lookup_insert_ne by congruence; reflexivity.
Qed.

(** After [init_extraction] on the freshly imported module, ['site'] is an
    array-valued trait only when the sensor name is itself ["site"]. *)
Lemma site_default_after_init cfg name method_name g :
  init_extraction cfg (Some name) method_name initial_globals = (Return tt, g) ->
  get_default_trait g "site"
  = if String.eqb "site" (sensor_name_of name) then TraitEmptyList else TraitStr "".
Proof.
  intros H. apply init_extraction_array_value in H. destruct H as (Ha & _ & Hm).
  unfold get_default_trait. rewrite Ha.
  cbn [initial_globals TRAIT_NAME_ARRAY_VALUE existsb].
  change (<[0%nat:=sensor_name_of name]> ["site"]) with [sensor_name_of name].
  cbn [existsb]. rewrite orb_false_r.
  destruct (String.eqb "site" (sensor_name_of name)); [reflexivity|].
  rewrite Hm by discriminate. reflexivity.
Qed.

Lemma init_extraction_returns cfg name method_name g0 :
  name <> "" -> TRAIT_NAME_ARRAY_VALUE g0 <> [] ->
  is_Some (CITATION_AUTHOR cfg) -> is_Some (CITATION_TITLE cfg) ->
  is_Some (CITATION_YEAR cfg) -> is_Some (VARIABLE_NAMES cfg) ->
  exists g, init_extraction cfg (Some name) method_name g0 = (Return tt, g).
Proof.
  intros Hname Harr [author Ha] [title Ht] [year Hy] [v Hv].
  unfold init_extraction.
  rewrite (str_truthy_Some name Hname), Ha, Ht, Hy, Hv. cbn [negb].
  destruct (TRAIT_NAME_ARRAY_VALUE g0); [contradiction|]. eexists. reflexivity.
Qed.

Lemma init_extraction_field_names cfg name method_name g0 g :
  init_extraction cfg (Some name) method_name g0 = (Return tt, g) ->
  exists variable_names,
    VARIABLE_NAMES cfg = Some variable_names /\
    FIELD_NAME_LIST g
    = Some (if contains_char ","%char variable_names
            then split ","%char variable_names
            else [variable_names]).
Proof.
  intros H. apply init_extraction_inv in H.
  destruct H as (author & title & year & v & _ & _ & _ & _ & _ & Hv & ->).
  exists v. split; [exact Hv|reflexivity].
Qed.

Lemma example_globals_initialised :
  init_extraction example_configuration (Some "canopycover") None initial_globals
  = (Return tt, example_globals).
Proof.
  destruct (init_extraction_returns example_configuration "canopycover" None
              initial_globals) as [g Hg];
    [discriminate | discriminate | eexists; reflexivity..|].
  unfold example_globals. now rewrite Hg.
Qed.

Lemma example_globals_field_names :
  FIELD_NAME_LIST example_globals = Some ["canopy_cover"].
Proof.
  destruct (init_extraction_field_names _ _ _ _ _ example_globals_initialised)
    as (v & [= <-] & ->).
  reflexivity.
Qed.

(** C9. After [init_extraction("canopycover", None)] the defaults table
    of [get_bety_traits_table] gives ['site'] the empty string, not the
    empty list: [TRAIT_NAME_ARRAY_VALUE[0] = SENSOR_NAME] has replaced
    ['site'] in the list of array-valued traits. Before the
    initialisation the default of ['site'] is the empty list. *)
Theorem site_default_is_empty_string_after_init :
  exists g fields traits,
    init_extraction example_configuration (Some "canopycover") None initial_globals
      = (Return tt, g) /\
    get_bety_traits_table g = Return (fields, traits) /\
    traits !! "site" = Some (TraitStr "") /\
    get_default_trait initial_globals "site" = TraitEmptyList.
Proof.
  assert (Ht : exists fields traits,
             get_bety_traits_table example_globals = Return (fields, traits) /\
             "site" ∈ fields).
  { unfold get_bety_traits_table, get_bety_fields.
    rewrite example_globals_field_names. eexists _, _. split; [reflexivity|].
    do 3 (apply elem_of_cons; right). apply elem_of_cons. now left. }
  destruct Ht as (fields & traits & Ht & Hin).
  exists example_globals, fields, traits.
  split; [exact example_globals_initialised|]. split; [exact Ht|].
  split; [|reflexivity].
  rewrite (traits_table_lookup _ _ _ _ Ht Hin).
  now rewrite (site_default_after_init _ _ _ _ example_globals_initialised).
Qed.

(** ** [load_image_files] *)

Lemma float_ne_nan (x : coord) : float_ne x np_nan = true.
Proof. now destruct x. Qed.

Lemma dict_set_elem {V} (key : string) (v : V) d k' v' :
  (k', v') ∈ dict_set key v d -> (k', v') = (key, v) \/ (k', v') ∈ d.
Proof.
  induction d as [|[k0 v0] d IH]; simpl.
  - intros H. apply list_elem_of_singleton in H. now left.
  - destruct (String.eqb k0 key) eqn:E.
    + apply String.eqb_eq in E. subst k0. intros H.
      apply elem_of_cons in H. destruct H as [H|H]; [now left|].
      right. now apply elem_of_cons; right.
    + intros H. apply elem_of_cons in H. destruct H as [H|H].
      * right. apply elem_of_cons. now left.
      * destruct (IH H) as [?|?]; [now left|].
        right. apply elem_of_cons. now right.
Qed.

Lemma dict_set_keys {V} (key : string) (v : V) d k :
  k ∈ map fst (dict_set key v d) <-> k = key \/ k ∈ map fst d.
Proof.
  induction d as [|[k0 v0] d IH]; cbn [dict_set map fst].
  - rewrite elem_of_cons. tauto.
  - destruct (String.eqb k0 key) eqn:E; cbn [map fst]; rewrite !elem_of_cons.
    + apply String.eqb_eq in E. subst k0. tauto.
    + rewrite IH. tauto.
Qed.

Lemma dict_set_NoDup {V} (key : string) (v : V) d :
  NoDup (map fst d) -> NoDup (map fst (dict_set key v d)).
Proof.
  induction d as [|[k0 v0] d IH]; cbn [dict_set map fst]; intros H.
  - apply NoDup_singleton.
  - apply NoDup_cons in H. destruct H as [Hn Hd].
    destruct (String.eqb k0 key) eqn:E; cbn [map fst].
    + apply NoDup_cons. now split.
    + apply String.eqb_neq in E. apply NoDup_cons. split; [|now apply IH].
      rewrite dict_set_keys. intros [?|?]; [congruence|contradiction].
Qed.

Lemma load_image_loop_inv (P : string -> polygon -> Prop) o :
  (forall f code,
      P f (Polygon [bounds_ring (image_get_geobounds o f)] (Some code))) ->
  forall paths acc d,
    (forall f p, (f, p) ∈ acc -> P f p) ->
    load_image_loop o paths acc = Return d ->
    forall f p, (f, p) ∈ d -> P f p.
Proof.
  intros HP. induction paths as [|x paths IH]; intros acc d Hacc; simpl.
  - intros [= <-]. exact Hacc.
  - rewrite float_ne_nan.
    destruct (get_epsg o x) as [code|]; [|discriminate].
    destruct (import_from_epsg o code); [|discriminate].
    apply IH. intros f p Hin. apply dict_set_elem in Hin.
    destruct Hin as [[= -> ->]|Hin]; [apply HP|now apply Hacc].
Qed.

(** The keys of what the loop returns are the keys it started from and the
    files it was given, each once: no file is left out. *)
Lemma load_image_loop_keys o : forall paths acc d,
  load_image_loop o paths acc = Return d ->
  (NoDup (map fst acc) -> NoDup (map fst d)) /\
  (forall f, f ∈ map fst d <-> f ∈ paths \/ f ∈ map fst acc).
Proof.
  induction paths as [|x paths IH]; intros acc d; simpl.
  - intros [= <-]. split; [auto|]. intros f. rewrite elem_of_nil. tauto.
  - rewrite float_ne_nan.
    destruct (get_epsg o x) as [code|]; [|discriminate].
    destruct (import_from_epsg o code); [|discriminate].
    intros H. destruct (IH _ _ H) as [Hn Hk]. split.
    + intros Ha. apply Hn. now apply dict_set_NoDup.
    + intros f. rewrite Hk, dict_set_keys, elem_of_cons. tauto.
Qed.

Lemma load_image_files_keys o paths loaded :
  load_image_files o paths = Return loaded ->
  NoDup (map fst loaded) /\ (forall f, f ∈ map fst loaded <-> f ∈ paths).
Proof.
  intros H. apply load_image_loop_keys in H. destruct H as [Hn Hk]. split.
  - apply Hn. apply NoDup_nil_2.
  - intros f. rewrite Hk. cbn [map]. rewrite elem_of_nil. tauto.
Qed.

(** C4. A file whose bounds are all NaN is not skipped: [bounds[0] !=
    np.nan] holds for every float. With an EPSG code the file is loaded,
    with a ring of NaN points; without one (a plain, non-georeferenced
    image) [load_image_files] raises [RuntimeError] and the files after
    it are never looked at. *)
Theorem nan_bounds_file_is_not_skipped :
  load_image_files nan_oracle ["a.tif"]
  = Return [("a.tif",
             Polygon [[(NaN, NaN); (NaN, NaN); (NaN, NaN); (NaN, NaN); (NaN, NaN)]]
                     (Some 4326%Z))] /\
  load_image_files plain_image_oracle ["plain.jpg"; "b.tif"]
  = Raise (RuntimeError "File is missing an EPSG code: plain.jpg") /\
  load_image_files plain_image_oracle ["b.tif"]
  = Return [("b.tif", Polygon [bounds_ring example_geobounds] (Some 4326%Z))].
Proof. repeat split. Qed.

(** Every polygon [load_image_files] returns has one ring, made of the
    five points (minX, maxY), (maxX, maxY), (maxX, minY), (minX, minY),
    (minX, maxY) of the bounds of its file. *)
Lemma loaded_polygon_ring (o : oracle) (paths : list string)
  (loaded : list (string * polygon)) (f : string) (poly : polygon) :
  load_image_files o paths = Return loaded ->
  (f, poly) ∈ loaded ->
  rings poly = [bounds_ring (image_get_geobounds o f)].
Proof.
  intros Hload Hin. unfold load_image_files in Hload.
  refine (load_image_loop_inv
            (fun f p => rings p = [bounds_ring (image_get_geobounds o f)])
            o _ paths [] loaded _ Hload f poly Hin).
  - reflexivity.
  - intros ? ? H. inversion H.
Qed.

Lemma float_eq_refl (q : Q) : float_eq (Num q) (Num q) = true.
Proof.
  unfold float_eq, float_ne. rewrite negb_involutive. apply Qeq_bool_refl.
Qed.

(** C7. The polygon of every candidate has one ring, the five points
    (minX, maxY), (maxX, maxY), (maxX, minY), (minX, minY), (minX, maxY)
    of the bounds of its file. A file with NaN bounds is a candidate (the
    guard [bounds[0] != np.nan] lets it through), and the first point of
    its ring does not compare equal to the last one: that ring is not
    closed. When the bounds are numbers the ring is closed, and with
    minX <= maxX and minY <= maxY it is clockwise (its signed area is not
    positive). *)
Theorem nan_bounds_ring_is_not_closed :
  (exists ring,
      load_image_files nan_oracle ["a.tif"]
      = Return [("a.tif", Polygon [ring] (Some 4326%Z))] /\
      length ring = 5%nat /\ ring_closed ring = false) /\
  (forall (o : oracle) (paths : list string) (loaded : list (string * polygon))
          (f : string) (poly : polygon),
      load_image_files o paths = Return loaded ->
      (f, poly) ∈ loaded ->
      let b := image_get_geobounds o f in
      rings poly = [[(min_x b, max_y b); (max_x b, max_y b); (max_x b, min_y b);
                     (min_x b, min_y b); (min_x b, max_y b)]] /\
      forall x0 x1 y0 y1,
        b = Geobounds (Num y0) (Num y1) (Num x0) (Num x1) ->
        forall ring, ring ∈ rings poly ->
          length ring = 5%nat /\ ring_closed ring = true /\
          ((x0 <= x1)%Q -> (y0 <= y1)%Q ->
           exists pts, numeric_ring ring = Some pts /\
                       (signed_area2 pts <= 0)%Q)).
Proof.
  split.
  - eexists. split; [reflexivity|]. split; reflexivity.
  - intros o paths loaded f poly Hload Hin b.
    pose proof (loaded_polygon_ring o paths loaded f poly Hload Hin) as Hr.
    fold b in Hr. split; [exact Hr|].
    intros x0 x1 y0 y1 Hb ring H. rewrite Hr in H.
    apply list_elem_of_singleton in H. subst ring. rewrite Hb.
    split; [reflexivity|]. split.
    + unfold ring_closed, bounds_ring. cbn [head last min_x max_y].
      now rewrite !float_eq_refl.
    + intros Hx Hy. eexists. split; [reflexivity|].
      cbn [signed_area2]. nra.
Qed.

(** ** [load_metadata] *)

Lemma load_one_metadata_parsed o acc one_file md :
  json_load o one_file = Some md -> load_one_metadata o acc one_file = md ∪ acc.
Proof.
  intros H. unfold load_one_metadata. rewrite H.
  destruct (decide (md = ∅)) as [->|_]; [|reflexivity].
  now rewrite (left_id_L ∅ (∪)).
Qed.

Lemma fold_update_lookup (key : string) : forall mds (acc : gmap string json),
  fold_left (fun merged md => md ∪ merged) mds acc !! key
  = match last_defining_value key mds with
    | Some v => Some v
    | None => acc !! key
    end.
Proof.
  induction mds as [|md mds IH]; intros acc; cbn [fold_left last_defining_value].
  - reflexivity.
  - rewrite IH. destruct (last_defining_value key mds); [reflexivity|].
    rewrite lookup_union. destruct (md !! key), (acc !! key); reflexivity.
Qed.

(** C6. When every metadata file parses, [load_metadata] is the merge of
    their mappings in input order, each one overwriting the keys it
    defines: every key has the value of the last file that defines it,
    and a key no file defines is absent. *)
Theorem load_metadata_last_file_wins (o : oracle) (paths : list string)
  (mds : list (gmap string json)) :
  map (json_load o) paths = map Some mds ->
  load_metadata o paths = fold_left (fun merged md => md ∪ merged) mds ∅ /\
  forall key, load_metadata o paths !! key = last_defining_value key mds.
Proof.
  intros H.
  assert (E : forall acc, fold_left (load_one_metadata o) paths acc
                          = fold_left (fun merged md => md ∪ merged) mds acc).
  { revert mds H. induction paths as [|x paths IH]; intros [|md mds] H acc;
      try discriminate; [reflexivity|].
    cbn [map] in H. injection H as Hx Hrest. cbn [fold_left].
    rewrite (load_one_metadata_parsed o acc x md Hx). now apply IH. }
  unfold load_metadata. rewrite E. split; [reflexivity|].
  intros key. rewrite fold_update_lookup.
  now destruct (last_defining_value key mds).
Qed.

Lemma load_metadata_last_file_wins_witness :
  load_metadata example_oracle ["a.json"; "b.json"] !! "k"
  = last_defining_value "k" [a_json; b_json].
Proof.
  apply (load_metadata_last_file_wins example_oracle ["a.json"; "b.json"]
           [a_json; b_json]).
  reflexivity.
Defined.

(** ** The loop of [process_files] over the loaded files *)

Lemma omap_cons {A B} (f : A -> option B) (x : A) (l : list A) :
  omap f (x :: l) = match f x with Some y => y :: omap f l | None => omap f l end.
Proof. reflexivity. Qed.

Lemma omap_length_le {A B} (f : A -> option B) (l : list A) :
  (length (omap f l) <= length l)%nat.
Proof.
  induction l as [|x l IH]; [reflexivity|]. rewrite omap_cons.
  destruct (f x); cbn [length]; lia.
Qed.

(** Nothing is dropped exactly when every element has a value. *)
Lemma omap_length_full {A B} (f : A -> option B) (l : list A) :
  length (omap f l) = length l <->
  forallb (fun x => bool_decide (is_Some (f x))) l = true.
Proof.
  induction l as [|x l IH]; [easy|]. rewrite omap_cons. cbn [forallb].
  pose proof (omap_length_le f l) as Hle.
  destruct (f x) as [y|] eqn:E.
  - rewrite bool_decide_eq_true_2 by eauto. cbn [length andb].
    rewrite <- IH. split; lia.
  - rewrite bool_decide_eq_false_2 by (intros [? ?]; discriminate).
    cbn [length andb]. split; [lia|discriminate].
Qed.

Section Loop.
Variables (o : oracle) (g : globals) (field_names bety_fields : list string).
Variables (experiment_name plot_name localtime bety_csv_header : string).
Variables (create_csv_files store_in_betydb : bool) (num_loaded_files : nat).

Local Abbreviation try_image :=
  (image_try o g field_names bety_fields plot_name localtime
             create_csv_files store_in_betydb).
Local Abbreviation output_image :=
  (image_output o g experiment_name bety_csv_header create_csv_files).
Local Abbreviation loop :=
  (image_loop o g field_names bety_fields experiment_name plot_name
              localtime bety_csv_header create_csv_files store_in_betydb
              num_loaded_files).

Lemma image_try_cases filename st :
  calc_calls (try_image filename st).2
    = (calc_calls st ++ (if read_pixels o filename then [filename] else []))%list /\
  loop_world (try_image filename st).2 = loop_world st /\
  match (try_image filename st).1 with
  | Raise _ =>
      bety_rows (try_image filename st).2 = bety_rows st /\
      (stale (length field_names) (values st) ->
       stale (length field_names) (values (try_image filename st).2))
  | Return _ =>
      read_pixels o filename = true /\
      (exists csv_data,
          bety_rows (try_image filename st).2
          = if create_csv_files || store_in_betydb
            then (bety_rows st ++ [csv_data])%list else bety_rows st) /\
      (stale (length field_names) (values st) ->
       dict_or_scalar (calculate o filename))
  end.
Proof.
  unfold image_try.
  destruct (read_pixels o filename); cbn [negb].
  2:{ cbn [fst snd]. rewrite app_nil_r. auto. }
  cbn [calc_calls values bety_traits bety_rows loop_world].
  destruct (calculate o filename) as [cv|e].
  2:{ cbn [fst snd calc_calls values bety_rows loop_world]. auto. }
  destruct cv as [items|items|items|items|v]; cbn [reconcile_shape].
  - cbn [fst snd calc_calls values bety_rows loop_world]. auto.
  - cbn [values].
    destruct (negb _) eqn:E; cbn [fst snd calc_calls values bety_rows loop_world].
    + apply negb_true_iff, Nat.eqb_neq in E. auto.
    + repeat split; auto. eexists. reflexivity.
  - destruct (values st) as [vs|] eqn:Ev.
    + destruct (negb _) eqn:E; cbn [fst snd calc_calls values bety_rows loop_world].
      * auto.
      * apply negb_false_iff, Nat.eqb_eq in E.
        repeat split; auto.
        -- eexists. reflexivity.
        -- intros H. simpl in H. contradiction.
    + cbn [fst snd calc_calls values bety_rows loop_world]. auto.
  - destruct (values st) as [vs|] eqn:Ev.
    + destruct (negb _) eqn:E; cbn [fst snd calc_calls values bety_rows loop_world].
      * auto.
      * apply negb_false_iff, Nat.eqb_eq in E.
        repeat split; auto.
        -- eexists. reflexivity.
        -- intros H. simpl in H. contradiction.
    + cbn [fst snd calc_calls values bety_rows loop_world]. auto.
  - cbn [values].
    destruct (negb _) eqn:E; cbn [fst snd calc_calls values bety_rows loop_world].
    + apply negb_true_iff, Nat.eqb_neq in E. auto.
    + repeat split; auto. eexists. reflexivity.
Qed.

(** As long as [values] holds nothing the sanity check accepts, the inner
    [try] returns for the files that go through and raises for the
    others. *)
Lemma image_try_through filename st :
  stale (length field_names) (values st) ->
  match (try_image filename st).1 with
  | Return _ => goes_through o field_names filename = true
  | Raise _ => goes_through o field_names filename = false
  end.
Proof.
  intros Hstale. unfold image_try, goes_through.
  destruct (read_pixels o filename); cbn [negb andb fst]; [|reflexivity].
  cbn [calc_calls values bety_traits bety_rows loop_world].
  destruct (calculate o filename) as [cv|e]; [|reflexivity].
  destruct cv as [items|items|items|items|v];
    cbn [reconcile_shape usable_result values].
  - reflexivity.
  - pose proof (omap_length_full (fun key => items !! key) field_names) as Hfull.
    destruct (Nat.eqb_spec (length (omap (fun key => items !! key) field_names))
                (length field_names)) as [E|E]; cbn [negb fst].
    + now apply Hfull.
    + destruct (forallb _ field_names); [|reflexivity].
      exfalso. now apply E, Hfull.
  - destruct (values st) as [vs|]; [|reflexivity].
    cbn [stale] in Hstale. apply Nat.eqb_neq in Hstale. now rewrite Hstale.
  - destruct (values st) as [vs|]; [|reflexivity].
    cbn [stale] in Hstale. apply Nat.eqb_neq in Hstale. now rewrite Hstale.
  - cbn [length]. rewrite (Nat.eqb_sym 1).
    now destruct (length field_names =? 1)%nat.
Qed.

(** On the first file, a list or a tuple leaves [values] unassigned: the
    sanity check raises [UnboundLocalError], whatever the length. *)
Lemma image_try_sequence_unbound filename st items :
  read_pixels o filename = true ->
  calculate o filename = Return (CalcList items) \/
  calculate o filename = Return (CalcTuple items) ->
  values st = None ->
  (try_image filename st).1 = Raise (UnboundLocalError "values").
Proof.
  intros Hr Hc Hv. unfold image_try. rewrite Hr. cbn [negb values].
  destruct Hc as [-> | ->]; cbn [reconcile_shape]; now rewrite Hv.
Qed.

Lemma image_output_frame filename st :
  bety_rows (output_image filename st).2 = bety_rows st /\
  calc_calls (output_image filename st).2 = calc_calls st.
Proof.
  unfold image_output. destruct create_csv_files; [|auto].
  destruct (SENSOR_NAME g) as [sensor|]; [|auto].
  destruct (write_rows _ _ _ _ _) as [[u|e] w]; cbn [fst snd]; auto.
Qed.

Lemma image_loop_cons f fs st :
  loop (f :: fs) st =
    match try_image f st with
    | (Raise _, st1) => loop fs st1
    | (Return _, st1) =>
        match output_image f st1 with
        | (Raise e, st2) => (Raise e, st2)
        | (Return _, st2) =>
            if (1 <? num_loaded_files)%nat then (Return tt, st2)
            else loop fs st2
        end
    end.
Proof. reflexivity. Qed.

(** Either no file goes through the inner [try], and the loop saw every
    file; or the loop stopped at the first file that goes through. *)
Lemma image_loop_cases : forall filenames st,
  (1 < num_loaded_files \/ length filenames <= 1)%nat ->
  bety_rows st = [] ->
  stale (length field_names) (values st) ->
  (Forall (fun f => goes_through o field_names f = false) filenames /\
   (loop filenames st).1 = Return tt /\
   bety_rows (loop filenames st).2 = [] /\
   loop_world (loop filenames st).2 = loop_world st /\
   calc_calls (loop filenames st).2
     = (calc_calls st ++ List.filter (read_pixels o) filenames)%list)
  \/
  (exists pre f rest,
      filenames = (pre ++ f :: rest)%list /\
      Forall (fun f => goes_through o field_names f = false) pre /\
      goes_through o field_names f = true /\
      read_pixels o f = true /\
      dict_or_scalar (calculate o f) /\
      calc_calls (loop filenames st).2
        = (calc_calls st ++ List.filter (read_pixels o) pre ++ [f])%list /\
      exists csv_data,
        bety_rows (loop filenames st).2
        = if create_csv_files || store_in_betydb then [csv_data] else []).
Proof.
  induction filenames as [|f fs IH]; intros st Hn Hrows Hstale.
  - left. cbn. rewrite app_nil_r. auto.
  - rewrite image_loop_cons.
    pose proof (image_try_cases f st) as (Hc & Hw & Hcase).
    pose proof (image_try_through f st Hstale) as Hthrough.
    destruct (try_image f st) as [[u|e] st1] eqn:Et;
      cbn [fst snd] in Hc, Hw, Hcase, Hthrough.
    + right. destruct Hcase as (Hread & (csv_data & Hcsv) & Hds).
      rewrite Hrows in Hcsv. rewrite Hread in Hc.
      pose proof (image_output_frame f st1) as (Hr2 & Hc2).
      assert (Hfinal : forall st2,
                 bety_rows st2 = bety_rows st1 -> calc_calls st2 = calc_calls st1 ->
                 calc_calls st2
                 = (calc_calls st ++ List.filter (read_pixels o) [] ++ [f])%list /\
                 exists csv_data,
                   bety_rows st2
                   = if create_csv_files || store_in_betydb then [csv_data] else []).
      { intros st2 E1 E2. rewrite E1, E2, Hc. split; [reflexivity|].
        exists csv_data. rewrite Hcsv. now destruct (_ || _). }
      exists [], f, fs. split; [reflexivity|]. split; [constructor|].
      split; [exact Hthrough|]. split; [exact Hread|].
      split; [now apply Hds|].
      destruct (output_image f st1) as [[u2|e2] st2]; cbn [fst snd] in Hr2, Hc2.
      * destruct (1 <? num_loaded_files)%nat eqn:En.
        -- cbn [snd]. now apply Hfinal.
        -- apply Nat.ltb_ge in En.
           destruct Hn as [Hn|Hn]; [lia|]. destruct fs; [|simpl in Hn; lia].
           cbn [image_loop snd]. now apply Hfinal.
      * cbn [snd]. now apply Hfinal.
    + destruct Hcase as (Hr1 & Hs1).
      destruct (IH st1) as [(Hnone & Hres & Hr & Hwd & Hcalls)
                           |(pre & f0 & rest & -> & Hpre & Hf0 & Hread & Hds
                             & Hcalls & Hcsv)].
      * destruct Hn as [Hn|Hn]; [now left|right; simpl in Hn; lia].
      * now rewrite Hr1.
      * now apply Hs1.
      * left. split; [now constructor|]. split; [exact Hres|].
        split; [exact Hr|]. split; [now rewrite Hwd|].
        rewrite Hcalls, Hc. cbn [List.filter]. rewrite <- app_assoc.
        now destruct (read_pixels o f).
      * right. exists (f :: pre), f0, rest. split; [reflexivity|].
        split; [now constructor|]. split; [exact Hf0|].
        split; [exact Hread|]. split; [exact Hds|]. split; [|exact Hcsv].
        rewrite Hcalls, Hc. cbn [List.filter]. rewrite <- !app_assoc.
        now destruct (read_pixels o f).
Qed.
End Loop.

(** ** [process_files] *)

(** The two ways a run over loaded files can go: no file goes through
    and nothing is produced or written; or the run stops at the first
    file [f] that goes through. *)
Lemma process_files_cases (o : oracle) (cfg : configuration) (g : globals)
  (germplasm_name experiment_name timestamp plot_name : string)
  (images_list metadata_list : list string) (w : world)
  (loaded : list (string * polygon)) (field_names : list string) :
  load_image_files o images_list = Return loaded ->
  FIELD_NAME_LIST g = Some field_names ->
  let r := process_files o cfg g germplasm_name experiment_name timestamp
             plot_name images_list metadata_list w in
  (Forall (fun f => goes_through o field_names f = false) (map fst loaded) /\
   run_result r = Return tt /\ run_rows r = [] /\ run_world r = w /\
   run_calls r = List.filter (read_pixels o) (map fst loaded))
  \/
  (exists pre f rest,
      map fst loaded = (pre ++ f :: rest)%list /\
      Forall (fun f => goes_through o field_names f = false) pre /\
      goes_through o field_names f = true /\
      read_pixels o f = true /\
      dict_or_scalar (calculate o f) /\
      run_calls r = (List.filter (read_pixels o) pre ++ [f])%list /\
      exists csv_data,
        run_rows r
        = if create_csv_files_of cfg || store_in_betydb_of cfg
          then [csv_data] else []).
Proof.
  intros Hload Hfields. unfold process_files. rewrite Hload.
  destruct (length loaded <=? 0)%nat eqn:Elen.
  { apply Nat.leb_le in Elen. destruct loaded; [|simpl in Elen; lia].
    left. cbn. auto. }
  unfold get_bety_traits_table, get_bety_fields. rewrite Hfields.
  match goal with
  | |- context [image_loop ?o ?g ?fn ?bf ?en ?pn ?lt ?hd ?cc ?sb ?n ?fs ?st] =>
      pose proof (image_loop_cases o g fn bf en pn lt hd cc sb n fs st) as Hloop;
      destruct (image_loop o g fn bf en pn lt hd cc sb n fs st) as [res st'] eqn:El
  end.
  specialize (Hloop ltac:(rewrite length_map; lia) eq_refl I).
  cbn [fst snd calc_calls loop_world app] in Hloop.
  destruct Hloop as [(Hnone & Hres & Hr & Hwd & Hcalls)
                    |(pre & f & rest & Hsplit & Hpre & Hf & Hread & Hds & Hcalls
                      & csv_data & Hcsv)].
  - left. subst res. rewrite Hr. split; [exact Hnone|].
    destruct (store_in_betydb_of cfg); cbn; rewrite ?Hr; auto.
  - right. exists pre, f, rest. split; [exact Hsplit|]. split; [exact Hpre|].
    split; [exact Hf|]. split; [exact Hread|]. split; [exact Hds|].
    assert (Hgoal : forall res w',
               run_calls (Run res (calc_calls st') (bety_rows st') (bety_traits st') w')
               = (List.filter (read_pixels o) pre ++ [f])%list /\
               exists csv_data,
                 run_rows (Run res (calc_calls st') (bety_rows st') (bety_traits st') w')
                 = if create_csv_files_of cfg || store_in_betydb_of cfg
                   then [csv_data] else []).
    { intros res0 w'. cbn. split; [exact Hcalls|]. now exists csv_data. }
    destruct res as [u|e]; [|apply Hgoal].
    destruct (store_in_betydb_of cfg) eqn:Es; [|apply Hgoal].
    destruct (bety_rows st') as [|row rows]; [apply Hgoal|].
    destruct (update_betydb _ _ _ _) as [ur uw]. apply Hgoal.
Qed.

(** C1. When the algorithm returns a list or a tuple for every image,
    of whatever length, no image is reconciled: the run produces no trait
    row and writes nothing, although the algorithm was called on every
    readable image. The errors stay inside the loop: the run itself
    returns normally. *)
Theorem sequence_result_yields_no_row (o : oracle) (cfg : configuration)
  (g : globals) (germplasm_name experiment_name timestamp plot_name : string)
  (images_list metadata_list : list string) (w : world)
  (loaded : list (string * polygon)) (field_names : list string) :
  load_image_files o images_list = Return loaded ->
  FIELD_NAME_LIST g = Some field_names ->
  (forall f, f ∈ images_list ->
     exists items, calculate o f = Return (CalcList items) \/
                   calculate o f = Return (CalcTuple items)) ->
  let r := process_files o cfg g germplasm_name experiment_name timestamp
             plot_name images_list metadata_list w in
  run_result r = Return tt /\ run_rows r = [] /\ run_world r = w /\
  run_calls r = List.filter (read_pixels o) (map fst loaded).
Proof.
  intros Hload Hfields Hseq r.
  destruct (process_files_cases o cfg g germplasm_name experiment_name timestamp
              plot_name images_list metadata_list w loaded field_names
              Hload Hfields)
    as [(_ & H)|(pre & f & rest & Hsplit & _ & _ & _ & Hds & _)]; [exact H|].
  exfalso.
  assert (Hin : f ∈ images_list).
  { apply (load_image_files_keys o images_list loaded Hload).
    rewrite Hsplit. apply elem_of_app. right. apply elem_of_cons; now left. }
  destruct (Hseq f Hin) as (items & [E|E]); rewrite E in Hds; exact Hds.
Qed.

Lemma sequence_result_yields_no_row_witness :
  run_rows (process_files list_oracle example_configuration example_globals
              "B73" "Exp1" "2020-06-01" "Plot_12" ["d/a.tif"] [] empty_world) = [] /\
  run_calls (process_files list_oracle example_configuration example_globals
               "B73" "Exp1" "2020-06-01" "Plot_12" ["d/a.tif"] [] empty_world)
  = ["d/a.tif"].
Proof.
  pose proof example_globals_field_names as H.
  pose proof (sequence_result_yields_no_row list_oracle example_configuration
                example_globals "B73" "Exp1" "2020-06-01" "Plot_12" ["d/a.tif"] []
                empty_world
                [("d/a.tif", Polygon [bounds_ring example_geobounds] (Some 4326%Z))]
                ["canopy_cover"] eq_refl H
                (fun f _ => ex_intro _ ["0.42"] (or_introl eq_refl))) as Hrun.
  cbv zeta in Hrun. destruct Hrun as (_ & Hrows & _ & Hcalls).
  split; [exact Hrows | exact Hcalls].
Defined.




(** * Further properties of the code *)

(** ** [_get_open_backoff]: range and random source *)

(** A float delay lies between 0 and [MAX_FILE_OPEN_SLEEP_SEC]. *)
Lemma float_delay_range (x : spec_float) :
  float_delay x = true ->
  SFleb (S754_zero false) x = true /\
  SFleb x (float_of_Z MAX_FILE_OPEN_SLEEP_SEC) = true.
Proof.
  destruct x as [s|s| |[] m e]; try discriminate.
  - intros _. rewrite float_of_max_sleep. split; reflexivity.
  - cbn [float_delay]. intros H. apply andb_prop in H. destruct H as [_ H].
    split; [reflexivity|exact H].
Qed.

(** For a previous delay, a number from 0 to 30, or none,
    [_get_open_backoff] raises nothing and returns a delay again,
    whatever the generator draws: the integer 1, or a float between 0 and
    [MAX_FILE_OPEN_SLEEP_SEC]. *)
Theorem get_open_backoff_bounded (o : oracle) (prev : option number) (w : world) :
  (forall d, prev = Some d -> is_delay d = true) ->
  exists secs w',
    _get_open_backoff o prev w = (Return secs, w') /\
    is_delay secs = true /\
    (prev = None -> secs = PyInt 1) /\
    (forall x, secs = PyFloat x ->
       SFleb (S754_zero false) x = true /\
       SFleb x (float_of_Z MAX_FILE_OPEN_SLEEP_SEC) = true).
Proof.
  intros Hprev.
  destruct (get_open_backoff_delay o prev w Hprev) as (secs & Hs & Hd).
  exists secs, (_get_open_backoff o prev w).2.
  split; [rewrite <- Hs; apply surjective_pairing|]. split; [exact Hd|].
  split.
  - intros ->. cbn in Hs. now injection Hs as <-.
  - intros x ->. now apply float_delay_range.
Qed.

Lemma get_open_backoff_bounded_witness :
  exists secs w',
    _get_open_backoff example_oracle
      (Some (PyFloat (S754_finite false 5573204538870989 (-49)))) empty_world
    = (Return secs, w') /\
    is_delay secs = true.
Proof.
  destruct (get_open_backoff_bounded example_oracle
              (Some (PyFloat (S754_finite false 5573204538870989 (-49))))
              empty_world) as (secs & w' & H & Hd & _).
  - intros d [= <-]. reflexivity.
  - exists secs, w'. split; [exact H | exact Hd].
Defined.

Lemma get_open_backoff_generator o prev w :
  RANDOM_GENERATOR w <> GenSystemRandom ->
  sys_draws (_get_open_backoff o prev w).2 = sys_draws w /\
  RANDOM_GENERATOR (_get_open_backoff o prev w).2 <> GenSystemRandom.
Proof.
  intros H. unfold _get_open_backoff, draw_multiplier, init_generator,
    py_random, py_system_random, set_generator.
  destruct prev as [prev|]; [|auto].
  destruct (RANDOM_GENERATOR w) eqn:E; [| contradiction |];
    cbn; rewrite ?E; cbn; rewrite ?E; split; auto; discriminate.
Qed.

Lemma open_loop_generator o f : forall range prev w,
  RANDOM_GENERATOR w <> GenSystemRandom ->
  sys_draws (open_loop o f range prev w).2 = sys_draws w /\
  RANDOM_GENERATOR (open_loop o f range prev w).2 <> GenSystemRandom.
Proof.
  induction range as [|tries range IH]; intros prev w H; cbn [open_loop].
  - auto.
  - unfold py_open_append. destruct (open_ok o (opens w)); [cbn; auto|].
    match goal with
    | |- context [(tries <? ?n)%nat] => destruct (tries <? n)%nat
    end.
    + match goal with
      | |- context [_get_open_backoff o prev ?w0] =>
          pose proof (get_open_backoff_generator o prev w0 H) as [Hs Hg];
          destruct (_get_open_backoff o prev w0) as [[secs|e] w1]
      end; cbn [snd] in Hs, Hg.
      * destruct (IH (Some secs) (time_sleep secs w1) Hg) as [Hs' Hg'].
        split; [|exact Hg']. rewrite Hs'. exact Hs.
      * cbn [snd]. auto.
    + match goal with
      | |- context [open_loop o f range prev ?w0] =>
          destruct (IH prev w0 H) as [Hs' Hg']
      end.
      split; [|exact Hg']. rewrite Hs'. reflexivity.
Qed.

(** Started with [RANDOM_GENERATOR] unset or [0], as the module leaves
    it, [write_csv_file] never draws from a [SystemRandom] generator: the
    [finally] clause of the lazy initialisation resets the generator to
    [0], so every delay is drawn with [random.random()]. *)
Theorem write_csv_file_never_uses_system_random (o : oracle)
  (filename header data : option string) (w : world) :
  RANDOM_GENERATOR w <> GenSystemRandom ->
  sys_draws (write_csv_file o filename header data w).2 = sys_draws w /\
  RANDOM_GENERATOR (write_csv_file o filename header data w).2
    <> GenSystemRandom.
Proof.
  intros H. unfold write_csv_file.
  destruct (negb (str_truthy filename) || negb (str_truthy data)); [auto|].
  match goal with
  | |- context [open_loop o ?f ?r ?p w] =>
      pose proof (open_loop_generator o f r p w H) as [Hs Hg];
      destruct (open_loop o f r p w) as [[[csv_file|]|e] w1]
  end; cbn [snd] in Hs, Hg; [|auto|auto].
  unfold write_body, file_write.
  destruct (st_size csv_file w1 <=? 0)%nat, (str_truthy header);
    repeat (match goal with
            | |- context [write_ok o ?n] => destruct (write_ok o n)
            end; cbn);
    auto.
Qed.

Lemma write_csv_file_never_uses_system_random_witness :
  sys_draws (write_csv_file example_oracle (Some "out.csv") (Some "a,b")
               (Some "1,2") empty_world).2 = 0%nat.
Proof.
  apply (write_csv_file_never_uses_system_random example_oracle
           (Some "out.csv") (Some "a,b") (Some "1,2") empty_world).
  discriminate.
Defined.

(** ** [write_csv_file]: giving up, and a write that fails *)

(** When every open fails, the loop over what is left of the tries, up
    to the last one, opens once per try and sleeps after every try but
    the last. *)
Lemma open_loop_all_fail o f : forall n first prev w,
  (first + n = MAX_CSV_FILE_OPEN_TRIES)%nat ->
  (forall i, (i < n)%nat -> open_ok o (opens w + i) = false) ->
  (forall d, prev = Some d -> is_delay d = true) ->
  exists secs w',
    open_loop o f (seq first n) prev w = (Return None, w') /\
    opens w' = (opens w + n)%nat /\
    length secs = (n - 1)%nat /\
    trace w' = (trace w ++ match n with
                           | O => []
                           | S _ => failed_attempts f secs
                           end)%list /\
    Forall (fun s => is_delay s = true) secs /\
    (prev = None -> (2 <= n)%nat -> head secs = Some (PyInt 1)).
Proof.
  induction n as [|n IH]; intros first prev w Hlast Hfail Hprev.
  - exists [], w. cbn. rewrite app_nil_r, Nat.add_0_r. repeat split; auto.
    intros _ H. lia.
  - cbn [seq open_loop]. unfold py_open_append.
    assert (H0 : open_ok o (opens w) = false).
    { rewrite <- (Nat.add_0_r (opens w)). apply Hfail. lia. }
    rewrite H0.
    assert (Hfail' : forall w0, opens w0 = S (opens w) ->
              forall i, (i < n)%nat -> open_ok o (opens w0 + i) = false).
    { intros w0 E i Hi. rewrite E.
      replace (S (opens w) + i)%nat with (opens w + S i)%nat by lia.
      apply Hfail. lia. }
    unfold MAX_CSV_FILE_OPEN_TRIES in *.
    destruct (Nat.ltb_spec first (10 - 1)) as [Ht|Ht].
    + match goal with
      | |- context [_get_open_backoff o prev ?w0] =>
          destruct (get_open_backoff_delay o prev w0 Hprev) as (s & Hs & Hd);
          pose proof (get_open_backoff_frame o prev w0) as Hframe;
          assert (Hone : prev = None -> s = PyInt 1)
            by (intros ->; cbn in Hs; now injection Hs as <-);
          destruct (_get_open_backoff o prev w0) as [r w1]
      end.
      cbn [fst] in Hs. subst r. cbn [snd] in Hframe.
      destruct Hframe as (_ & _ & Ho & _ & Htr). cbn [opens trace] in Ho, Htr.
      destruct (IH (S first) (Some s) (time_sleep s w1)) as
        (secs & w' & Hl & Hop & Hlen & Htrace & Hall & _).
      * lia.
      * apply Hfail'. exact Ho.
      * now intros d [= <-].
      * destruct n as [|n]; [lia|].
        exists (s :: secs), w'. split; [exact Hl|].
        cbn [time_sleep emit trace opens] in Htrace, Hop.
        split; [lia|]. split; [cbn [length]; lia|].
        split; [rewrite Htrace, Htr; unfold failed_attempts; cbn [flat_map];
                now rewrite <- !app_assoc|].
        split; [now constructor|]. intros Hp _. cbn [head]. now rewrite Hone.
    + assert (n = 0)%nat by lia. subst n. cbn [seq open_loop].
      exists []. eexists. split; [reflexivity|]. cbn [opens trace length].
      split; [lia|]. split; [reflexivity|]. split; [reflexivity|].
      split; [constructor|]. intros _ H. lia.
Qed.

(** When none of the [MAX_CSV_FILE_OPEN_TRIES] opens succeeds,
    [write_csv_file] returns [False]. What it did is: ten tries to open
    the file, with a sleep after each of the first nine and none after
    the last; the first sleep lasts 1 second and each lasts between 0
    and 30 seconds. No file is created or changed, nothing is written
    and no file object is left open. *)
Theorem write_csv_file_gives_up (o : oracle) (f d : string)
  (header : option string) (w : world) :
  f <> "" -> d <> "" ->
  (forall i, (i < MAX_CSV_FILE_OPEN_TRIES)%nat -> open_ok o (opens w + i) = false) ->
  exists secs w',
    write_csv_file o (Some f) header (Some d) w = (Return false, w') /\
    files w' = files w /\ handles w' = handles w /\ writes w' = writes w /\
    opens w' = (opens w + 10)%nat /\
    length secs = 9%nat /\
    trace w' = (trace w ++ failed_attempts f secs)%list /\
    head secs = Some (PyInt 1) /\
    Forall (fun s => is_delay s = true) secs.
Proof.
  intros Hf Hd Hfail.
  destruct (write_csv_file_unfold o f d header w Hf Hd)
    as (csv_file & w1 & Hl & ->).
  destruct (open_loop_all_fail o f MAX_CSV_FILE_OPEN_TRIES 0 None w eq_refl Hfail)
    as (secs & w' & Hl' & Hop & Hlen & Htr & Hall & Hone); [discriminate|].
  rewrite Hl in Hl'. injection Hl' as -> ->.
  pose proof (open_loop_frame o f _ _ _ _ _ Hl) as (Hw & Hfs & Hhs & _).
  exists secs, w'. split; [reflexivity|]. repeat split; auto.
  apply Hone; [reflexivity|]. unfold MAX_CSV_FILE_OPEN_TRIES. lia.
Qed.

Lemma write_csv_file_gives_up_witness :
  exists secs w',
    write_csv_file (Oracle (fun _ => false) (fun _ => true) (fun _ => half)
                      (fun _ => quarter) (http_post example_oracle)
                      (image_get_geobounds example_oracle)
                      (get_epsg example_oracle) (import_from_epsg example_oracle)
                      (json_load example_oracle) (read_pixels example_oracle)
                      (calculate example_oracle) (sidecar_text example_oracle))
                   (Some "out.csv") None (Some "1,2") empty_world
    = (Return false, w') /\
    trace w' = (trace empty_world ++ failed_attempts "out.csv" secs)%list /\
    length secs = 9%nat.
Proof.
  destruct (write_csv_file_gives_up
              (Oracle (fun _ => false) (fun _ => true) (fun _ => half)
                 (fun _ => quarter) (http_post example_oracle)
                 (image_get_geobounds example_oracle)
                 (get_epsg example_oracle) (import_from_epsg example_oracle)
                 (json_load example_oracle) (read_pixels example_oracle)
                 (calculate example_oracle) (sidecar_text example_oracle))
              "out.csv" "1,2" None empty_world)
    as (secs & w' & H1 & _ & _ & _ & _ & H3 & H2 & _).
  - discriminate.
  - discriminate.
  - reflexivity.
  - exists secs, w'. auto.
Defined.

Lemma open_loop_first_try o f tries range prev w :
  open_ok o (opens w) = true ->
  open_loop o f (tries :: range) prev w
  = (Return (Some f),
     World (touch f (files w)) (f :: handles w) (RANDOM_GENERATOR w)
           (S (opens w)) (writes w) (draws w) (sys_draws w)
           (trace w ++ [EvOpen f true])).
Proof.
  intros H. cbn [open_loop]. unfold py_open_append. now rewrite H.
Qed.

(** [write_csv_file] with a file name and data, when the first open
    succeeds. *)
Lemma write_csv_file_first_open o f d header w :
  f <> "" -> d <> "" -> open_ok o (opens w) = true ->
  write_csv_file o (Some f) header (Some d) w =
    (let '(r, w) :=
       write_body o f header d
         (World (touch f (files w)) (f :: handles w) (RANDOM_GENERATOR w)
                (S (opens w)) (writes w) (draws w) (sys_draws w)
                (trace w ++ [EvOpen f true])) in
     (Return match r with Return _ => true | Raise _ => false end,
      file_close f w)).
Proof.
  intros Hf Hd Hopen.
  destruct (write_csv_file_unfold o f d header w Hf Hd)
    as (csv_file & w1 & Hl & ->).
  change (seq 0 MAX_CSV_FILE_OPEN_TRIES) with (0%nat :: seq 1 9) in Hl.
  rewrite (open_loop_first_try o f 0%nat (seq 1 9) None w Hopen) in Hl.
  now injection Hl as <- <-.
Qed.

(** When the file is new, the header goes through and the write of the
    data raises, [write_csv_file] returns [False], closes the file and
    leaves it with the header line alone. *)
Theorem write_csv_file_failed_data_write (o : oracle) (f d h : string) (w : world) :
  f <> "" -> d <> "" -> h <> "" ->
  files w !! f = None ->
  open_ok o (opens w) = true ->
  write_ok o (writes w) = true -> write_ok o (S (writes w)) = false ->
  exists w',
    write_csv_file o (Some f) (Some h) (Some d) w = (Return false, w') /\
    files w' !! f = Some (h +:+ newline) /\
    handles w' = handles w.
Proof.
  intros Hf Hd Hh Hnew Hopen Hw1 Hw2.
  rewrite (write_csv_file_first_open o f d (Some h) w Hf Hd Hopen).
  unfold write_body, st_size, file_write, touch.
  cbn [files handles writes]. rewrite Hnew, lookup_insert_eq.
  cbn [String.length Nat.leb]. rewrite (str_truthy_Some h Hh), Hw1.
  cbn [files handles writes default]. rewrite Hw2.
  eexists. split; [reflexivity|]. cbn [file_close files handles].
  rewrite lookup_insert_eq, remove_handle_head. split; reflexivity.
Qed.

Lemma write_csv_file_failed_data_write_witness :
  exists w',
    write_csv_file (Oracle (fun _ => true) (fun i => Nat.eqb i 0) (fun _ => half)
                      (fun _ => quarter) (http_post example_oracle)
                      (image_get_geobounds example_oracle)
                      (get_epsg example_oracle) (import_from_epsg example_oracle)
                      (json_load example_oracle) (read_pixels example_oracle)
                      (calculate example_oracle) (sidecar_text example_oracle))
                   (Some "out.csv") (Some "a,b") (Some "1,2") empty_world
    = (Return false, w') /\
    files w' !! "out.csv" = Some ("a,b" +:+ newline) /\
    handles w' = handles empty_world.
Proof.
  apply write_csv_file_failed_data_write;
    [discriminate | discriminate | discriminate | reflexivity..].
Defined.

(** ** Strings as lists of characters *)

Lemma chars_text (cs : list ascii) : chars (text cs) = cs.
Proof. apply list_ascii_of_string_of_list_ascii. Qed.

Lemma text_chars (s : string) : text (chars s) = s.
Proof. apply string_of_list_ascii_of_string. Qed.

Lemma chars_inj (s t : string) : chars s = chars t -> s = t.
Proof. intros H. rewrite <- (text_chars s), <- (text_chars t). now f_equal. Qed.

Lemma text_app (a b : list ascii) : text (a ++ b) = text a +:+ text b.
Proof.
  induction a as [|x a IH]; [reflexivity|].
  change (String x (text (a ++ b)) = String x (text a +:+ text b)).
  now rewrite IH.
Qed.

Lemma chars_app (s t : string) : chars (s +:+ t) = (chars s ++ chars t)%list.
Proof.
  rewrite <- (chars_text (chars s ++ chars t)), text_app, !text_chars.
  reflexivity.
Qed.

Lemma length_chars (s : string) : length (chars s) = String.length s.
Proof.
  induction s as [|c s IH]; [reflexivity|].
  change (S (length (chars s)) = S (String.length s)). now rewrite IH.
Qed.

Lemma existsb_eqb_elem (c : ascii) (cs : list ascii) :
  existsb (Ascii.eqb c) cs = true <-> c ∈ cs.
Proof.
  rewrite existsb_exists, list_elem_of_In. split.
  - intros (x & Hin & E). apply Ascii.eqb_eq in E. now subst.
  - intros H. exists c. split; [exact H|apply Ascii.eqb_refl].
Qed.

Lemma contains_char_elem (c : ascii) (s : string) :
  contains_char c s = true <-> c ∈ chars s.
Proof. apply existsb_eqb_elem. Qed.

Lemma contains_char_false (c : ascii) (s : string) :
  contains_char c s = false <-> c ∉ chars s.
Proof.
  rewrite <- contains_char_elem.
  destruct (contains_char c s); intuition congruence.
Qed.

(** ** [__str_to_path] *)

Lemma chars_replace_char (old new : ascii) (s : string) :
  chars (replace_char old new s)
  = map (fun c => if Ascii.eqb c old then new else c) (chars s).
Proof. unfold replace_char. apply chars_text. Qed.

Lemma chars_replace_all (olds : list ascii) : forall s,
  chars (fold_left (fun return_str c => replace_char c "_"%char return_str) olds s)
  = map (fun x => if existsb (Ascii.eqb x) olds then "_"%char else x) (chars s).
Proof.
  induction olds as [|c olds IH]; intros s; cbn [fold_left existsb].
  - now rewrite map_id.
  - rewrite IH, chars_replace_char, map_map. apply map_ext. intros x.
    destruct (Ascii.eqb x c) eqn:E; cbn [orb]; [|reflexivity].
    now destruct (existsb (Ascii.eqb "_"%char) olds).
Qed.

(** [__str_to_path] keeps the length of its argument and every character
    that is not one of the thirteen it converts, in place; the result
    holds none of the thirteen; converting twice is converting once, and
    a string that holds none of them is returned as it is. *)
Theorem str_to_path_is_path_safe (target : string) :
  chars (__str_to_path target)
  = map (fun c => if bool_decide (c ∈ path_unsafe_chars) then "_"%char else c)
        (chars target) /\
  String.length (__str_to_path target) = String.length target /\
  (forall c, c ∈ chars (__str_to_path target) -> c ∉ path_unsafe_chars) /\
  __str_to_path (__str_to_path target) = __str_to_path target /\
  ((forall c, c ∈ chars target -> c ∉ path_unsafe_chars) ->
   __str_to_path target = target).
Proof.
  assert (Hchars : forall s,
             chars (__str_to_path s)
             = map (fun c => if bool_decide (c ∈ path_unsafe_chars)
                             then "_"%char else c) (chars s)).
  { intros s. unfold __str_to_path. rewrite chars_replace_all.
    apply map_ext. intros c.
    destruct (existsb (Ascii.eqb c) path_unsafe_chars) eqn:E.
    - apply existsb_eqb_elem in E. now rewrite bool_decide_eq_true_2.
    - rewrite bool_decide_eq_false_2; [reflexivity|].
      rewrite <- existsb_eqb_elem, E. discriminate. }
  assert (Hsafe : forall s c, c ∈ chars (__str_to_path s) -> c ∉ path_unsafe_chars).
  { intros s c. rewrite Hchars, list_elem_of_In, in_map_iff.
    intros (x & <- & _). destruct (bool_decide (x ∈ path_unsafe_chars)) eqn:E.
    - rewrite <- existsb_eqb_elem. vm_compute. discriminate.
    - apply bool_decide_eq_false in E. exact E. }
  assert (Hid : forall s, (forall c, c ∈ chars s -> c ∉ path_unsafe_chars) ->
                          __str_to_path s = s).
  { intros s H. apply chars_inj. rewrite Hchars.
    rewrite <- (map_id (chars s)) at 2. apply map_ext_in. intros c Hc.
    apply list_elem_of_In in Hc. now rewrite bool_decide_eq_false_2 by auto. }
  split; [apply Hchars|].
  split; [rewrite <- !length_chars, Hchars; apply length_map|].
  split; [apply Hsafe|]. split; [apply Hid, Hsafe|apply Hid].
Qed.

(** ** [init_extraction]: the sensor name and the field names *)

Lemma sensor_char_sanitised (x : ascii) :
  let c := lower_char
             ((fun c => if Ascii.eqb c "013"%char then "_"%char else c)
              ((fun c => if Ascii.eqb c "010"%char then "_"%char else c)
               ((fun c => if Ascii.eqb c "009"%char then "_"%char else c)
                ((fun c => if Ascii.eqb c " "%char then "_"%char else c) x)))) in
  c <> " "%char /\ c <> "009"%char /\ c <> "010"%char /\ c <> "013"%char /\
  (nat_of_ascii c < 65 \/ 90 < nat_of_ascii c)%nat /\
  ((nat_of_ascii x <? 128)%nat = true -> (nat_of_ascii c <? 128)%nat = true).
Proof.
  destruct x as [[] [] [] [] [] [] [] []]; vm_compute;
    (split; [discriminate|]); (split; [discriminate|]);
    (split; [discriminate|]); (split; [discriminate|]);
    (split; [first [left; lia | right; lia] | auto]).
Qed.

Lemma lstrip_chars_subset (x : ascii) (cs : list ascii) :
  x ∈ lstrip_chars cs -> x ∈ cs.
Proof.
  induction cs as [|c cs IH]; [easy|]. cbn [lstrip_chars].
  destruct (is_space c); [|easy]. intros H. apply elem_of_cons. right. auto.
Qed.

Lemma elem_of_rev {A} (x : A) (l : list A) : x ∈ rev l <-> x ∈ l.
Proof. rewrite !list_elem_of_In. symmetry. apply in_rev. Qed.

(** For an ASCII extractor name, the sensor name [init_extraction]
    derives from it is ASCII too, holds no space, tab, line feed or
    carriage return and no upper-case letter, and is never longer than
    the name. *)
Theorem sensor_name_is_sanitised (name : string) :
  is_ascii name = true ->
  is_ascii (sensor_name_of name) = true /\
  (forall c, c ∈ chars (sensor_name_of name) ->
     c <> " "%char /\ c <> "009"%char /\ c <> "010"%char /\ c <> "013"%char /\
     (nat_of_ascii c < 65 \/ 90 < nat_of_ascii c)%nat) /\
  (String.length (sensor_name_of name) <= String.length name)%nat.
Proof.
  intros Hascii. unfold sensor_name_of, lower. split; [|split].
  - unfold is_ascii in *. rewrite forallb_forall in Hascii. apply forallb_forall.
    intros c. rewrite chars_text, !chars_replace_char, !map_map.
    rewrite in_map_iff. intros (x & <- & Hx).
    apply sensor_char_sanitised, Hascii.
    unfold strip in Hx. rewrite chars_text in Hx.
    apply list_elem_of_In, elem_of_rev, lstrip_chars_subset, elem_of_rev,
      lstrip_chars_subset in Hx.
    now apply list_elem_of_In.
  - intros c. rewrite chars_text, !chars_replace_char, !map_map.
    rewrite list_elem_of_In, in_map_iff. intros (x & <- & _).
    pose proof (sensor_char_sanitised x) as H. cbv zeta in H. tauto.
  - rewrite <- !length_chars, chars_text, !chars_replace_char, !length_map.
    unfold strip. rewrite chars_text, length_rev.
    assert (L : forall cs, (length (lstrip_chars cs) <= length cs)%nat).
    { induction cs as [|c cs IH]; [reflexivity|]. cbn [lstrip_chars].
      destruct (is_space c); cbn [length]; lia. }
    etransitivity; [apply L|]. rewrite length_rev. apply L.
Qed.

Lemma sensor_name_is_sanitised_witness :
  is_ascii (sensor_name_of " Canopy Cover ") = true /\
  (String.length (sensor_name_of " Canopy Cover ")
   <= String.length " Canopy Cover ")%nat.
Proof.
  destruct (sensor_name_is_sanitised " Canopy Cover " eq_refl) as (H1 & _ & H2).
  split; [exact H1 | exact H2].
Defined.

Lemma concat_cons2 (sep x y : string) (l : list string) :
  String.concat sep (x :: y :: l) = x +:+ sep +:+ String.concat sep (y :: l).
Proof. reflexivity. Qed.

Lemma split_chars_spec (sep : ascii) : forall cs cur,
  sep ∉ cur ->
  split_chars sep cur cs <> [] /\
  String.concat (String sep "") (split_chars sep cur cs) = text (rev cur ++ cs) /\
  Forall (fun part => contains_char sep part = false) (split_chars sep cur cs).
Proof.
  induction cs as [|c cs IH]; intros cur Hcur; cbn [split_chars].
  - split; [discriminate|]. split; [now rewrite app_nil_r|].
    constructor; [|constructor]. apply contains_char_false.
    rewrite chars_text, elem_of_rev. exact Hcur.
  - destruct (Ascii.eqb c sep) eqn:E.
    + apply Ascii.eqb_eq in E. subst c.
      destruct (IH [] ltac:(apply not_elem_of_nil)) as (Hne & Hcat & Hall).
      split; [discriminate|]. split.
      * destruct (split_chars sep [] cs) as [|y l] eqn:Es; [contradiction|].
        rewrite concat_cons2, Hcat. cbn [rev app].
        now rewrite text_app.
      * constructor; [|exact Hall]. apply contains_char_false.
        rewrite chars_text, elem_of_rev. exact Hcur.
    + apply Ascii.eqb_neq in E.
      destruct (IH (c :: cur)) as (Hne & Hcat & Hall).
      * intros H. apply elem_of_cons in H. destruct H; [congruence|contradiction].
      * split; [exact Hne|]. split; [|exact Hall].
        rewrite Hcat. cbn [rev]. now rewrite <- app_assoc.
Qed.

(** After [init_extraction], [FIELD_NAME_LIST] is a non-empty list of
    names without a comma whose join with commas is
    [configuration.VARIABLE_NAMES]: nothing of the setting is lost, and an
    empty setting gives the single field name [""]. *)
Theorem field_name_list_round_trip (cfg : configuration) (name : string)
  (method_name : option string) (g0 g : globals) :
  init_extraction cfg (Some name) method_name g0 = (Return tt, g) ->
  exists names,
    FIELD_NAME_LIST g = Some names /\
    names <> [] /\
    VARIABLE_NAMES cfg = Some (join "," names) /\
    Forall (fun field_name => contains_char ","%char field_name = false) names.
Proof.
  intros H. apply init_extraction_field_names in H.
  destruct H as (variable_names & -> & ->).
  eexists. split; [reflexivity|].
  destruct (contains_char ","%char variable_names) eqn:E.
  - unfold split, join.
    destruct (split_chars_spec ","%char (chars variable_names) [])
      as (Hne & Hcat & Hall); [apply not_elem_of_nil|].
    split; [exact Hne|]. split; [|exact Hall].
    rewrite Hcat. cbn [rev app]. now rewrite text_chars.
  - split; [discriminate|]. split; [reflexivity|]. now constructor.
Qed.

Lemma field_name_list_round_trip_witness :
  exists names,
    FIELD_NAME_LIST example_globals = Some names /\
    names <> [] /\
    VARIABLE_NAMES example_configuration = Some (join "," names) /\
    Forall (fun field_name => contains_char ","%char field_name = false) names.
Proof.
  apply (field_name_list_round_trip example_configuration "canopycover" None
           initial_globals example_globals).
  apply example_globals_initialised.
Defined.

(** ** The defaults table and [generate_traits_list] *)

(** The table [get_bety_traits_table] builds has an entry for each field
    and no other; the fields are the eight fixed ones followed by the
    variable fields; and [generate_traits_list] applied to the table
    gives the default of every field, in field order. *)
Theorem default_traits_table_round_trip (g : globals) (fields : list string)
  (traits : gmap string trait_value) :
  get_bety_traits_table g = Return (fields, traits) ->
  (exists names,
      FIELD_NAME_LIST g = Some names /\
      fields = (["local_datetime"; "access_level"; "species"; "site";
                 "citation_author"; "citation_year"; "citation_title";
                 "method"] ++ names)%list) /\
  (forall k, traits !! k
             = if bool_decide (k ∈ fields) then Some (get_default_trait g k)
               else None) /\
  generate_traits_list g fields traits = map (get_default_trait g) fields.
Proof.
  unfold get_bety_traits_table, get_bety_fields.
  destruct (FIELD_NAME_LIST g) as [names|]; [|discriminate].
  match goal with
  | |- Return (?l, _) = _ -> _ => remember l as fs eqn:Efs
  end.
  intros [= <- <-]. split; [now exists names|].
  split.
  { intros k. rewrite fold_insert_lookup.
    destruct (bool_decide _); [reflexivity|apply lookup_empty]. }
  unfold generate_traits_list. apply map_ext_in. intros k Hk.
  rewrite fold_insert_lookup.
  now rewrite bool_decide_eq_true_2 by (now apply list_elem_of_In).
Qed.

Lemma default_traits_table_round_trip_witness :
  generate_traits_list example_globals
    ["local_datetime"; "access_level"; "species"; "site"; "citation_author";
     "citation_year"; "citation_title"; "method"; "canopy_cover"]
    (fold_left (fun traits field_name =>
                  <[field_name := get_default_trait example_globals field_name]> traits)
       ["local_datetime"; "access_level"; "species"; "site"; "citation_author";
        "citation_year"; "citation_title"; "method"; "canopy_cover"] ∅)
  = map (get_default_trait example_globals)
      ["local_datetime"; "access_level"; "species"; "site"; "citation_author";
       "citation_year"; "citation_title"; "method"; "canopy_cover"].
Proof.
  apply default_traits_table_round_trip.
  unfold get_bety_traits_table, get_bety_fields.
  rewrite example_globals_field_names. reflexivity.
Defined.

(** ** [load_metadata]: files that do not load *)

(** A metadata file that cannot be opened or parsed, or that holds an
    empty mapping, is skipped: the result is the one the other files
    give. *)
Theorem load_metadata_skips_unloadable (o : oracle) (before after : list string)
  (one_file : string) :
  json_load o one_file = None \/ json_load o one_file = Some ∅ ->
  load_metadata o (before ++ one_file :: after) = load_metadata o (before ++ after).
Proof.
  intros H. unfold load_metadata. rewrite !fold_left_app. cbn [fold_left].
  f_equal. unfold load_one_metadata.
  destruct H as [-> | ->]; [reflexivity|].
  now destruct (decide (∅ = ∅)).
Qed.

Lemma load_metadata_skips_unloadable_witness :
  load_metadata example_oracle (["a.json"] ++ "missing.json" :: ["b.json"])
  = load_metadata example_oracle (["a.json"] ++ ["b.json"]).
Proof.
  apply load_metadata_skips_unloadable. left. reflexivity.
Defined.

(** ** [load_image_files]: when it returns *)

Lemma load_image_loop_returns o : forall paths acc,
  (exists loaded, load_image_loop o paths acc = Return loaded) <->
  Forall (fun f => exists code, get_epsg o f = Some code /\
                                import_from_epsg o code = true) paths.
Proof.
  induction paths as [|x paths IH]; intros acc; cbn [load_image_loop].
  - split; [constructor|]. intros _. now exists acc.
  - rewrite float_ne_nan, Forall_cons.
    destruct (get_epsg o x) as [code|].
    + destruct (import_from_epsg o code) eqn:Ei.
      * rewrite IH. split; [|tauto]. intros H. split; [|exact H]. now exists code.
      * split; [intros [? ?]; discriminate|].
        intros [(c & [= <-] & Hc) _]. congruence.
    + split; [intros [? ?]; discriminate|].
      intros [(c & Hc & _) _]. discriminate.
Qed.

(** [load_image_files] returns a mapping exactly when every file has an
    EPSG code that [ImportFromEPSG] accepts; otherwise it raises. In the
    mapping, the spatial reference of a file is its EPSG code. *)
Theorem load_image_files_returns_iff (o : oracle) (paths : list string) :
  ((exists loaded, load_image_files o paths = Return loaded) <->
   Forall (fun f => exists code, get_epsg o f = Some code /\
                                 import_from_epsg o code = true) paths) /\
  (forall loaded f poly,
      load_image_files o paths = Return loaded -> (f, poly) ∈ loaded ->
      spatial_reference poly = get_epsg o f /\ f ∈ paths).
Proof.
  split; [apply load_image_loop_returns|].
  intros loaded f poly Hload Hin. split.
  - unfold load_image_files in Hload.
    assert (Hex : exists loaded0, load_image_loop o paths [] = Return loaded0)
      by now exists loaded.
    apply load_image_loop_returns in Hex. rewrite Forall_forall in Hex.
    assert (Hinv : forall paths0 acc d,
               (forall f p, (f, p) ∈ acc -> spatial_reference p = get_epsg o f) ->
               load_image_loop o paths0 acc = Return d ->
               forall f p, (f, p) ∈ d -> spatial_reference p = get_epsg o f).
    { induction paths0 as [|x paths0 IH]; intros acc d Hacc; cbn [load_image_loop].
      - intros [= <-]. exact Hacc.
      - rewrite float_ne_nan.
        destruct (get_epsg o x) as [code|] eqn:Ex; [|discriminate].
        destruct (import_from_epsg o code); [|discriminate].
        apply IH. intros f0 p0 H0. apply dict_set_elem in H0.
        destruct H0 as [[= -> ->]|H0]; [now rewrite Ex|now apply Hacc]. }
    apply (Hinv paths [] loaded); [|exact Hload|exact Hin].
    intros ? ? H. now apply elem_of_nil in H.
  - apply (load_image_files_keys o paths loaded Hload).
    apply list_elem_of_In, in_map_iff. exists (f, poly).
    split; [reflexivity|now apply list_elem_of_In].
Qed.

(** The error [load_image_files] raises names the first file that has no
    EPSG code, when the files before it are in order. *)
Theorem load_image_files_missing_epsg (o : oracle) (before after : list string)
  (one_file : string) :
  Forall (fun f => exists code, get_epsg o f = Some code /\
                                import_from_epsg o code = true) before ->
  get_epsg o one_file = None ->
  load_image_files o (before ++ one_file :: after)
  = Raise (RuntimeError ("File is missing an EPSG code: " +:+ one_file)).
Proof.
  intros Hbefore Hnone. unfold load_image_files. generalize (@nil (string * polygon)).
  induction Hbefore as [|x before (code & Hx & Hi) _ IH]; intros acc;
    cbn [app load_image_loop]; rewrite float_ne_nan.
  - now rewrite Hnone.
  - rewrite Hx, Hi. apply IH.
Qed.

Lemma load_image_files_missing_epsg_witness :
  load_image_files plain_image_oracle (["b.tif"] ++ "plain.jpg" :: ["c.tif"])
  = Raise (RuntimeError ("File is missing an EPSG code: " +:+ "plain.jpg")).
Proof.
  apply load_image_files_missing_epsg.
  - constructor; [|constructor]. exists 4326%Z. split; reflexivity.
  - reflexivity.
Defined.

(** ** The local time of [process_files] *)

Lemma find_from_not_in (c : ascii) : forall cs i,
  c ∉ cs -> find_from c i cs = (-1)%Z.
Proof.
  induction cs as [|x cs IH]; intros i H; cbn [find_from]; [reflexivity|].
  apply not_elem_of_cons in H. destruct H as [Hx Hcs].
  destruct (Ascii.eqb x c) eqn:E; [apply Ascii.eqb_eq in E; congruence|].
  now apply IH.
Qed.

Lemma find_from_first (c : ascii) : forall cs i rest,
  c ∉ cs -> find_from c i (cs ++ c :: rest) = (i + Z.of_nat (length cs))%Z.
Proof.
  induction cs as [|x cs IH]; intros i rest H; cbn [app find_from length].
  - rewrite Ascii.eqb_refl. lia.
  - apply not_elem_of_cons in H. destruct H as [Hx Hcs].
    destruct (Ascii.eqb x c) eqn:E; [apply Ascii.eqb_eq in E; congruence|].
    rewrite IH by exact Hcs. lia.
Qed.

Lemma rfind_from_app (c : ascii) : forall cs i rest best,
  rfind_from c i (cs ++ rest) best
  = rfind_from c (i + Z.of_nat (length cs)) rest (rfind_from c i cs best).
Proof.
  induction cs as [|x cs IH]; intros i rest best; cbn [app rfind_from length].
  - now rewrite Z.add_0_r.
  - rewrite IH. f_equal. lia.
Qed.

Lemma rfind_from_not_in (c : ascii) : forall cs i best,
  c ∉ cs -> rfind_from c i cs best = best.
Proof.
  induction cs as [|x cs IH]; intros i best H; cbn [rfind_from]; [reflexivity|].
  apply not_elem_of_cons in H. destruct H as [Hx Hcs].
  destruct (Ascii.eqb x c) eqn:E; [apply Ascii.eqb_eq in E; congruence|].
  now apply IH.
Qed.

Lemma rfind_from_lt (c : ascii) : forall cs i best,
  (best < i + Z.of_nat (length cs))%Z ->
  (rfind_from c i cs best < i + Z.of_nat (length cs))%Z.
Proof.
  induction cs as [|x cs IH]; intros i best H; cbn [rfind_from length] in *.
  - exact H.
  - replace (i + Z.of_nat (S (length cs)))%Z
      with (i + 1 + Z.of_nat (length cs))%Z by lia.
    apply IH. destruct (Ascii.eqb x c); lia.
Qed.

(** A time stamp without a ['T'] is given the time 12:00:00 and is never
    cut, whatever hyphens it holds. *)
Theorem local_time_of_date (timestamp : string) :
  contains_char "T"%char timestamp = false ->
  local_time timestamp = timestamp +:+ "T12:00:00".
Proof.
  intros HT. unfold local_time. rewrite HT. cbn [negb].
  apply contains_char_false in HT.
  assert (Hfind : find "T"%char (timestamp +:+ "T12:00:00")
                  = Z.of_nat (length (chars timestamp))).
  { unfold find. rewrite chars_app.
    change (chars "T12:00:00") with ("T"%char :: chars "12:00:00").
    now rewrite find_from_first. }
  assert (Hrfind : (rfind "-"%char (timestamp +:+ "T12:00:00")
                    < Z.of_nat (length (chars timestamp)))%Z).
  { unfold rfind. rewrite chars_app, rfind_from_app.
    rewrite (rfind_from_not_in "-"%char (chars "T12:00:00")).
    - apply (rfind_from_lt "-"%char (chars timestamp) 0 (-1)). lia.
    - rewrite <- existsb_eqb_elem. vm_compute. discriminate. }
  rewrite Hfind.
  destruct (Z.ltb_spec (Z.of_nat (length (chars timestamp)))
              (rfind "-"%char (timestamp +:+ "T12:00:00"))) as [Hlt|_]; [lia|].
  now rewrite andb_false_r.
Qed.

Lemma local_time_of_date_witness :
  local_time "2020-06-01" = "2020-06-01" +:+ "T12:00:00".
Proof. apply local_time_of_date. reflexivity. Defined.

(** In a time stamp [date T time - offset], where the date is not empty
    and holds no ['T'] and the offset holds no hyphen, everything from
    the last hyphen on is dropped: the local time is [date T time]. *)
Theorem local_time_drops_negative_offset (date time offset : string) :
  date <> "" ->
  contains_char "T"%char date = false ->
  contains_char "-"%char offset = false ->
  local_time (date +:+ "T" +:+ time +:+ "-" +:+ offset) = date +:+ "T" +:+ time.
Proof.
  intros Hdate HT Hoff.
  apply contains_char_false in HT. apply contains_char_false in Hoff.
  set (ts := date +:+ "T" +:+ time +:+ "-" +:+ offset).
  assert (Hchars : chars ts
                   = ((chars date ++ "T"%char :: chars time) ++ "-"%char :: chars offset)%list).
  { unfold ts. rewrite !chars_app. cbn [chars list_ascii_of_string app].
    now rewrite <- app_assoc. }
  assert (Hlen : (0 < length (chars date))%nat).
  { destruct date; [contradiction|]. cbn. lia. }
  assert (Hcontains : contains_char "T"%char ts = true).
  { apply contains_char_elem. rewrite Hchars, !elem_of_app.
    left. right. apply elem_of_cons. now left. }
  assert (Hfind : find "T"%char ts = Z.of_nat (length (chars date))).
  { unfold find. rewrite Hchars, <- app_assoc. cbn [app].
    now rewrite find_from_first. }
  assert (Hrfind : rfind "-"%char ts
                   = Z.of_nat (length (chars date ++ "T"%char :: chars time))).
  { unfold rfind. rewrite Hchars, rfind_from_app. cbn [rfind_from].
    rewrite Ascii.eqb_refl. now rewrite rfind_from_not_in. }
  unfold local_time. fold ts. rewrite Hcontains. cbn [negb].
  rewrite Hfind, Hrfind.
  assert (Hn : (length (chars date)
                < length (chars date ++ "T"%char :: chars time))%nat).
  { rewrite length_app. cbn [length]. lia. }
  destruct (Z.ltb_spec 0 (Z.of_nat (length (chars date)))) as [_|?]; [|lia].
  destruct (Z.ltb_spec 0 (Z.of_nat (length (chars date ++ "T"%char :: chars time))))
    as [_|?]; [|lia].
  destruct (Z.ltb_spec (Z.of_nat (length (chars date)))
              (Z.of_nat (length (chars date ++ "T"%char :: chars time))))
    as [_|?]; [|lia].
  cbn [andb]. unfold slice_to. rewrite Nat2Z.id, Hchars.
  rewrite take_app_length. apply chars_inj.
  rewrite chars_text, !chars_app. reflexivity.
Qed.

Lemma local_time_drops_negative_offset_witness :
  local_time ("2020-06-01" +:+ "T" +:+ "10:00:00" +:+ "-" +:+ "06:00")
  = "2020-06-01" +:+ "T" +:+ "10:00:00".
Proof.
  apply local_time_drops_negative_offset; [discriminate|reflexivity..].
Defined.

(** ** The row of an image *)

Lemma fold_zip_lookup_notin (k : string) : forall names vs (acc : gmap string trait_value),
  k ∉ names ->
  fold_left (fun traits kv => <[kv.1 := TraitStr kv.2]> traits) (zip names vs) acc !! k
  = acc !! k.
Proof.
  induction names as [|n names IH]; intros [|v vs] acc H; try reflexivity.
  apply not_elem_of_cons in H. destruct H as [Hn Hnames].
  cbn [zip zip_with fold_left fst snd]. rewrite IH by exact Hnames.
  now rewrite lookup_insert_ne by congruence.
Qed.

Lemma fold_zip_values (d : string -> trait_value) :
  forall names vs (acc : gmap string trait_value),
  NoDup names -> length vs = length names ->
  map (fun n =>
         trait_str
           match fold_left (fun traits kv => <[kv.1 := TraitStr kv.2]> traits)
                           (zip names vs) acc !! n with
           | Some v => v
           | None => d n
           end) names
  = vs.
Proof.
  induction names as [|n names IH]; intros [|v vs] acc Hnd Hlen;
    try discriminate; [reflexivity|].
  apply NoDup_cons in Hnd. destruct Hnd as [Hn Hnd].
  cbn [zip zip_with fold_left fst snd map]. f_equal.
  - rewrite fold_zip_lookup_notin by exact Hn. now rewrite lookup_insert_eq.
  - apply IH; [exact Hnd|]. cbn [length] in Hlen. lia.
Qed.

Lemma image_try_accepted o g names bety_fields plot_name localtime create store
  filename st cv vs :
  read_pixels o filename = true ->
  calculate o filename = Return cv ->
  reconcile_shape names (values st) cv = Return (Some vs) ->
  length vs = length names ->
  image_try o g names bety_fields plot_name localtime create store filename st
  = (Return tt,
     LoopState (Some vs)
       (<["local_datetime" := TraitStr localtime]>
          (<["site" := TraitStr plot_name]>
             (fold_left (fun traits kv => <[kv.1 := TraitStr kv.2]> traits)
                        (zip names vs) (bety_traits st))))
       (if create || store
        then (bety_rows st
              ++ [join "," (map trait_str
                    (generate_traits_list g bety_fields
                       (<["local_datetime" := TraitStr localtime]>
                          (<["site" := TraitStr plot_name]>
                             (fold_left
                                (fun traits kv => <[kv.1 := TraitStr kv.2]> traits)
                                (zip names vs) (bety_traits st))))))])%list
        else bety_rows st)
       (calc_calls st ++ [filename])%list (loop_world st)).
Proof.
  intros Hread Hcalc Hrec Hlen. unfold image_try.
  rewrite Hread, Hcalc. cbn [negb values bety_traits bety_rows calc_calls loop_world].
  rewrite Hrec. cbn [values bety_traits bety_rows calc_calls loop_world].
  rewrite Hlen, Nat.eqb_refl. reflexivity.
Qed.

Lemma row_of_traits g names vs plot_name localtime (seed : gmap string trait_value) :
  length vs = length names ->
  NoDup names ->
  (forall k, k ∈ bety_fixed_fields -> k ∉ names) ->
  map trait_str
    (generate_traits_list g (bety_fixed_fields ++ names)
       (<["local_datetime" := TraitStr localtime]>
          (<["site" := TraitStr plot_name]>
             (fold_left (fun traits kv => <[kv.1 := TraitStr kv.2]> traits)
                        (zip names vs) seed))))
  = ([localtime; trait_text g seed "access_level"; trait_text g seed "species";
      plot_name; trait_text g seed "citation_author";
      trait_text g seed "citation_year"; trait_text g seed "citation_title";
      trait_text g seed "method"] ++ vs)%list.
Proof.
  intros Hlen Hnd Hdisj.
  assert (Hfixed : forall k, k ∈ bety_fixed_fields -> k <> "local_datetime" ->
             k <> "site" ->
             (<["local_datetime" := TraitStr localtime]>
                (<["site" := TraitStr plot_name]>
                   (fold_left (fun traits kv => <[kv.1 := TraitStr kv.2]> traits)
                              (zip names vs) seed))) !! k = seed !! k).
  { intros k Hk H1 H2. rewrite !lookup_insert_ne by congruence.
    apply fold_zip_lookup_notin, Hdisj, Hk. }
  assert (Hin : forall k, In k bety_fixed_fields -> k ∈ bety_fixed_fields).
  { intros k. apply list_elem_of_In. }
  unfold generate_traits_list. rewrite !map_app, !map_map. f_equal.
  - unfold bety_fixed_fields at 1. cbn [map].
    rewrite lookup_insert_eq.
    rewrite (lookup_insert_ne _ "local_datetime" "site") by discriminate.
    rewrite lookup_insert_eq.
    rewrite !Hfixed by (try discriminate; apply Hin; cbn; tauto).
    reflexivity.
  - etransitivity;
      [|exact (fold_zip_values (get_default_trait g) names vs seed Hnd Hlen)].
    apply map_ext_in. intros n Hn. apply list_elem_of_In in Hn.
    assert (Hne : n <> "local_datetime" /\ n <> "site").
    { split; intros ->; revert Hn; apply Hdisj, Hin; cbn; tauto. }
    destruct Hne as [H1 H2]. now rewrite !lookup_insert_ne by congruence.
Qed.

Lemma image_try_row (o : oracle) (g : globals) (names : list string)
  (plot_name localtime : string) (create_csv_files store_in_betydb : bool)
  (filename : string) (st : loop_state) (cv : calc_value) (vs : list string) :
  read_pixels o filename = true ->
  calculate o filename = Return cv ->
  reconcile_shape names (values st) cv = Return (Some vs) ->
  length vs = length names ->
  NoDup names ->
  (forall k, k ∈ bety_fixed_fields -> k ∉ names) ->
  create_csv_files || store_in_betydb = true ->
  (image_try o g names (bety_fixed_fields ++ names) plot_name localtime
             create_csv_files store_in_betydb filename st).1 = Return tt /\
  bety_rows (image_try o g names (bety_fixed_fields ++ names) plot_name localtime
                       create_csv_files store_in_betydb filename st).2
  = (bety_rows st
     ++ [join "," ([localtime;
                    trait_text g (bety_traits st) "access_level";
                    trait_text g (bety_traits st) "species";
                    plot_name;
                    trait_text g (bety_traits st) "citation_author";
                    trait_text g (bety_traits st) "citation_year";
                    trait_text g (bety_traits st) "citation_title";
                    trait_text g (bety_traits st) "method"] ++ vs)])%list.
Proof.
  intros Hread Hcalc Hrec Hlen Hnd Hdisj Hflag.
  rewrite (image_try_accepted o g names _ plot_name localtime _ _ filename st cv vs
             Hread Hcalc Hrec Hlen).
  cbn [fst snd bety_rows]. rewrite Hflag. split; [reflexivity|].
  now rewrite (row_of_traits g names vs plot_name localtime _ Hlen Hnd Hdisj).
Qed.

(** An image whose result is reconciled to [vs], one value per variable
    field, gives one row: the local time, the access level, the species,
    the plot name, the three citation fields and the method, then the
    values in the order of the variable fields. The local time and the
    plot name are those of the run; the other fixed columns are what the
    traits hold. The variable fields must be distinct and differ from the
    fixed ones. *)
Theorem image_try_row_layout (o : oracle) (g : globals) (names : list string)
  (plot_name localtime : string) (create_csv_files store_in_betydb : bool)
  (filename : string) (st : loop_state) (cv : calc_value) (vs : list string) :
  read_pixels o filename = true ->
  calculate o filename = Return cv ->
  reconcile_shape names (values st) cv = Return (Some vs) ->
  length vs = length names ->
  NoDup names ->
  (forall k, k ∈ bety_fixed_fields -> k ∉ names) ->
  create_csv_files || store_in_betydb = true ->
  (image_try o g names (bety_fixed_fields ++ names) plot_name localtime
             create_csv_files store_in_betydb filename st).1 = Return tt /\
  bety_rows (image_try o g names (bety_fixed_fields ++ names) plot_name localtime
                       create_csv_files store_in_betydb filename st).2
  = (bety_rows st
     ++ [join "," ([localtime;
                    trait_text g (bety_traits st) "access_level";
                    trait_text g (bety_traits st) "species";
                    plot_name;
                    trait_text g (bety_traits st) "citation_author";
                    trait_text g (bety_traits st) "citation_year";
                    trait_text g (bety_traits st) "citation_title";
                    trait_text g (bety_traits st) "method"] ++ vs)])%list.
Proof.
  exact (image_try_row o g names plot_name localtime create_csv_files
           store_in_betydb filename st cv vs).
Qed.

Lemma image_try_row_layout_witness :
  bety_rows (image_try example_oracle example_globals ["canopy_cover"]
               (bety_fixed_fields ++ ["canopy_cover"]) "Plot_12"
               "2020-06-01T12:00:00" true true "d/a.tif"
               (LoopState None ∅ [] [] empty_world)).2
  = ([] ++ [join "," (["2020-06-01T12:00:00";
                       trait_text example_globals ∅ "access_level";
                       trait_text example_globals ∅ "species";
                       "Plot_12";
                       trait_text example_globals ∅ "citation_author";
                       trait_text example_globals ∅ "citation_year";
                       trait_text example_globals ∅ "citation_title";
                       trait_text example_globals ∅ "method"] ++ ["0.42"])])%list.
Proof.
  apply (image_try_row_layout example_oracle example_globals ["canopy_cover"]
           "Plot_12" "2020-06-01T12:00:00" true true "d/a.tif"
           (LoopState None ∅ [] [] empty_world) (CalcScalar "0.42") ["0.42"]);
    [reflexivity | reflexivity | reflexivity | reflexivity
    | apply NoDup_singleton | | reflexivity].
  intros k Hk Hn. apply list_elem_of_singleton in Hn. subst k.
  apply list_elem_of_In in Hk. cbn in Hk. intuition discriminate.
Defined.

Lemma seeded_trait_text g (fields : list string) (germplasm_name k : string) :
  trait_text g
    (<["species" := TraitStr germplasm_name]>
       (fold_left (fun traits field_name =>
                     <[field_name := get_default_trait g field_name]> traits)
                  fields ∅)) k
  = if String.eqb k "species" then germplasm_name
    else trait_str (get_default_trait g k).
Proof.
  unfold trait_text. destruct (String.eqb k "species") eqn:E.
  - apply String.eqb_eq in E. subst k. now rewrite lookup_insert_eq.
  - apply String.eqb_neq in E. rewrite lookup_insert_ne by congruence.
    rewrite fold_insert_lookup. destruct (bool_decide _); [reflexivity|].
    now rewrite lookup_empty.
Qed.

(** A run over one loaded, readable image whose result is reconciled to
    [vs] produces exactly one row: the local time of the time stamp, the
    default access level, the germplasm name as species, the plot name,
    the default citation fields and method, then the values. The
    algorithm is called once, on that image. *)
Theorem process_files_single_image_row (o : oracle) (cfg : configuration)
  (g : globals) (germplasm_name experiment_name timestamp plot_name : string)
  (images_list metadata_list : list string) (w : world)
  (f : string) (poly : polygon) (names : list string)
  (cv : calc_value) (vs : list string) :
  load_image_files o images_list = Return [(f, poly)] ->
  FIELD_NAME_LIST g = Some names ->
  read_pixels o f = true ->
  calculate o f = Return cv ->
  reconcile_shape names None cv = Return (Some vs) ->
  length vs = length names ->
  NoDup names ->
  (forall k, k ∈ bety_fixed_fields -> k ∉ names) ->
  create_csv_files_of cfg || store_in_betydb_of cfg = true ->
  run_calls (process_files o cfg g germplasm_name experiment_name timestamp
               plot_name images_list metadata_list w) = [f] /\
  run_rows (process_files o cfg g germplasm_name experiment_name timestamp
              plot_name images_list metadata_list w)
  = [join "," ([local_time timestamp;
                trait_str (get_default_trait g "access_level");
                germplasm_name;
                plot_name;
                trait_str (get_default_trait g "citation_author");
                trait_str (get_default_trait g "citation_year");
                trait_str (get_default_trait g "citation_title");
                trait_str (get_default_trait g "method")] ++ vs)].
Proof.
  intros Hload Hfields Hread Hcalc Hrec Hlen Hnd Hdisj Hflag.
  unfold process_files. rewrite Hload. cbn [length Nat.leb map fst].
  unfold get_bety_traits_table, get_bety_fields. rewrite Hfields.
  rewrite image_loop_cons.
  change (["local_datetime"; "access_level"; "species"; "site"; "citation_author";
           "citation_year"; "citation_title"; "method"] ++ names)%list
    with (bety_fixed_fields ++ names)%list.
  match goal with
  | |- context [image_try o g names ?bf plot_name ?lt ?cc ?sb f ?st] =>
      pose proof (image_try_row o g names plot_name lt cc sb f st cv vs
                    Hread Hcalc Hrec Hlen Hnd Hdisj Hflag) as [Hres Hrows];
      pose proof (image_try_cases o g names bf plot_name lt cc sb f st) as (Hcalls & _);
      destruct (image_try o g names bf plot_name lt cc sb f st) as [res st1]
  end.
  cbn [fst snd bety_rows bety_traits calc_calls] in Hres, Hrows, Hcalls.
  rewrite Hread in Hcalls. rewrite !seeded_trait_text in Hrows.
  cbn [String.eqb Ascii.eqb Bool.eqb] in Hrows. subst res.
  match goal with
  | |- context [image_output o g ?en ?hd ?cc f st1] =>
      pose proof (image_output_frame o g en hd cc f st1) as [Hr2 Hc2];
      destruct (image_output o g en hd cc f st1) as [[u|e] st2]
  end; cbn [fst snd] in Hr2, Hc2.
  - cbn [Nat.ltb Nat.leb image_loop]. rewrite Hr2, Hc2, Hrows, Hcalls.
    cbn [app].
    destruct (store_in_betydb_of cfg); [|split; reflexivity].
    destruct (update_betydb _ _ _ _) as [ur uw]. split; reflexivity.
  - cbn [run_calls run_rows]. rewrite Hr2, Hc2, Hrows, Hcalls. split; reflexivity.
Qed.

Lemma process_files_single_image_row_witness :
  run_calls (process_files example_oracle example_configuration example_globals
               "B73" "Exp1" "2020-06-01" "Plot_12" ["d/a.tif"] [] empty_world)
  = ["d/a.tif"] /\
  run_rows (process_files example_oracle example_configuration example_globals
              "B73" "Exp1" "2020-06-01" "Plot_12" ["d/a.tif"] [] empty_world)
  = [join "," ([local_time "2020-06-01";
                trait_str (get_default_trait example_globals "access_level");
                "B73";
                "Plot_12";
                trait_str (get_default_trait example_globals "citation_author");
                trait_str (get_default_trait example_globals "citation_year");
                trait_str (get_default_trait example_globals "citation_title");
                trait_str (get_default_trait example_globals "method")]
               ++ ["0.42"])].
Proof.
  apply (process_files_single_image_row example_oracle example_configuration
           example_globals "B73" "Exp1" "2020-06-01" "Plot_12" ["d/a.tif"] []
           empty_world "d/a.tif"
           (Polygon [bounds_ring example_geobounds] (Some 4326%Z))
           ["canopy_cover"] (CalcScalar "0.42") ["0.42"]);
    [reflexivity | apply example_globals_field_names | reflexivity
    | reflexivity | reflexivity | reflexivity | apply NoDup_singleton
    | | reflexivity].
  intros k Hk Hn. apply list_elem_of_singleton in Hn. subst k.
  apply list_elem_of_In in Hk. cbn in Hk. intuition discriminate.
Defined.

(** ** A dict returned by the algorithm *)

Lemma omap_length_missing {A B} (f : A -> option B) (l : list A) (x : A) :
  x ∈ l -> f x = None -> (length (omap f l) < length l)%nat.
Proof.
  induction l as [|y l IH]; intros Hin Hx; [now apply elem_of_nil in Hin|].
  rewrite omap_cons. apply elem_of_cons in Hin. destruct Hin as [<-|Hin].
  - rewrite Hx. pose proof (omap_length_le f l). cbn [length]. lia.
  - specialize (IH Hin Hx). destruct (f y); cbn [length]; lia.
Qed.

Lemma omap_all_present {A B} (f : A -> option B) (d : B) (l : list A) :
  Forall (fun x => is_Some (f x)) l ->
  omap f l = map (fun x => default d (f x)) l.
Proof.
  induction 1 as [|x l [v Hv] _ IH]; [reflexivity|].
  rewrite omap_cons, Hv, IH. cbn [map]. now rewrite Hv.
Qed.

(** A dict that has every variable field is reconciled to the values of
    these fields in the order of [FIELD_NAME_LIST], one per field: the
    order of the dict and its other keys play no part. *)
Theorem dict_reconciled_in_field_order (names : list string)
  (values : option (list string)) (items : gmap string string) :
  Forall (fun field_name => is_Some (items !! field_name)) names ->
  reconcile_shape names values (CalcDict items)
  = Return (Some (map (fun field_name => default "" (items !! field_name)) names)) /\
  length (map (fun field_name => default "" (items !! field_name)) names)
  = length names.
Proof.
  intros H. cbn [reconcile_shape]. split; [|apply length_map].
  now rewrite (omap_all_present _ "" names H).
Qed.

Lemma dict_reconciled_in_field_order_witness :
  reconcile_shape ["b"; "a"] None (CalcDict {["a" := "1"; "b" := "2"; "c" := "3"]})
  = Return (Some (map (fun field_name =>
                         default "" (({["a" := "1"; "b" := "2"; "c" := "3"]}
                                       : gmap string string) !! field_name))
                      ["b"; "a"])).
Proof.
  apply dict_reconciled_in_field_order.
  repeat constructor; vm_compute; eexists; reflexivity.
Defined.

(** A dict that lacks a variable field fails the sanity check: inside
    the [try] a [RuntimeError] tells how many values were received, fewer
    than expected; no row is added and nothing is written. *)
Theorem image_try_dict_missing_field (o : oracle) (g : globals)
  (names bety_fields : list string) (plot_name localtime : string)
  (create_csv_files store_in_betydb : bool) (filename : string)
  (st : loop_state) (items : gmap string string) (missing : string) :
  read_pixels o filename = true ->
  calculate o filename = Return (CalcDict items) ->
  missing ∈ names -> items !! missing = None ->
  exists received st',
    image_try o g names bety_fields plot_name localtime create_csv_files
              store_in_betydb filename st
    = (Raise (RuntimeError ("Incorrect number of values returned. Expected "
                            +:+ str_of_Z (Z.of_nat (length names))
                            +:+ " and received "
                            +:+ str_of_Z (Z.of_nat received))), st') /\
    (received < length names)%nat /\
    bety_rows st' = bety_rows st /\ loop_world st' = loop_world st.
Proof.
  intros Hread Hcalc Hin Hmiss.
  pose proof (omap_length_missing (fun key => items !! key) names missing Hin Hmiss)
    as Hlt.
  unfold image_try. rewrite Hread, Hcalc.
  cbn [negb reconcile_shape values bety_traits bety_rows calc_calls loop_world].
  destruct (Nat.eqb_spec (length (omap (fun key => items !! key) names))
              (length names)) as [E|_]; [lia|].
  cbn [negb]. eexists _, _. split; [reflexivity|]. auto.
Qed.

Lemma image_try_dict_missing_field_witness :
  exists received st',
    image_try (with_calculate example_oracle
                 (fun _ => Return (CalcDict {["other" := "1"]})))
              example_globals ["canopy_cover"]
              (bety_fixed_fields ++ ["canopy_cover"]) "Plot_12"
              "2020-06-01T12:00:00" true true "d/a.tif"
              (LoopState None ∅ [] [] empty_world)
    = (Raise (RuntimeError ("Incorrect number of values returned. Expected "
                            +:+ str_of_Z (Z.of_nat (length ["canopy_cover"]))
                            +:+ " and received "
                            +:+ str_of_Z (Z.of_nat received))), st') /\
    (received < length ["canopy_cover"])%nat /\
    bety_rows st' = bety_rows (LoopState None ∅ [] [] empty_world) /\
    loop_world st' = loop_world (LoopState None ∅ [] [] empty_world).
Proof.
  apply (image_try_dict_missing_field _ _ _ _ _ _ _ _ _ _ {["other" := "1"]}
           "canopy_cover").
  - reflexivity.
  - reflexivity.
  - apply elem_of_cons. now left.
  - vm_compute. reflexivity.
Defined.

(** ** A run that writes nothing *)

Lemma image_loop_dry o g names bety_fields experiment_name plot_name localtime
  header n : forall filenames st,
  bety_rows st = [] ->
  (image_loop o g names bety_fields experiment_name plot_name localtime header
              false false n filenames st).1 = Return tt /\
  bety_rows (image_loop o g names bety_fields experiment_name plot_name localtime
                        header false false n filenames st).2 = [] /\
  loop_world (image_loop o g names bety_fields experiment_name plot_name localtime
                         header false false n filenames st).2 = loop_world st.
Proof.
  induction filenames as [|f fs IH]; intros st Hrows; [now cbn|].
  rewrite image_loop_cons.
  pose proof (image_try_cases o g names bety_fields plot_name localtime
                false false f st) as (_ & Hw & Hcase).
  destruct (image_try o g names bety_fields plot_name localtime false false f st)
    as [[u|e] st1]; cbn [fst snd] in Hw, Hcase.
  - destruct Hcase as (_ & (csv_data & Hcsv) & _). cbn [orb] in Hcsv.
    unfold image_output.
    destruct (1 <? n)%nat.
    + cbn [fst snd]. rewrite Hcsv, Hw. auto.
    + destruct (IH st1) as (H1 & H2 & H3); [now rewrite Hcsv|].
      rewrite H1, H2, H3, Hw. auto.
  - destruct Hcase as (Hr & _).
    destruct (IH st1) as (H1 & H2 & H3); [now rewrite Hr|].
    rewrite H1, H2, H3, Hw. auto.
Qed.

(** With [NEVER_WRITE_CSV] and [NEVER_WRITE_BETYDB] both set, a run
    changes nothing: no file is written, nothing is posted, no row is
    kept. It raises only when [load_image_files] does or the module is
    not initialised. *)
Theorem process_files_dry_run (o : oracle) (cfg : configuration) (g : globals)
  (germplasm_name experiment_name timestamp plot_name : string)
  (images_list metadata_list : list string) (w : world) :
  NEVER_WRITE_CSV cfg = Some true ->
  NEVER_WRITE_BETYDB cfg = Some true ->
  run_world (process_files o cfg g germplasm_name experiment_name timestamp
               plot_name images_list metadata_list w) = w /\
  run_rows (process_files o cfg g germplasm_name experiment_name timestamp
              plot_name images_list metadata_list w) = [] /\
  (forall loaded names,
      load_image_files o images_list = Return loaded ->
      FIELD_NAME_LIST g = Some names ->
      run_result (process_files o cfg g germplasm_name experiment_name timestamp
                    plot_name images_list metadata_list w) = Return tt).
Proof.
  intros Hcsv Hbety. unfold process_files, create_csv_files_of, store_in_betydb_of.
  rewrite Hcsv, Hbety. cbn [negb].
  destruct (load_image_files o images_list) as [loaded|e];
    [|split; [reflexivity|split; [reflexivity|discriminate]]].
  destruct (length loaded <=? 0)%nat; [now cbn|].
  unfold get_bety_traits_table, get_bety_fields.
  destruct (FIELD_NAME_LIST g) as [names|];
    [|split; [reflexivity|split; [reflexivity|discriminate]]].
  match goal with
  | |- context [image_loop ?o ?g ?fn ?bf ?en ?pn ?lt ?hd false false ?n ?fs ?st] =>
      pose proof (image_loop_dry o g fn bf en pn lt hd n fs st eq_refl)
        as (H1 & H2 & H3);
      destruct (image_loop o g fn bf en pn lt hd false false n fs st) as [res st']
  end.
  cbn [fst snd loop_world] in H1, H2, H3. subst res. cbn. auto.
Qed.

Lemma process_files_dry_run_witness :
  run_world (process_files example_oracle
               (Configuration "canopycover" (Some "Doe, J.")
                  (Some "Plot level traits") (Some "2020")
                  (Some "canopy_cover") None (Some true) (Some true))
               example_globals "B73" "Exp1" "2020-06-01" "Plot_12" two_images []
               empty_world) = empty_world.
Proof.
  apply (process_files_dry_run example_oracle
           (Configuration "canopycover" (Some "Doe, J.")
              (Some "Plot level traits") (Some "2020")
              (Some "canopy_cover") None (Some true) (Some true))
           example_globals "B73" "Exp1" "2020-06-01" "Plot_12" two_images []
           empty_world); reflexivity.
Defined.

(** ** [__find_json_and_image_files] *)

Lemma placed_grows fs p a b c a' b' c' :
  placed fs p (a, b, c) -> placed fs p ((a ++ a')%list, (b ++ b')%list, (c ++ c')%list).
Proof.
  unfold placed. intros (H1 & H2 & H3).
  repeat split; intros; apply elem_of_app; left; auto.
Qed.

Lemma find_loop_sound fs recurse :
  (forall ps r, recurse ps = Return r -> classified fs r) ->
  forall paths acc r,
    classified fs acc ->
    find_loop fs recurse paths acc = Return r ->
    classified fs r /\
    (forall p, placed fs p acc -> placed fs p r) /\
    (forall p, p ∈ paths -> placed fs p r).
Proof.
  intros Hrec. induction paths as [|x paths IH]; intros [[a b] c] r Hacc;
    cbn [find_loop].
  - intros [= <-]. split; [exact Hacc|]. split; [auto|].
    intros p Hp. now apply elem_of_nil in Hp.
  - destruct Hacc as (Ha & Hb & Hc).
    assert (Hstep : forall acc',
               classified fs acc' ->
               (forall p, placed fs p (a, b, c) -> placed fs p acc') ->
               placed fs x acc' ->
               find_loop fs recurse paths acc' = Return r ->
               classified fs r /\
               (forall p, placed fs p (a, b, c) -> placed fs p r) /\
               (forall p, p ∈ x :: paths -> placed fs p r)).
    { intros acc' Hcl Hmono Hx Hfind.
      destruct (IH acc' r Hcl Hfind) as (H1 & H2 & H3).
      split; [exact H1|]. split; [auto|].
      intros p Hp. apply elem_of_cons in Hp. destruct Hp as [->|Hp]; auto. }
    destruct (endswith ".json" x) eqn:Ej.
    + destruct (path_exists fs x) eqn:Ee; apply Hstep.
      * repeat split; auto. apply Forall_app. split; [exact Hb|]. now repeat constructor.
      * intros p Hp.
        apply (placed_grows fs p a b c [] [x] []) in Hp. now rewrite !app_nil_r in Hp.
      * repeat split; intros; try congruence. apply elem_of_app. right.
        apply elem_of_cons. now left.
      * repeat split; auto. apply Forall_app. split; [exact Hc|].
        repeat constructor; auto.
      * intros p Hp.
        apply (placed_grows fs p a b c [] [] [x]) in Hp. now rewrite !app_nil_r in Hp.
      * repeat split; intros; try congruence. apply elem_of_app. right.
        apply elem_of_cons. now left.
    + destruct (known_image_extension x) eqn:Ek.
      * destruct (path_exists fs x) eqn:Ee; apply Hstep.
        -- repeat split; auto. apply Forall_app. split; [exact Ha|].
           now repeat constructor.
        -- intros p Hp.
           apply (placed_grows fs p a b c [x] [] []) in Hp.
           now rewrite !app_nil_r in Hp.
        -- repeat split; intros; try congruence. apply elem_of_app. right.
           apply elem_of_cons. now left.
        -- repeat split; auto. apply Forall_app. split; [exact Hc|].
           constructor; [split; [exact Ee | right; exact Ek] | constructor].
        -- intros p Hp.
           apply (placed_grows fs p a b c [] [] [x]) in Hp.
           now rewrite !app_nil_r in Hp.
        -- repeat split; intros; try congruence. apply elem_of_app. right.
           apply elem_of_cons. now left.
      * assert (Hxany : forall acc', placed fs x acc').
        { intros [[a' b'] c']. repeat split; intros; try congruence.
          destruct H; congruence. }
        destruct (path_isdir fs x).
        -- destruct (listdir fs x) as [names|e]; [|discriminate].
           destruct (recurse (map (path_join x) names)) as [[[ni nm] nu]|e] eqn:Er;
             [|discriminate].
           apply Hrec in Er. destruct Er as (Hi & Hm & Hu).
           apply Hstep.
           ++ repeat split; apply Forall_app; auto.
           ++ intros p. apply placed_grows.
           ++ apply Hxany.
        -- apply Hstep; [repeat split; auto|auto|apply Hxany].
Qed.

Lemma find_files_sound (fs : filesystem) (depth : nat)
  (paths : list string) (r : found) :
  __find_json_and_image_files fs depth paths = Return r ->
  classified fs r /\ (forall p, p ∈ paths -> placed fs p r).
Proof.
  revert paths r. induction depth as [|depth IH]; intros paths r;
    cbn [__find_json_and_image_files]; [discriminate|].
  intros H.
  destruct (find_loop_sound fs (__find_json_and_image_files fs depth)
              (fun ps r0 Hr => proj1 (IH ps r0 Hr)) paths ([], [], []) r)
    as (H1 & _ & H3); auto.
  repeat split; constructor.
Qed.

(** Whatever [__find_json_and_image_files] returns is classified: the
    image paths have a known extension, are no [.json] paths and exist;
    the metadata paths end in [.json] and exist; the unavailable files
    are [.json] or image paths that do not exist. Every path of the
    argument that is a [.json] or image path is in the list it belongs
    to. *)
Theorem find_files_classifies (fs : filesystem) (depth : nat)
  (paths : list string) (r : found) :
  __find_json_and_image_files fs depth paths = Return r ->
  classified fs r /\ (forall p, p ∈ paths -> placed fs p r).
Proof. exact (find_files_sound fs depth paths r). Qed.

Lemma find_loop_total fs recurse : forall paths acc,
  Forall (fun one_path =>
            endswith ".json" one_path = false ->
            known_image_extension one_path = false ->
            path_isdir fs one_path = true ->
            exists names r,
              listdir fs one_path = Return names /\
              recurse (map (path_join one_path) names) = Return r) paths ->
  exists r, find_loop fs recurse paths acc = Return r.
Proof.
  induction paths as [|x paths IH]; intros [[a b] c] H; cbn [find_loop].
  - now eexists.
  - apply Forall_cons in H. destruct H as [Hx Hrest].
    destruct (endswith ".json" x); [destruct (path_exists fs x); now apply IH|].
    destruct (known_image_extension x);
      [destruct (path_exists fs x); now apply IH|].
    destruct (path_isdir fs x); [|now apply IH].
    destruct Hx as (names & [[ni nm] nu] & -> & ->); auto.
Qed.

(** When the folders below the paths nest at most [n] deep and can be
    listed, a stack of [n + 1] calls is enough:
    [__find_json_and_image_files] returns. *)
Theorem find_files_returns (fs : filesystem) (n : nat) (paths : list string) :
  nesting_within fs n paths ->
  exists r, __find_json_and_image_files fs (S n) paths = Return r.
Proof.
  revert paths. induction n as [|n IH]; intros paths H;
    cbn [__find_json_and_image_files]; apply find_loop_total;
    unfold nesting_within in H; fold nesting_within in H;
    apply (Forall_impl _ _ _ H); intros p Hp Hj Hk Hd; specialize (Hp Hj Hk Hd).
  - contradiction.
  - destruct Hp as (names & Hl & Hn). destruct (IH _ Hn) as [r Hr].
    now exists names, r.
Qed.

Lemma find_files_classifies_witness :
  classified example_filesystem (["plot/a.tif"], ["plot/md.json"], ["gone.jpg"]).
Proof.
  apply (find_files_classifies example_filesystem 2 ["plot"; "gone.jpg"]
           (["plot/a.tif"], ["plot/md.json"], ["gone.jpg"])).
  vm_compute. reflexivity.
Defined.

Lemma find_files_returns_witness :
  exists r, __find_json_and_image_files example_filesystem 2 ["plot"; "gone.jpg"]
            = Return r.
Proof.
  apply find_files_returns. cbn [nesting_within].
  apply Forall_cons. split.
  - cbv beta. intros _ _ _. exists ["a.tif"; "md.json"; "notes.txt"; "b.tiff"].
    split; [reflexivity|]. cbn [map].
    repeat (apply Forall_cons_2); [..|apply Forall_nil_2];
      cbv beta; intros _ _ Hd; vm_compute in Hd; discriminate.
  - apply Forall_cons_2; [|apply Forall_nil_2].
    cbv beta. intros _ Hk _. vm_compute in Hk. discriminate.
Defined.

(** ** [__do_initialization] *)

(** What [init_extraction] leaves when it raises for a name that is not
    empty: a configuration attribute is missing, and the extractor name,
    the sensor name and the first array-valued trait are already
    overwritten. *)
Lemma init_extraction_raises cfg name method_name g0 e g :
  name <> "" -> TRAIT_NAME_ARRAY_VALUE g0 <> [] ->
  init_extraction cfg (Some name) method_name g0 = (Raise e, g) ->
  e = OtherException "AttributeError" /\
  (CITATION_AUTHOR cfg = None \/ CITATION_TITLE cfg = None \/
   CITATION_YEAR cfg = None \/ VARIABLE_NAMES cfg = None) /\
  EXTRACTOR_NAME g = Some name /\
  SENSOR_NAME g = Some (sensor_name_of name) /\
  TRAIT_NAME_ARRAY_VALUE g
  = <[0%nat := sensor_name_of name]> (TRAIT_NAME_ARRAY_VALUE g0) /\
  FIELD_NAME_LIST g = FIELD_NAME_LIST g0.
Proof.
  intros Hname Harr. unfold init_extraction.
  rewrite (str_truthy_Some name Hname). cbn [negb default].
  destruct (TRAIT_NAME_ARRAY_VALUE g0) as [|a l] eqn:E; [contradiction|].
  destruct (CITATION_AUTHOR cfg) as [author|];
    [|intros [= <- <-]; cbn; auto 10].
  destruct (CITATION_TITLE cfg) as [title|];
    [|intros [= <- <-]; cbn; auto 10].
  destruct (CITATION_YEAR cfg) as [year|];
    [|intros [= <- <-]; cbn; auto 10].
  destruct (VARIABLE_NAMES cfg) as [variable_names|];
    [discriminate|intros [= <- <-]; cbn; auto 10].
Qed.

(** On an imported module, [__do_initialization] returns exactly when
    there are at least six arguments, the search of the paths returns
    with at least one image, the configured extractor name is not empty
    and the configuration defines the citation and the variable names.
    When it raises, the module globals are as they were, unless a
    configuration attribute is missing: then [AttributeError] is raised
    after the extractor name, the sensor name (for an ASCII extractor
    name, the one derived from it) and the first array-valued trait were
    overwritten. *)
Theorem do_initialization_returns_iff (fs : filesystem) (depth : nat)
  (cfg : configuration) (argv : list string) (g : globals) :
  TRAIT_NAME_ARRAY_VALUE g <> [] ->
  ((exists t g', __do_initialization fs depth cfg argv g = (Return t, g')) <->
   ((6 <= length argv)%nat /\
    (exists image_paths metadata_paths unavailable_files,
        __find_json_and_image_files fs depth (drop 5 argv)
        = Return (image_paths, metadata_paths, unavailable_files) /\
        image_paths <> []) /\
    cfg_EXTRACTOR_NAME cfg <> "" /\
    is_Some (CITATION_AUTHOR cfg) /\ is_Some (CITATION_TITLE cfg) /\
    is_Some (CITATION_YEAR cfg) /\ is_Some (VARIABLE_NAMES cfg))) /\
  (forall e g', __do_initialization fs depth cfg argv g = (Raise e, g') ->
     g' = g \/
     (e = OtherException "AttributeError" /\
      (CITATION_AUTHOR cfg = None \/ CITATION_TITLE cfg = None \/
       CITATION_YEAR cfg = None \/ VARIABLE_NAMES cfg = None) /\
      EXTRACTOR_NAME g' = Some (cfg_EXTRACTOR_NAME cfg) /\
      FIELD_NAME_LIST g' = FIELD_NAME_LIST g /\
      (is_ascii (cfg_EXTRACTOR_NAME cfg) = true ->
       SENSOR_NAME g' = Some (sensor_name_of (cfg_EXTRACTOR_NAME cfg)) /\
       TRAIT_NAME_ARRAY_VALUE g'
       = <[0%nat := sensor_name_of (cfg_EXTRACTOR_NAME cfg)]>
           (TRAIT_NAME_ARRAY_VALUE g)))).
Proof.
  intros Harr. unfold __do_initialization.
  destruct (Nat.ltb_spec (length argv) 6) as [Hlen|Hlen].
  { split; [split|].
    - intros (t & g' & H). discriminate.
    - intros (H & _). lia.
    - intros e g' [= _ <-]. now left. }
  destruct (__find_json_and_image_files fs depth (drop 5 argv))
    as [[[imgs mds] una]|e0].
  2:{ split; [split|].
      - intros (t & g' & H). discriminate.
      - intros (_ & (? & ? & ? & H & _) & _). discriminate.
      - intros e g' [= _ <-]. now left. }
  destruct imgs as [|img imgs].
  { split; [split|].
    - intros (t & g' & H). discriminate.
    - intros (_ & (? & ? & ? & [= <- _ _] & H) & _). contradiction.
    - intros e g' [= _ <-]. now left. }
  destruct (String.eqb_spec (cfg_EXTRACTOR_NAME cfg) "") as [E|E].
  { unfold init_extraction. rewrite E. cbn [str_truthy String.eqb negb].
    split; [split|].
    - intros (t & g' & H). discriminate.
    - intros (_ & _ & H & _). contradiction.
    - intros e g' [= _ <-]. now left. }
  destruct (init_extraction cfg (Some (cfg_EXTRACTOR_NAME cfg)) (METHOD_NAME cfg) g)
    as [[[]|e1] g1] eqn:Hinit.
  - split; [split|].
    + intros _. split; [exact Hlen|].
      split; [exists (img :: imgs), mds, una; split; [reflexivity|discriminate]|].
      split; [exact E|].
      apply init_extraction_inv in Hinit.
      destruct Hinit as (author & title & year & v & _ & _ & -> & -> & -> & -> & _).
      eauto.
    + intros _. eexists _, _. reflexivity.
    + intros e g'. discriminate.
  - destruct (init_extraction_raises _ _ _ _ _ _ E Harr Hinit)
      as (-> & Hmiss & Hn & Hs & Ha & Hf).
    split; [split|].
    + intros (t & g' & H). discriminate.
    + intros (_ & _ & _ & [? Ha'] & [? Ht'] & [? Hy'] & [? Hv']).
      destruct Hmiss as [H|[H|[H|H]]]; congruence.
    + intros e g' [= <- <-]. right. auto 10.
Qed.

Lemma do_initialization_returns_iff_witness :
  (exists t g',
      __do_initialization example_filesystem 2 example_configuration
        ["prog"; "B73"; "Exp1"; "2020-06-01"; "Plot_12"; "plot"] initial_globals
      = (Return t, g')) /\
  (forall e g',
      __do_initialization example_filesystem 2 template_configuration
        ["prog"; "B73"; "Exp1"; "2020-06-01"; "Plot_12"; "plot"] initial_globals
      = (Raise e, g') ->
      g' = initial_globals \/ EXTRACTOR_NAME g' = Some "canopycover").
Proof.
  split.
  - apply (do_initialization_returns_iff example_filesystem 2 example_configuration
             ["prog"; "B73"; "Exp1"; "2020-06-01"; "Plot_12"; "plot"]
             initial_globals); [discriminate|].
    split; [cbn; lia|]. split.
    + exists ["plot/a.tif"], ["plot/md.json"], [].
      split; [vm_compute; reflexivity|discriminate].
    + split; [discriminate|]. cbn. eauto.
  - intros e g' H.
    destruct (proj2 (do_initialization_returns_iff example_filesystem 2
                       template_configuration
                       ["prog"; "B73"; "Exp1"; "2020-06-01"; "Plot_12"; "plot"]
                       initial_globals ltac:(discriminate)) e g' H)
      as [->|(_ & _ & Hn & _)]; [now left|now right].
Defined.

(** What [__do_initialization] returns: the second to fifth arguments,
    then image paths that exist and have a known extension, at least
    one, then metadata paths that exist. It leaves the module with the
    configured extractor name, with the field names set and, for an
    ASCII extractor name, with the sensor name derived from it. *)
Theorem do_initialization_result (fs : filesystem) (depth : nat)
  (cfg : configuration) (argv : list string) (g g' : globals)
  (germplasm_name experiment_name timestamp plot_name : string)
  (image_paths metadata_paths : list string) :
  __do_initialization fs depth cfg argv g
  = (Return (germplasm_name, experiment_name, timestamp, plot_name,
             image_paths, metadata_paths), g') ->
  argv !! 1%nat = Some germplasm_name /\
  argv !! 2%nat = Some experiment_name /\
  argv !! 3%nat = Some timestamp /\
  argv !! 4%nat = Some plot_name /\
  image_paths <> [] /\
  Forall (fun p => known_image_extension p = true /\ path_exists fs p = true)
         image_paths /\
  Forall (fun p => endswith ".json" p = true /\ path_exists fs p = true)
         metadata_paths /\
  EXTRACTOR_NAME g' = Some (cfg_EXTRACTOR_NAME cfg) /\
  (is_ascii (cfg_EXTRACTOR_NAME cfg) = true ->
   SENSOR_NAME g' = Some (sensor_name_of (cfg_EXTRACTOR_NAME cfg))) /\
  exists names, FIELD_NAME_LIST g' = Some names /\ names <> [].
Proof.
  unfold __do_initialization.
  destruct (Nat.ltb_spec (length argv) 6) as [Hlen|Hlen]; [discriminate|].
  destruct (__find_json_and_image_files fs depth (drop 5 argv))
    as [[[imgs mds] una]|e0] eqn:Hfind; [|discriminate].
  destruct imgs as [|img imgs]; [discriminate|].
  destruct (init_extraction cfg (Some (cfg_EXTRACTOR_NAME cfg)) (METHOD_NAME cfg) g)
    as [[u|e] g1] eqn:Hinit; [|discriminate].
  intros [= <- <- <- <- <- <- <-]. destruct u.
  assert (Hnth : forall i, (i < 6)%nat -> argv !! i = Some (nth i argv "")).
  { intros i Hi. destruct (lookup_lt_is_Some_2 argv i ltac:(lia)) as [x Hx].
    now rewrite nth_lookup, Hx. }
  rewrite !Hnth by lia.
  apply find_files_sound in Hfind. destruct Hfind as [(Hi & Hm & _) _].
  destruct (init_extraction_array_value _ _ _ _ _ Hinit) as (_ & Hs & _).
  destruct (init_extraction_field_names _ _ _ _ _ Hinit) as (v & _ & Hn).
  do 4 (split; [reflexivity|]). split; [discriminate|].
  split; [apply (Forall_impl _ _ _ Hi); tauto|].
  split; [exact Hm|].
  split.
  { apply init_extraction_inv in Hinit.
    destruct Hinit as (? & ? & ? & ? & _ & _ & _ & _ & _ & _ & ->). reflexivity. }
  split; [intros _; exact Hs|].
  eexists. split; [exact Hn|].
  destruct (contains_char ","%char v); [|discriminate].
  apply (split_chars_spec ","%char (chars v) []).
  apply not_elem_of_nil.
Qed.

Lemma do_initialization_result_witness :
  ["plot/a.tif"] <> [] /\
  EXTRACTOR_NAME example_globals
  = Some (cfg_EXTRACTOR_NAME example_configuration).
Proof.
  assert (H : __do_initialization example_filesystem 2 example_configuration
                ["prog"; "B73"; "Exp1"; "2020-06-01"; "Plot_12"; "plot"]
                initial_globals
              = (Return ("B73", "Exp1", "2020-06-01", "Plot_12",
                         ["plot/a.tif"], ["plot/md.json"]), example_globals)).
  { unfold __do_initialization. cbn [length Nat.ltb Nat.leb].
    assert (Hf : __find_json_and_image_files example_filesystem 2
                   (drop 5 ["prog"; "B73"; "Exp1"; "2020-06-01"; "Plot_12"; "plot"])
                 = Return (["plot/a.tif"], ["plot/md.json"], []))
      by (vm_compute; reflexivity).
    rewrite Hf.
    change (cfg_EXTRACTOR_NAME example_configuration) with "canopycover".
    change (METHOD_NAME example_configuration) with (@None string).
    rewrite example_globals_initialised. reflexivity. }
  destruct (do_initialization_result _ _ _ _ _ _ _ _ _ _ _ _ H)
    as (_ & _ & _ & _ & Hne & _ & _ & Hs & _).
  split; [exact Hne | exact Hs].
Defined.

(** ** The geographic trait schema *)

(** In the table of [get_geo_traits_table] every geographic field, and
    no other key, has the empty string, ['site'] included; and
    [generate_traits_list] on the table gives eight empty strings,
    whatever the module globals are. *)
Theorem geo_traits_are_empty_strings (g : globals) :
  (forall k, get_geo_traits_table.2 !! k
             = if bool_decide (k ∈ get_geo_fields) then Some (TraitStr "") else None) /\
  get_geo_traits_table.1 = get_geo_fields /\
  generate_traits_list g get_geo_traits_table.1 get_geo_traits_table.2
  = repeat (TraitStr "") 8.
Proof.
  assert (Hlook : forall k, get_geo_traits_table.2 !! k
             = if bool_decide (k ∈ get_geo_fields) then Some (TraitStr "") else None).
  { intros k. unfold get_geo_traits_table. cbn [snd].
    rewrite (fold_insert_lookup (fun _ => TraitStr "")).
    destruct (bool_decide _); [reflexivity|apply lookup_empty]. }
  split; [exact Hlook|]. split; [reflexivity|].
  unfold generate_traits_list.
  change (get_geo_traits_table.1) with get_geo_fields.
  transitivity (map (fun _ : string => TraitStr "") get_geo_fields); [|reflexivity].
  apply map_ext_in. intros k Hk. rewrite Hlook.
  now rewrite bool_decide_eq_true_2 by (now apply list_elem_of_In).
Qed.

(** ** [_get_plot_name] *)

Lemma chars_lower (s : string) : chars (lower s) = map lower_char (chars s).
Proof. unfold lower. apply chars_text. Qed.

Lemma length_text (cs : list ascii) : String.length (text cs) = length cs.
Proof. now rewrite <- length_chars, chars_text. Qed.

Lemma lower_char_hyphen (c : ascii) : lower_char c = "-"%char -> c = "-"%char.
Proof.
  destruct c as [[] [] [] [] [] [] [] []]; vm_compute; intros H;
    try reflexivity; discriminate.
Qed.

Lemma lower_keeps_no_hyphen (cs : list ascii) :
  "-"%char ∉ cs -> "-"%char ∉ map lower_char cs.
Proof.
  intros H Hin. apply list_elem_of_In, in_map_iff in Hin.
  destruct Hin as (c & Hc & Hin). apply lower_char_hyphen in Hc. subst c.
  now apply H, list_elem_of_In.
Qed.

Lemma separator_needs_hyphen : forall cs,
  "-"%char ∉ cs -> starts_with (chars plot_separator) cs = false.
Proof.
  intros cs H. change (chars plot_separator) with [" "%char; "-"%char; " "%char].
  destruct cs as [|x [|y cs]]; cbn [starts_with]; [reflexivity| |].
  - now rewrite andb_false_r.
  - apply not_elem_of_cons in H. destruct H as [_ H].
    apply not_elem_of_cons in H. destruct H as [Hy _].
    destruct (Ascii.eqb "-" y) eqn:E; [apply Ascii.eqb_eq in E; congruence|].
    cbn [andb]. apply andb_false_r.
Qed.

Lemma partition_without_hyphen : forall cs,
  "-"%char ∉ cs -> partition_chars (chars plot_separator) cs = None.
Proof.
  induction cs as [|c cs IH]; intros H; cbn [partition_chars]; [reflexivity|].
  rewrite (separator_needs_hyphen (c :: cs) H).
  apply not_elem_of_cons in H. now rewrite IH.
Qed.

Lemma partition_at_first_separator : forall a rest,
  "-"%char ∉ a ->
  partition_chars (chars plot_separator) (a ++ chars plot_separator ++ rest)
  = Some (a, rest).
Proof.
  induction a as [|x a IH]; intros rest H.
  - reflexivity.
  - cbn [app partition_chars].
    assert (Hsw : starts_with (chars plot_separator)
                    (x :: a ++ chars plot_separator ++ rest) = false).
    { change (chars plot_separator) with [" "%char; "-"%char; " "%char].
      apply not_elem_of_cons in H. destruct H as [_ Ha].
      cbn [starts_with]. destruct a as [|y a]; cbn [app].
      - cbn [Ascii.eqb Bool.eqb andb]. apply andb_false_r.
      - apply not_elem_of_cons in Ha. destruct Ha as [Hy _].
        destruct (Ascii.eqb "-" y) eqn:E; [apply Ascii.eqb_eq in E; congruence|].
        cbn [andb]. apply andb_false_r. }
    rewrite Hsw. apply not_elem_of_cons in H. destruct H as [_ Ha].
    now rewrite IH.
Qed.

(** In an ASCII name of the form [prefix - plot], possibly followed by
    [ - ] and more, that holds "by plot" in any capitalisation, where
    neither the prefix nor the plot name holds a hyphen, [_get_plot_name]
    finds the plot name, with its capitalisation; names after it are not
    looked at. *)
Theorem get_plot_name_extracts (prefix plot suffix : string) (others : list string) :
  is_ascii (prefix +:+ " - " +:+ plot +:+ suffix) = true ->
  contains plot_signature (lower (prefix +:+ " - " +:+ plot +:+ suffix)) = true ->
  "-"%char ∉ chars prefix ->
  "-"%char ∉ chars plot ->
  suffix = "" \/ (exists rest, suffix = " - " +:+ rest) ->
  _get_plot_name ((prefix +:+ " - " +:+ plot +:+ suffix) :: others) = plot.
Proof.
  intros _ Hsig Hprefix Hplot Hsuffix. cbn [_get_plot_name]. rewrite Hsig.
  set (name := prefix +:+ " - " +:+ plot +:+ suffix).
  assert (Hname : chars name
                  = (chars prefix ++ chars plot_separator
                     ++ chars plot ++ chars suffix)%list).
  { unfold name. now rewrite !chars_app. }
  assert (Hlow : chars (lower name)
                 = (map lower_char (chars prefix) ++ chars plot_separator
                    ++ map lower_char (chars plot)
                    ++ map lower_char (chars suffix))%list).
  { now rewrite chars_lower, Hname, !map_app. }
  assert (Hparts : exists tl,
             split_on plot_separator (lower name)
             = text (map lower_char (chars prefix))
               :: text (map lower_char (chars plot)) :: tl).
  { unfold split_on. rewrite Hlow, <- length_chars, Hlow.
    rewrite !length_app, !length_map.
    change (length (chars plot_separator)) with 3%nat.
    replace (length (chars prefix) + (3 + (length (chars plot) + length (chars suffix))))%nat
      with (S (S (length (chars prefix) + (1 + (length (chars plot)
                                                + length (chars suffix))))))
      by lia.
    cbn [split_chars_on].
    rewrite partition_at_first_separator by now apply lower_keeps_no_hyphen.
    destruct Hsuffix as [-> | [rest ->]].
    - cbn [chars list_ascii_of_string map]. rewrite app_nil_r.
      rewrite partition_without_hyphen by now apply lower_keeps_no_hyphen.
      now eexists.
    - rewrite chars_app, map_app.
      change (map lower_char (chars " - ")) with (chars plot_separator).
      rewrite partition_at_first_separator by now apply lower_keeps_no_hyphen.
      now eexists. }
  destruct Hparts as [tl ->]. cbn [length Nat.ltb Nat.leb nth].
  unfold slice. rewrite !length_text, !length_map.
  change (String.length plot_separator) with 3%nat.
  replace (length (chars prefix) + 3 + length (chars plot)
           - (length (chars prefix) + 3))%nat
    with (length (chars plot)) by lia.
  rewrite Hname.
  replace (chars prefix ++ chars plot_separator ++ chars plot ++ chars suffix)%list
    with ((chars prefix ++ chars plot_separator) ++ chars plot ++ chars suffix)%list
    by now rewrite <- app_assoc.
  replace (length (chars prefix) + 3)%nat
    with (length (chars prefix ++ chars plot_separator))
    by (rewrite length_app; reflexivity).
  rewrite drop_app_length, take_app_length. apply text_chars.
Qed.

Lemma get_plot_name_extracts_witness :
  _get_plot_name (("Season 4 By Plot" +:+ " - " +:+ "MAC Field 12" +:+ " - 2020")
                  :: ["other"])
  = "MAC Field 12".
Proof.
  apply get_plot_name_extracts.
  - reflexivity.
  - vm_compute. reflexivity.
  - rewrite <- existsb_eqb_elem. vm_compute. discriminate.
  - rewrite <- existsb_eqb_elem. vm_compute. discriminate.
  - right. exists "2020". reflexivity.
Defined.

(** [_get_plot_name] returns the empty string when no name has both the
    words "by plot", in some capitalisation, and a hyphen. *)
Theorem get_plot_name_without_plot (names : list string) :
  Forall (fun one_name => contains plot_signature (lower one_name) = false \/
                          "-"%char ∉ chars one_name) names ->
  _get_plot_name names = "".
Proof.
  induction 1 as [|one_name names Hone _ IH]; [reflexivity|].
  cbn [_get_plot_name].
  destruct (contains plot_signature (lower one_name)) eqn:Hsig; [|exact IH].
  destruct Hone as [Hone|Hone]; [discriminate|].
  assert (Hparts : length (split_on plot_separator (lower one_name)) = 1%nat).
  { unfold split_on. rewrite chars_lower.
    destruct (String.length (lower one_name)); cbn [split_chars_on]; [reflexivity|].
    now rewrite partition_without_hyphen by now apply lower_keeps_no_hyphen. }
  rewrite Hparts. exact IH.
Qed.

Lemma get_plot_name_without_plot_witness :
  _get_plot_name ["IMG_0042"; "by plot only"] = "".
Proof.
  apply get_plot_name_without_plot. repeat apply Forall_cons_2.
  - left. vm_compute. reflexivity.
  - right. rewrite <- existsb_eqb_elem. vm_compute. discriminate.
  - apply Forall_nil_2.
Defined.

(** ** The test script: [check_arguments] *)

Lemma map_nth_seq {A} (l : list A) (d : A) :
  map (fun i => nth i l d) (seq 0 (length l)) = l.
Proof.
  induction l as [|a l IH]; [reflexivity|].
  cbn [length seq map nth]. f_equal.
  rewrite <- seq_shift, map_map. exact IH.
Qed.

Lemma arguments_by_index (argv : list string) :
  map (fun idx => nth idx argv "") (seq 1 (length argv - 1)) = drop 1 argv.
Proof.
  destruct argv as [|a l]; [reflexivity|].
  replace (length (a :: l) - 1)%nat with (length l) by (cbn [length]; lia).
  cbn [drop]. rewrite <- seq_shift, map_map.
  apply map_nth_seq.
Qed.

Lemma check_index_fold (fs : filesystem) (argv : list string) :
  forall idxs have_errors printed,
  fold_left
    (fun '(have_errors, printed) idx =>
       if negb (path_exists fs (nth idx argv ""))
       then (true,
             (printed ++ [Stdout ("The following path doesn't exist: "
                                  +:+ nth idx argv "")])%list)
       else (have_errors, printed))
    idxs (have_errors, printed)
  = (have_errors
     || existsb (fun p => negb (path_exists fs p))
                (map (fun idx => nth idx argv "") idxs),
     (printed
      ++ map (fun p => Stdout ("The following path doesn't exist: " +:+ p))
             (List.filter (fun p => negb (path_exists fs p))
                          (map (fun idx => nth idx argv "") idxs)))%list).
Proof.
  induction idxs as [|i idxs IH]; intros have_errors printed;
    cbn [fold_left existsb List.filter map].
  - now rewrite orb_false_r, app_nil_r.
  - destruct (negb (path_exists fs (nth i argv ""))); rewrite IH; cbn [orb map].
    + rewrite orb_true_r. now rewrite <- app_assoc.
    + reflexivity.
Qed.

(** [check_arguments] returns [True] exactly when there is at least one
    argument after the script name and every one of them exists; it then
    prints nothing. With arguments that do not exist it prints one line
    for each of them, in their order, and then asks to correct the
    problems. *)
Theorem check_arguments_accepts (fs : filesystem) (module_file : string)
  (argv : list string) :
  ((check_arguments fs module_file argv).1 = true <->
   (2 <= length argv)%nat /\
   Forall (fun p => path_exists fs p = true) (drop 1 argv)) /\
  ((check_arguments fs module_file argv).1 = true ->
   (check_arguments fs module_file argv).2 = []) /\
  ((2 <= length argv)%nat ->
   (check_arguments fs module_file argv).1 = false ->
   (check_arguments fs module_file argv).2
   = (map (fun p => Stdout ("The following path doesn't exist: " +:+ p))
          (List.filter (fun p => negb (path_exists fs p)) (drop 1 argv))
      ++ [Stderr ("Please correct any problems and try again" +:+ newline)])%list).
Proof.
  unfold check_arguments. rewrite check_index_fold, arguments_by_index.
  destruct (Nat.ltb_spec (length argv) 2) as [Hlen|Hlen]; cbn [fst snd].
  { split; [split; [discriminate|intros [H _]; lia]|].
    split; [discriminate|intros H; lia]. }
  cbn [orb app].
  assert (Hall : existsb (fun p => negb (path_exists fs p)) (drop 1 argv) = false
                 <-> Forall (fun p => path_exists fs p = true) (drop 1 argv)).
  { induction (drop 1 argv) as [|p l IH]; cbn [existsb].
    - split; [constructor|reflexivity].
    - rewrite Forall_cons, <- IH. destruct (path_exists fs p); cbn [negb orb];
        intuition discriminate. }
  destruct (existsb _ (drop 1 argv)) eqn:E; cbn [fst snd negb].
  - split; [split; [discriminate|]|].
    + intros [_ H]. apply Hall in H. discriminate.
    + split; [discriminate|reflexivity].
  - split; [split; [intros _; split; [exact Hlen|now apply Hall]|reflexivity]|].
    split; [|discriminate].
    intros _. clear Hall. induction (drop 1 argv) as [|p l IH]; [reflexivity|].
    cbn [existsb] in E. apply orb_false_iff in E. destruct E as [Ep El].
    cbn [List.filter]. rewrite Ep. now apply IH.
Qed.

(** ** The configuration script: [generate_info] *)

Lemma note_missing_nil (value label : string) (missing : list string) :
  note_missing value label missing = [] <-> value <> "" /\ missing = [].
Proof.
  unfold note_missing. destruct (String.eqb_spec value "") as [->|H].
  - cbn [str_truthy String.eqb negb]. split.
    + intros E. now destruct missing.
    + intros [E _]. contradiction.
  - rewrite (str_truthy_Some value H). cbn [negb]. tauto.
Qed.

Lemma info_document (c : extractor_settings) :
  set_rep_url (REPOSITORY c)
    (dict_set "author" (JStr (AUTHOR_NAME c +:+ " <" +:+ AUTHOR_EMAIL c +:+ ">"))
       (dict_set "description" (JStr (DESCRIPTION c))
          (dict_set "version" (JStr (VERSION c))
             (dict_set "name" (JStr (set_EXTRACTOR_NAME c)) BASE_CONFIG))))
  = Return
      [("@context",
        JStr "http://clowder.ncsa.illinois.edu/contexts/extractors.jsonld");
       ("name", JStr (set_EXTRACTOR_NAME c));
       ("version", JStr (VERSION c));
       ("description", JStr (DESCRIPTION c));
       ("author", JStr (AUTHOR_NAME c +:+ " <" +:+ AUTHOR_EMAIL c +:+ ">"));
       ("contributors", JArr []);
       ("contexts", JArr []);
       ("repository", JObj [("repType", JStr "git");
                            ("repUrl", JStr (REPOSITORY c))]);
       ("process", JObj [("dataset", JArr [JStr "file.added"])]);
       ("external_services", JArr []);
       ("dependencies", JArr []);
       ("bibtex", JArr [])].
Proof. reflexivity. Qed.

(** [generate_info] writes [extractor_info.json] exactly when the six
    settings it needs are all set; otherwise it raises a [RuntimeError]
    and leaves the files as they were. The document written is the
    template with the name, the version, the description, the author as
    [name <email>] and the repository URL filled in, every other entry
    and the order of the entries unchanged, followed by a line feed. *)
Theorem generate_info_checks_settings (dumps : json -> string)
  (c : extractor_settings) (fs : gmap string string) :
  ((generate_info dumps c fs).1 = Return tt <->
   set_EXTRACTOR_NAME c <> "" /\ VERSION c <> "" /\ DESCRIPTION c <> "" /\
   AUTHOR_NAME c <> "" /\ AUTHOR_EMAIL c <> "" /\ REPOSITORY c <> "") /\
  (forall e, (generate_info dumps c fs).1 = Raise e ->
     (generate_info dumps c fs).2 = fs /\
     exists missing, missing <> [] /\ e = RuntimeError (missing_message missing)) /\
  ((generate_info dumps c fs).1 = Return tt ->
   (generate_info dumps c fs).2
   = <["extractor_info.json" :=
         dumps (JObj
           [("@context",
             JStr "http://clowder.ncsa.illinois.edu/contexts/extractors.jsonld");
            ("name", JStr (set_EXTRACTOR_NAME c));
            ("version", JStr (VERSION c));
            ("description", JStr (DESCRIPTION c));
            ("author", JStr (AUTHOR_NAME c +:+ " <" +:+ AUTHOR_EMAIL c +:+ ">"));
            ("contributors", JArr []);
            ("contexts", JArr []);
            ("repository", JObj [("repType", JStr "git");
                                 ("repUrl", JStr (REPOSITORY c))]);
            ("process", JObj [("dataset", JArr [JStr "file.added"])]);
            ("external_services", JArr []);
            ("dependencies", JArr []);
            ("bibtex", JArr [])])
         +:+ newline]> fs).
Proof.
  unfold generate_info. rewrite info_document.
  match goal with
  | |- context [match ?m with [] => _ | _ :: _ => _ end] =>
      assert (Hm : m = [] <->
                   set_EXTRACTOR_NAME c <> "" /\ VERSION c <> "" /\
                   DESCRIPTION c <> "" /\ AUTHOR_NAME c <> "" /\
                   AUTHOR_EMAIL c <> "" /\ REPOSITORY c <> "")
        by (rewrite !note_missing_nil; tauto);
      destruct m as [|label missing]
  end; cbn [fst snd].
  - split; [split; [intros _; now apply Hm|reflexivity]|].
    split; [discriminate|reflexivity].
  - split; [split; [discriminate|]|].
    + intros H. apply Hm in H. discriminate.
    + split; [|discriminate].
      intros e [= <-]. split; [reflexivity|].
      exists (label :: missing). split; [discriminate|reflexivity].
Qed.

(** ** The configuration script: [generate_dockerfile] *)

Lemma note_missing_set (value label : string) (missing : list string) :
  value <> "" -> note_missing value label missing = missing.
Proof. intros H. unfold note_missing. now rewrite (str_truthy_Some value H). Qed.

Lemma concat_empty_cons (x : string) (l : list string) :
  String.concat "" (x :: l) = x +:+ String.concat "" l.
Proof.
  destruct l as [|y l]; [|reflexivity].
  cbn [String.concat]. apply chars_inj. now rewrite chars_app, app_nil_r.
Qed.

Lemma drop_leading_absent (c : ascii) (cs : list ascii) :
  c ∉ cs -> drop_leading c cs = cs.
Proof.
  destruct cs as [|x cs]; [reflexivity|]. intros H.
  apply not_elem_of_cons in H. destruct H as [Hx _]. cbn [drop_leading].
  destruct (Ascii.eqb x c) eqn:E; [apply Ascii.eqb_eq in E; congruence|reflexivity].
Qed.

Lemma rstrip_newline_line (cur : list ascii) :
  "010"%char ∉ cur ->
  rstrip_newline (text (rev ("010"%char :: cur))) = text (rev cur).
Proof.
  intros H. unfold rstrip_newline. rewrite chars_text, rev_involutive.
  cbn [drop_leading]. rewrite Ascii.eqb_refl.
  now rewrite drop_leading_absent.
Qed.

Lemma file_lines_join : forall cs cur,
  "010"%char ∉ cur ->
  (cs = [] /\ cur = []) \/ last cs = Some "010"%char ->
  String.concat ""
    (map (fun line => line +:+ newline) (map rstrip_newline (file_lines cur cs)))
  = text (rev cur ++ cs).
Proof.
  induction cs as [|c cs IH]; intros cur Hcur Hend.
  - destruct Hend as [[_ ->]|Hend]; [reflexivity|discriminate].
  - cbn [file_lines]. destruct (Ascii.eqb c "010"%char) eqn:E.
    + apply Ascii.eqb_eq in E. subst c. cbn [map].
      rewrite concat_empty_cons, (rstrip_newline_line cur Hcur).
      rewrite IH.
      * cbn [rev app]. rewrite !text_app. change (text ["010"%char]) with newline.
        now rewrite append_assoc.
      * apply not_elem_of_nil.
      * destruct Hend as [[? _]|Hend]; [discriminate|].
        destruct cs as [|c' cs]; [now left|right]. exact Hend.
    + apply Ascii.eqb_neq in E. rewrite IH.
      * cbn [rev]. now rewrite <- app_assoc.
      * intros H. apply elem_of_cons in H. destruct H; [congruence|contradiction].
      * destruct Hend as [[? _]|Hend]; [discriminate|]. right.
        destruct cs as [|c' cs]; [|exact Hend].
        cbn in Hend. congruence.
Qed.

(** An ASCII template that ends with a line feed and has no line that
    starts with [MAINTAINER] and none whose first word is
    [RABBITMQ_QUEUE] is copied to [Dockerfile] as it is; no other file
    changes. *)
Theorem generate_dockerfile_copies_other_lines (c : extractor_settings)
  (fs : gmap string string) (content : string) :
  set_EXTRACTOR_NAME c <> "" -> AUTHOR_NAME c <> "" -> AUTHOR_EMAIL c <> "" ->
  fs !! DOCKERFILE_TEMPLATE_FILE_NAME = Some content ->
  is_ascii content = true ->
  content = "" \/ (exists body, content = body +:+ newline) ->
  Forall (fun line => startswith "MAINTAINER" line = false /\
                      startswith "RABBITMQ_QUEUE" (lstrip line) = false)
         (map rstrip_newline (file_lines [] (chars content))) ->
  generate_dockerfile c fs = (Return tt, <["Dockerfile" := content]> fs).
Proof.
  intros Hname Hauthor Hemail Htemplate _ Hend Hlines. unfold generate_dockerfile.
  rewrite !note_missing_set by assumption. rewrite Htemplate.
  f_equal. f_equal.
  transitivity (String.concat ""
                  (map (fun line => line +:+ newline)
                       (map rstrip_newline (file_lines [] (chars content))))).
  - f_equal. apply map_ext_in. intros line Hin.
    rewrite Forall_forall in Hlines. apply list_elem_of_In in Hin.
    destruct (Hlines line Hin) as [Hm Hr].
    unfold dockerfile_line. now rewrite Hm, Hr.
  - rewrite file_lines_join.
    + cbn [rev app]. apply text_chars.
    + apply not_elem_of_nil.
    + destruct Hend as [->|[body ->]]; [now left|right].
      rewrite chars_app. change (chars newline) with ["010"%char].
      apply last_snoc.
Qed.

Lemma generate_dockerfile_copies_other_lines_witness :
  generate_dockerfile example_settings
    {[DOCKERFILE_TEMPLATE_FILE_NAME := "FROM ubuntu" +:+ newline]}
  = (Return tt,
     <["Dockerfile" := "FROM ubuntu" +:+ newline]>
       {[DOCKERFILE_TEMPLATE_FILE_NAME := "FROM ubuntu" +:+ newline]}).
Proof.
  apply generate_dockerfile_copies_other_lines.
  - discriminate.
  - discriminate.
  - discriminate.
  - apply lookup_singleton_eq.
  - reflexivity.
  - right. now exists "FROM ubuntu".
  - vm_compute. repeat constructor.
Defined.

Lemma lstrip_chars_leading : forall ws rest,
  Forall (fun ch => is_space ch = true) ws ->
  lstrip_chars (ws ++ "R"%char :: rest) = "R"%char :: rest /\
  leading_space (ws ++ "R"%char :: rest) = ws.
Proof.
  induction 1 as [|ch ws Hch _ IH]; [split; reflexivity|].
  cbn [app lstrip_chars leading_space]. rewrite Hch.
  destruct IH as [-> ->]. split; reflexivity.
Qed.

(** A line of the template made of white space, then [RABBITMQ_QUEUE],
    then anything, is rewritten: the white space is kept, the queue is
    named after the extractor with its sanitised name, and what followed
    on the line is dropped. *)
Theorem dockerfile_queue_line (c : extractor_settings)
  (extractor_name white_space rest : string) :
  Forall (fun ch => is_space ch = true) (chars white_space) ->
  dockerfile_line c extractor_name (white_space +:+ "RABBITMQ_QUEUE" +:+ rest)
  = white_space +:+ "RABBITMQ_QUEUE=" +:+ dquote +:+ "terra.dronepipeline."
    +:+ extractor_name +:+ dquote +:+ " " +:+ backslash +:+ newline.
Proof.
  intros Hws. unfold dockerfile_line, startswith, lstrip.
  rewrite !chars_app.
  change (chars "RABBITMQ_QUEUE" ++ chars rest)%list
    with ("R"%char :: (chars "ABBITMQ_QUEUE" ++ chars rest))%list.
  destruct (lstrip_chars_leading (chars white_space)
              (chars "ABBITMQ_QUEUE" ++ chars rest)%list Hws) as [Hl Hs].
  rewrite Hl, Hs, chars_text, text_chars.
  assert (Hm : starts_with (chars "MAINTAINER")
                 (chars white_space
                  ++ "R"%char :: chars "ABBITMQ_QUEUE" ++ chars rest)%list = false).
  { destruct (chars white_space) as [|ch ws]; [reflexivity|].
    apply Forall_cons in Hws. destruct Hws as [Hch _].
    cbn [app chars list_ascii_of_string starts_with].
    destruct (Ascii.eqb "M" ch) eqn:E; [|reflexivity].
    apply Ascii.eqb_eq in E. subst ch. discriminate. }
  rewrite Hm. reflexivity.
Qed.

Lemma dockerfile_queue_line_witness :
  dockerfile_line example_settings "canopy_cover"
    ("    " +:+ "RABBITMQ_QUEUE" +:+ "=old \")
  = "    " +:+ "RABBITMQ_QUEUE=" +:+ dquote +:+ "terra.dronepipeline."
    +:+ "canopy_cover" +:+ dquote +:+ " " +:+ backslash +:+ newline.
Proof.
  apply dockerfile_queue_line. repeat constructor.
Defined.

(** ** The CSV file of a run *)

Lemma write_csv_file_fresh o f h d w :
  f <> "" -> d <> "" -> h <> "" ->
  files w !! f = None ->
  open_ok o (opens w) = true ->
  write_ok o (writes w) = true -> write_ok o (S (writes w)) = true ->
  exists w',
    write_csv_file o (Some f) (Some h) (Some d) w = (Return true, w') /\
    files w' !! f = Some (h +:+ newline +:+ d +:+ newline).
Proof.
  intros Hf Hd Hh Hnew Hopen Hw1 Hw2.
  rewrite (write_csv_file_first_open o f d (Some h) w Hf Hd Hopen).
  match goal with
  | |- context [write_body o f (Some h) d ?w1] =>
      destruct (write_body_first o f h d w1 Hh) as (w2 & Hb & Hfile);
      [unfold st_size, touch; cbn [files]; now rewrite Hnew, lookup_insert_eq
      | exact Hw1 | exact Hw2 |]
  end.
  rewrite Hb. eexists. split; [reflexivity|].
  cbn [file_close files]. rewrite Hfile. unfold touch. cbn [files].
  now rewrite Hnew, lookup_insert_eq.
Qed.

Lemma path_join_tail (a b : string) :
  exists pre,
    (if String.eqb a "" then b
     else match rev (chars a) with
          | "/"%char :: _ => a +:+ b
          | _ => a +:+ "/" +:+ b
          end) = pre +:+ b.
Proof.
  destruct (String.eqb a ""); [now exists ""|].
  destruct (rev (chars a)) as [|x xs];
    [exists (a +:+ "/"); now rewrite append_assoc|].
  destruct x as [[] [] [] [] [] [] [] []];
    first [now exists a | exists (a +:+ "/"); now rewrite append_assoc].
Qed.

Lemma path_join_suffix (a b : string) : exists pre, path_join a b = pre +:+ b.
Proof.
  unfold path_join. destruct (chars b) as [|c cs]; [apply path_join_tail|].
  destruct c as [[] [] [] [] [] [] [] []];
    first [apply path_join_tail | now exists ""].
Qed.

Lemma csv_is_not_json (a b : string) : a +:+ ".csv" <> b +:+ ".json".
Proof.
  intros H. apply (f_equal (fun s => rev (chars s))) in H.
  rewrite !chars_app, !rev_app_distr in H. discriminate.
Qed.

Lemma join_two_not_empty (x y : string) (l : list string) :
  join "," (x :: y :: l) <> "".
Proof.
  unfold join. rewrite concat_cons2. intros H.
  apply (f_equal chars) in H. rewrite !chars_app in H.
  destruct (chars x); discriminate.
Qed.

(** A run over one loaded, readable image whose result is reconciled to
    one value per variable field, with CSV files enabled, a CSV file that
    does not exist yet, an open and two writes that succeed: the run keeps
    one row, and the CSV file, named after the experiment and the sensor
    in the folder of the image, holds the header line and that row. The
    sidecar and the upload do not touch it. *)
Theorem process_files_writes_csv (o : oracle) (cfg : configuration)
  (g : globals) (germplasm_name experiment_name timestamp plot_name : string)
  (images_list metadata_list : list string) (w : world)
  (f : string) (poly : polygon) (names : list string) (sensor : string)
  (cv : calc_value) (vs : list string) :
  load_image_files o images_list = Return [(f, poly)] ->
  FIELD_NAME_LIST g = Some names ->
  SENSOR_NAME g = Some sensor ->
  read_pixels o f = true ->
  calculate o f = Return cv ->
  reconcile_shape names None cv = Return (Some vs) ->
  length vs = length names ->
  create_csv_files_of cfg = true ->
  files w !! out_csv_path experiment_name sensor f = None ->
  open_ok o (opens w) = true ->
  write_ok o (writes w) = true -> write_ok o (S (writes w)) = true ->
  exists row,
    run_rows (process_files o cfg g germplasm_name experiment_name timestamp
                plot_name images_list metadata_list w) = [row] /\
    files (run_world (process_files o cfg g germplasm_name experiment_name
                        timestamp plot_name images_list metadata_list w))
      !! out_csv_path experiment_name sensor f
    = Some (join "," (bety_fixed_fields ++ names) +:+ newline +:+ row +:+ newline).
Proof.
  intros Hload Hfields Hsensor Hread Hcalc Hrec Hlen Hcreate Hnew Hopen Hw1 Hw2.
  unfold process_files. rewrite Hload, Hcreate. cbn [length Nat.leb map fst].
  unfold get_bety_traits_table, get_bety_fields. rewrite Hfields.
  rewrite image_loop_cons.
  change (["local_datetime"; "access_level"; "species"; "site"; "citation_author";
           "citation_year"; "citation_title"; "method"] ++ names)%list
    with (bety_fixed_fields ++ names)%list.
  match goal with
  | |- context [image_try o g names ?bf plot_name ?lt true ?sb f ?st] =>
      rewrite (image_try_accepted o g names bf plot_name lt true sb f st cv vs
                 Hread Hcalc Hrec Hlen)
  end.
  cbn [orb bety_rows bety_traits calc_calls loop_world app].
  match goal with
  | |- context [LoopState (Some vs) ?tr [?r] ?cc w] => set (row := r); set (traits := tr)
  end.
  assert (Hrow : row <> "").
  { unfold row, generate_traits_list, bety_fixed_fields. cbn [app map].
    apply join_two_not_empty. }
  assert (Hheader : join "," (bety_fixed_fields ++ names) <> "").
  { unfold bety_fixed_fields. cbn [app]. apply join_two_not_empty. }
  destruct (path_join_suffix (dirname f)
              (__str_to_path experiment_name +:+ "_" +:+ sensor +:+ ".csv"))
    as [pre Hpath].
  assert (Hcsv : out_csv_path experiment_name sensor f
                 = (pre +:+ __str_to_path experiment_name +:+ "_" +:+ sensor)
                   +:+ ".csv").
  { unfold out_csv_path. rewrite Hpath. now rewrite !append_assoc. }
  assert (Hne : out_csv_path experiment_name sensor f <> "").
  { rewrite Hcsv. intros H. apply (f_equal chars) in H.
    rewrite chars_app in H. now destruct (chars _). }
  destruct (write_csv_file_fresh o (out_csv_path experiment_name sensor f)
              (join "," (bety_fixed_fields ++ names)) row w
              Hne Hrow Hheader Hnew Hopen Hw1 Hw2) as (w1 & Hwrite & Hfile).
  unfold image_output. rewrite Hsensor.
  cbn [bety_rows loop_world values bety_traits calc_calls write_rows].
  change (path_join (dirname f)
            (__str_to_path experiment_name +:+ "_" +:+ sensor +:+ ".csv"))
    with (out_csv_path experiment_name sensor f).
  rewrite Hwrite.
  assert (Hside : files (write_sidecar o
                           (splitext_root (out_csv_path experiment_name sensor f)
                            +:+ ".json") f w1)
                  !! out_csv_path experiment_name sensor f
                  = Some (join "," (bety_fixed_fields ++ names) +:+ newline
                          +:+ row +:+ newline)).
  { unfold write_sidecar. destruct (sidecar_text o f); [|exact Hfile].
    cbn [files]. rewrite lookup_insert_ne; [exact Hfile|].
    rewrite Hcsv at 2. intros H. symmetry in H. revert H. apply csv_is_not_json. }
  cbn [Nat.ltb Nat.leb image_loop bety_rows calc_calls loop_world bety_traits].
  exists row. destruct (store_in_betydb_of cfg); [|split; [reflexivity|exact Hside]].
  match goal with
  | |- context [update_betydb o ?h ?rows ?w2] =>
      pose proof (update_betydb_files o h rows w2) as Hup;
      destruct (update_betydb o h rows w2) as [ur uw]
  end.
  cbn [run_rows run_world]. split; [reflexivity|].
  rewrite (Hup ur uw eq_refl). exact Hside.
Qed.

Lemma process_files_writes_csv_witness :
  exists row,
    run_rows (process_files example_oracle example_configuration example_globals
                "B73" "Exp 1" "2020-06-01" "Plot_12" ["d/a.tif"] [] empty_world)
    = [row] /\
    files (run_world (process_files example_oracle example_configuration
                        example_globals "B73" "Exp 1" "2020-06-01" "Plot_12"
                        ["d/a.tif"] [] empty_world))
      !! out_csv_path "Exp 1" "canopycover" "d/a.tif"
    = Some (join "," (bety_fixed_fields ++ ["canopy_cover"]) +:+ newline
            +:+ row +:+ newline).
Proof.
  apply (process_files_writes_csv example_oracle example_configuration
           example_globals "B73" "Exp 1" "2020-06-01" "Plot_12" ["d/a.tif"] []
           empty_world "d/a.tif"
           (Polygon [bounds_ring example_geobounds] (Some 4326%Z))
           ["canopy_cover"] "canopycover" (CalcScalar "0.42") ["0.42"]);
    [reflexivity | apply example_globals_field_names | | reflexivity
    | reflexivity | reflexivity | reflexivity | reflexivity | | reflexivity
    | reflexivity | reflexivity].
  - destruct (init_extraction_array_value _ _ _ _ _ example_globals_initialised)
      as (_ & Hs & _).
    rewrite Hs. reflexivity.
  - apply lookup_empty.
Defined.
